(** * Tubely upload pipeline: a shallow embedding of the Go handlers

    The development follows the repository file by file:
    - [helpers.go]: [getFilename], [getVideoAspectRatio],
      [processVideoForFastStart], [generatePresignedURL],
      [dbVideoToSignedVideo];
    - [handler_upload_video.go]: [handlerUploadVideo];
    - [handler_upload_thumbnail.go]: [handlerUploadThumbnail].

    Go strings are [string]s, Go [int]s are [Z], [float64] is the
    primitive binary64 [float], [[]byte] is [list byte], a Go [error] is
    its message with [None] for [nil].  Calls that leave the process (the
    metadata store, the object store, the local file system, [ffprobe],
    [ffmpeg], the entropy source) act on an explicit [World]; what the
    outside answers is read from a record of outcomes, [Externals].  The
    world is followed up to the return of the handler: the temporary files
    of the multipart form, which [net/http] removes after the handler has
    returned, still exist then. *)

From Stdlib Require Import ZArith String Ascii List Lia.
From Stdlib.Strings Require Import Byte.
From Stdlib Require Import Floats Uint63 QArith Qabs.
From Stdlib Require Import Reals Lra Zpower.
From stdpp Require Import base option gmap strings list.

Open Scope string_scope.
Open Scope Z_scope.

(** ** Results of Go calls *)

(** A Go [error]: [None] is [nil], [Some msg] carries [err.Error()]. *)
Definition error : Type := option string.

Definition isErr (err : error) : bool :=
  match err with Some _ => true | None => false end.

(** A Go call either returns or panics at run time. *)
Inductive result (A : Type) : Type :=
| Returns (a : A)
| Panics (msg : string).
Arguments Returns {A} a.
Arguments Panics {A} msg.

(** ** Go standard library, as far as the handlers use it *)

(** [strings.Split(s, sep)] for a one-byte separator, the only kind the
    sources pass (["/"] and [","]): the pieces of [s] between the
    separators, in order; a string without separator is its only piece. *)
Fixpoint strings_Split (s : string) (sep : ascii) : list string :=
  match s with
  | EmptyString => [EmptyString]
  | String c rest =>
      if Ascii.eqb c sep then EmptyString :: strings_Split rest sep
      else match strings_Split rest sep with
           | piece :: pieces => String c piece :: pieces
           | [] => [String c EmptyString]
           end
  end.

(** The URL-safe alphabet of [encoding/base64]. *)
Definition encodeURL : string :=
  "ABCDEFGHIJKLMNOPQRSTUVWXYZabcdefghijklmnopqrstuvwxyz0123456789-_".

Definition encodeURL_at (i : Z) : ascii :=
  match String.get (Z.to_nat i) encodeURL with
  | Some c => c
  | None => "A"%char
  end.

Definition byteZ (b : byte) : Z := Z.of_N (Byte.to_N b).

(** [base64.RawURLEncoding.EncodeToString]: three source bytes give four
    characters; a remainder of one or two bytes gives two or three
    characters, and the raw encoding adds no padding. *)
Fixpoint base64_RawURLEncoding_EncodeToString (src : list byte) : string :=
  match src with
  | [] => EmptyString
  | [b0] =>
      let val := Z.shiftl (byteZ b0) 16 in
      String (encodeURL_at (Z.land (Z.shiftr val 18) 63))
        (String (encodeURL_at (Z.land (Z.shiftr val 12) 63)) EmptyString)
  | [b0; b1] =>
      let val := Z.lor (Z.shiftl (byteZ b0) 16) (Z.shiftl (byteZ b1) 8) in
      String (encodeURL_at (Z.land (Z.shiftr val 18) 63))
        (String (encodeURL_at (Z.land (Z.shiftr val 12) 63))
           (String (encodeURL_at (Z.land (Z.shiftr val 6) 63)) EmptyString))
  | b0 :: b1 :: b2 :: rest =>
      let val := Z.lor (Z.lor (Z.shiftl (byteZ b0) 16) (Z.shiftl (byteZ b1) 8))
                   (byteZ b2) in
      String (encodeURL_at (Z.land (Z.shiftr val 18) 63))
        (String (encodeURL_at (Z.land (Z.shiftr val 12) 63))
           (String (encodeURL_at (Z.land (Z.shiftr val 6) 63))
              (String (encodeURL_at (Z.land val 63))
                 (base64_RawURLEncoding_EncodeToString rest))))
  end.

(** [crypto/rand.Read(b)] on a buffer of [n] bytes.  The entropy source is
    the list of bytes it can still deliver; the call fills the whole
    buffer or fails. *)
Definition rand_Read (n : nat) (entropy : list byte) : list byte * error :=
  if (length entropy <? n)%nat
  then (repeat x00 n, Some "crypto/rand: entropy source unavailable")
  else (take n entropy, None).

(** [float64(i)] for a Go [int] (64 bits, two's complement): the nearest
    binary64 value, ties to even. *)
Definition float64_of_int (i : Z) : float :=
  let magnitude :=
    if Z.abs i <? 2 ^ 63 then PrimFloat.of_uint63 (Uint63.of_Z (Z.abs i))
    else (PrimFloat.of_uint63 (Uint63.of_Z (2 ^ 62)) * 2)%float in
  if i <? 0 then (- magnitude)%float else magnitude.

(** ** The outside world *)

(** Modelled from the spec: [database.Video] (package [internal/database]
    is not under src/).  A record has an identifier, an owning-user
    identifier, an optional video location, an optional thumbnail location
    and descriptive fields the handlers never look at. *)
Record Video : Type := mkVideo {
  ID : string;
  UserID : string;
  VideoURL : option string;
  ThumbnailURL : option string;
  Title : string
}.

#[export] Instance Video_eq_dec : EqDecision Video.
Proof. solve_decision. Defined.

Definition setVideoURL (video : Video) (url : option string) : Video :=
  mkVideo (ID video) (UserID video) url (ThumbnailURL video) (Title video).

Definition setThumbnailURL (video : Video) (url : option string) : Video :=
  mkVideo (ID video) (UserID video) (VideoURL video) url (Title video).

(** The zero value [database.Video{}]. *)
Definition zeroVideo : Video := mkVideo "" "" None None "".

(** An object of the object store: the local file it was read from and its
    content type. *)
Record S3Object : Type := { Body : string; ContentType : string }.

(** Every call that leaves the handler, in the order it happens. *)
Inductive Event : Type :=
| RespondWithError (code : Z) (msg : string)
| RespondWithJSON (code : Z) (payload : Video)
| ParseMultipartForm (maxMemory : Z)
| FormFile (name : string)
| DBGetVideo (id : string)
| DBUpdateVideo (video : Video)
| OSCreateTemp (name : option string)
| OSCreate (name : string)
| OSOpen (name : string)
| OSRemove (name : string)
| IOCopy (dst : option string)
| FileSeek (file : option string)
| Exec (command : string) (args : list string)
| S3PutObject (bucket key body contentType : string).

#[export] Instance Event_eq_dec : EqDecision Event.
Proof. solve_decision. Defined.

(** The metadata store by video identifier, the paths that exist on the
    local disk, the object store by (bucket, key), and the calls so far,
    oldest first. *)
Record World : Type := mkWorld {
  db : gmap string Video;
  files : gset string;
  s3 : gmap (string * string) S3Object;
  trace : list Event
}.

Definition emit (e : Event) (w : World) : World :=
  mkWorld (db w) (files w) (s3 w) (trace w ++ [e]).

Definition setDB (d : gmap string Video) (w : World) : World :=
  mkWorld d (files w) (s3 w) (trace w).

Definition setFiles (f : gset string) (w : World) : World :=
  mkWorld (db w) f (s3 w) (trace w).

Definition setS3 (o : gmap (string * string) S3Object) (w : World) : World :=
  mkWorld (db w) (files w) o (trace w).

(** One entry of [FFProbeResponse.Streams] (helpers.go). *)
Record Stream : Type := { Width : Z; Height : Z }.

Record FFProbeResponse : Type := { Streams : list Stream }.

(** What running [ffprobe] and decoding its standard output gives. *)
Inductive ProbeOutcome : Type :=
| ProbeRunFails (err : string)          (* [cmd.Run] returns an error *)
| ProbeUnparseable (err : string)       (* [json.Unmarshal] returns an error *)
| ProbeReports (response : FFProbeResponse).

(** What [ffmpeg] does when it is run: it exits with status zero and has
    written its output file, or [cmd.Run] returns an error, with the text
    the process wrote to standard error, and a partial output file may be
    left behind. *)
Inductive FfmpegOutcome : Type :=
| FfmpegSucceeds
| FfmpegFails (err stderr : string) (leavesOutput : bool).

(** [apiConfig], the fields the handlers read. *)
Record apiConfig : Type := { s3Bucket : string }.

(** The inbound request as the first lines of a handler see it: each field
    is what the named call returns, [None] standing for its error. *)
Record Request : Type := {
  reqVideoID : option string;      (* uuid.Parse(r.PathValue("videoID")) *)
  reqToken : option string;        (* auth.GetBearerToken(r.Header) *)
  reqUserID : option string;       (* auth.ValidateJWT(token, cfg.jwtSecret) *)
  reqFormParses : bool;            (* r.ParseMultipartForm(maxMemory) *)
  reqFormSpill : Z -> gset string;
    (* r.ParseMultipartForm(maxMemory): the temporary files that exist
       when the call returns.  The file parts of the body are kept in
       memory up to maxMemory bytes in total and the rest is stored on
       disk; the set is empty when all file parts fit in memory *)
  reqFormFile : option (string * error)
    (* r.FormFile(name): the part, given by what mime.ParseMediaType
       returns on its Content-Type header, (mediaType, err) *)
}.

(** What the collaborators answer during one request. *)
Record Externals : Type := {
  xTempSuffix : option string;     (* os.CreateTemp: the random text, or failure *)
  xCopyOK : bool;                  (* io.Copy into an open file *)
  xSeekOK : bool;                  (* tmpFile.Seek on an open file *)
  xEntropy : list byte;            (* what crypto/rand can deliver *)
  xProbe : ProbeOutcome;           (* ffprobe and the decoding of its output *)
  xUpdateOK : bool;                (* cfg.db.UpdateVideo *)
  xPresign : string -> string -> Z -> string * error;
                                   (* PresignGetObject(bucket, key, seconds) *)
  xFfmpeg : FfmpegOutcome;         (* ffmpeg *)
  xOpenOK : bool;                  (* os.Open of an existing file *)
  xPutOK : bool;                   (* s3Client.PutObject *)
  xCreateOK : bool                 (* os.Create *)
}.

(** ** helpers.go *)

(** [getFilename]: the extension is the second piece of the media type,
    the base name the raw URL-safe base64 text of 32 random bytes. *)
Definition getFilename (mediaType : string) (entropy : list byte)
  : result (string * error) :=
  match strings_Split mediaType "/" !! 1%nat with
  | None => Panics "runtime error: index out of range [1] with length 1"
  | Some subtype =>
      let ext := "." +:+ subtype in
      let '(b, err) := rand_Read 32 entropy in
      if isErr err then Returns ("", err)
      else
        let basename := base64_RawURLEncoding_EncodeToString b in
        Returns (basename +:+ ext, None)
  end.

(** The three comparisons of [getVideoAspectRatio], on the dimensions of
    the first stream, in binary64 as the source computes them. *)
Definition aspectRatioOf (width height : float) : string :=
  let ratio := (width / height)%float in
  if (PrimFloat.abs (ratio - 16 / 9) <? 1 / 10)%float then "16:9"
  else if (PrimFloat.abs (ratio - 9 / 16) <? 1 / 10)%float then "9:16"
  else "other".

Definition ffprobeArgs (filepath : string) : list string :=
  ["-v"; "error"; "-print_format"; "json"; "-show_streams"; filepath].

Definition getVideoAspectRatio (filepath : string) (x : Externals) (w : World)
  : (string * error) * World :=
  let w := emit (Exec "ffprobe" (ffprobeArgs filepath)) w in
  match xProbe x with
  | ProbeRunFails err => (("", Some err), w)
  | ProbeUnparseable err => (("", Some err), w)
  | ProbeReports response =>
      match Streams response with
      | [] => (("", Some "no streams found in video file"), w)
      | first :: _ =>
          let width := float64_of_int (Width first) in
          let height := float64_of_int (Height first) in
          ((aspectRatioOf width height, None), w)
      end
  end.

(** [a < b] on rationals. *)
Definition Qltb (a b : Q) : bool := negb (Qle_bool b a).

(** The classification rule read over the rationals, as the specification
    words it: wide when |w/h - 16/9| < 1/10, else tall when
    |w/h - 9/16| < 1/10, else other.  It is compared with [aspectRatioOf]
    below and is no part of the program. *)
Definition aspectRatioExact (width height : Z) : string :=
  let ratio := Qmake width (Z.to_pos height) in
  if Qltb (Qabs (ratio - (16 # 9))%Q) (1 # 10) then "16:9"
  else if Qltb (Qabs (ratio - (9 # 16))%Q) (1 # 10) then "9:16"
  else "other".

Definition ffmpegArgs (filePath outputPath : string) : list string :=
  ["-i"; filePath; "-c"; "copy"; "-movflags"; "faststart"; "-f"; "mp4";
   outputPath].

(** [processVideoForFastStart]: runs [ffmpeg] from [filePath] to
    [filePath + ".processed"]. *)
Definition processVideoForFastStart (filePath : string) (x : Externals)
  (w : World) : (string * error) * World :=
  let outputPath := filePath +:+ ".processed" in
  let w := emit (Exec "ffmpeg" (ffmpegArgs filePath outputPath)) w in
  match xFfmpeg x with
  | FfmpegFails err stderr leavesOutput =>
      let w := if leavesOutput then setFiles (files w ∪ {[outputPath]}) w
               else w in
      (("", Some ("ffmpeg error: " +:+ err +:+ ", stderr: " +:+ stderr)), w)
  | FfmpegSucceeds =>
      ((outputPath, None), setFiles (files w ∪ {[outputPath]}) w)
  end.

(** [generatePresignedURL]: the presign client's answer for the bucket, the
    key and the expiry, in seconds. *)
Definition generatePresignedURL (x : Externals) (bucket key : string)
  (expireTime : Z) : string * error :=
  let '(url, err) := xPresign x bucket key expireTime in
  if isErr err then ("", err) else (url, None).

(** [time.Hour], in seconds. *)
Definition time_Hour : Z := 3600.

(** [dbVideoToSignedVideo]: a record without video location is returned as
    it is; otherwise the location is split at [","] into bucket and key,
    which are signed. *)
Definition dbVideoToSignedVideo (x : Externals) (video : Video)
  : Video * error :=
  match VideoURL video with
  | Some url =>
      match strings_Split url "," with
      | [bucket; key] =>
          let '(signedURL, err) :=
            generatePresignedURL x bucket key time_Hour in
          if isErr err then (zeroVideo, err)
          else (setVideoURL video (Some signedURL), None)
      | _ =>
          (zeroVideo,
           Some ("invalid video URL format: expected bucket,key got " +:+ url))
      end
  | None => (video, None)
  end.

(** ** Handlers: control flow *)

(** A call postponed by [defer]. *)
Inductive Deferred : Type :=
| DeferRemove (path : string)          (* defer os.Remove(path) *)
| DeferClose (file : option string).   (* defer f.Close() *)

(** A running handler: the world and its deferred calls, newest first. *)
Record Frame : Type := mkFrame { world : World; deferred : list Deferred }.

(** After a statement the handler goes on, has executed [return], or has
    panicked. *)
Inductive Step (A : Type) : Type :=
| Continue (a : A)
| Return
| Panic (msg : string).
Arguments Continue {A} a.
Arguments Return {A}.
Arguments Panic {A} msg.

Definition Handler (A : Type) : Type := Frame -> Step A * Frame.

#[export] Instance Handler_ret : MRet Handler :=
  fun A a fr => (Continue a, fr).

#[export] Instance Handler_bind : MBind Handler :=
  fun A B k m fr =>
    match m fr with
    | (Continue a, fr') => k a fr'
    | (Return, fr') => (Return, fr')
    | (Panic msg, fr') => (Panic msg, fr')
    end.

(** [return] *)
Definition return_ {A : Type} : Handler A := fun fr => (Return, fr).

(** A call on the world. *)
Definition call {A : Type} (f : World -> A * World) : Handler A :=
  fun fr => let '(a, w) := f (world fr) in
            (Continue a, mkFrame w (deferred fr)).

(** A call that may panic. *)
Definition orPanic {A : Type} (r : result A) : Handler A :=
  fun fr => match r with
            | Returns a => (Continue a, fr)
            | Panics msg => (Panic msg, fr)
            end.

(** [defer d] *)
Definition defer (d : Deferred) : Handler unit :=
  fun fr => (Continue tt, mkFrame (world fr) (d :: deferred fr)).

(** [if cond { body }] *)
Definition when_ (cond : bool) (body : Handler unit) : Handler unit :=
  if cond then body else mret tt.

(** [if cond { body; return }] *)
Definition whenReturn (cond : bool) (body : Handler unit) : Handler unit :=
  if cond then body ;; return_ else mret tt.

(** [v, err := call; if err != nil { body; return }] for a call given by
    its outcome. *)
Definition orReturn {A : Type} (outcome : option A) (body : Handler unit)
  : Handler A :=
  match outcome with
  | Some a => mret a
  | None => body ;; return_
  end.

(** The deferred calls run when the handler returns or panics, the newest
    first.  Removing a path that does not exist fails without effect;
    closing a file changes nothing the world records. *)
Definition runDeferred1 (d : Deferred) (w : World) : World :=
  match d with
  | DeferRemove path => setFiles (files w ∖ {[path]}) (emit (OSRemove path) w)
  | DeferClose _ => w
  end.

Fixpoint runDeferred (ds : list Deferred) (w : World) : World :=
  match ds with
  | [] => w
  | d :: ds' => runDeferred ds' (runDeferred1 d w)
  end.

Definition runHandler (body : Handler unit) (w : World) : result unit * World :=
  let '(step, fr) := body (mkFrame w []) in
  (match step with Panic msg => Panics msg | _ => Returns tt end,
   runDeferred (deferred fr) (world fr)).

(** ** Handlers: the collaborators *)

(** Modelled from the spec: [respondWithError] and [respondWithJSON]
    (json.go is not under src/) write the response: a status code with a
    message, or a status code with the record. *)
Definition respondWithError (code : Z) (msg : string) : Handler unit :=
  call (fun w => (tt, emit (RespondWithError code msg) w)).

Definition respondWithJSON (code : Z) (payload : Video) : Handler unit :=
  call (fun w => (tt, emit (RespondWithJSON code payload) w)).

Definition http_StatusOK : Z := 200.
Definition http_StatusBadRequest : Z := 400.
Definition http_StatusUnauthorized : Z := 401.
Definition http_StatusInternalServerError : Z := 500.

(** [r.ParseMultipartForm(maxMemory)]: the whole body is read; file parts
    beyond [maxMemory] bytes are written to temporary files, which exist
    when the call returns. *)
Definition r_ParseMultipartForm (r : Request) (maxMemory : Z)
  : Handler error :=
  call (fun w =>
    (if reqFormParses r then None else Some "multipart: cannot parse form",
     setFiles (files w ∪ reqFormSpill r maxMemory)
       (emit (ParseMultipartForm maxMemory) w))).

(** [r.FormFile(name)]: the first file part under [name], opened from
    memory or from its temporary file, with its header. *)
Definition r_FormFile (r : Request) (name : string)
  : Handler (option (string * error)) :=
  call (fun w => (reqFormFile r, emit (FormFile name) w)).

(** Modelled from the spec: the metadata store's [GetVideo] and
    [UpdateVideo] (package [internal/database] is not under src/):
    [get(id) -> VideoRecord | NotFound] and [update(record) -> void | error],
    the update replacing the record stored under the record's identifier. *)
Definition db_GetVideo (id : string) : Handler (option Video) :=
  call (fun w => (db w !! id, emit (DBGetVideo id) w)).

Definition db_UpdateVideo (x : Externals) (video : Video) : Handler error :=
  call (fun w =>
    let w := emit (DBUpdateVideo video) w in
    if xUpdateOK x then (None, setDB (<[ID video := video]> (db w)) w)
    else (Some "database: update failed", w)).

(** [os.CreateTemp(dir, pattern)] for a pattern without ["*"]: the name is
    [dir/pattern] followed by random text.  [None] is the nil [*os.File]. *)
Definition os_CreateTemp (x : Externals) (dir pattern : string)
  : Handler (option string * error) :=
  call (fun w =>
    match xTempSuffix x with
    | Some random =>
        let name := dir +:+ "/" +:+ pattern +:+ random in
        ((Some name, None),
         setFiles (files w ∪ {[name]}) (emit (OSCreateTemp (Some name)) w))
    | None =>
        ((None, Some "open: cannot create temporary file"),
         emit (OSCreateTemp None) w)
    end).

(** [os.Create(name)] *)
Definition os_Create (x : Externals) (name : string)
  : Handler (option string * error) :=
  call (fun w =>
    let w := emit (OSCreate name) w in
    if xCreateOK x then ((Some name, None), setFiles (files w ∪ {[name]}) w)
    else ((None, Some "open: cannot create file"), w)).

(** [os.Open(name)] *)
Definition os_Open (x : Externals) (name : string)
  : Handler (option string * error) :=
  call (fun w =>
    let w' := emit (OSOpen name) w in
    if bool_decide (name ∈ files w) && xOpenOK x then ((Some name, None), w')
    else ((None, Some "open: no such file or directory"), w')).

(** [io.Copy(dst, src)] into a file: a nil file is invalid. *)
Definition io_Copy (x : Externals) (dst : option string) : Handler error :=
  call (fun w =>
    (match dst with
     | Some _ => if xCopyOK x then None else Some "write: copy failed"
     | None => Some "invalid argument"
     end, emit (IOCopy dst) w)).

(** [f.Seek(0, io.SeekStart)]: a nil file is invalid. *)
Definition file_Seek (x : Externals) (f : option string) : Handler error :=
  call (fun w =>
    (match f with
     | Some _ => if xSeekOK x then None else Some "seek: failed"
     | None => Some "invalid argument"
     end, emit (FileSeek f) w)).

(** [f.Name()]: dereferences the file. *)
Definition file_Name (f : option string) : Handler string :=
  orPanic match f with
          | Some name => Returns name
          | None =>
              Panics "runtime error: invalid memory address or nil pointer dereference"
          end.

(** [s3Client.PutObject] *)
Definition s3_PutObject (x : Externals) (bucket key body contentType : string)
  : Handler error :=
  call (fun w =>
    let w := emit (S3PutObject bucket key body contentType) w in
    if xPutOK x
    then (None, setS3 (<[(bucket, key) := Build_S3Object body contentType]> (s3 w)) w)
    else (Some "s3: PutObject failed", w)).

(** ** handler_upload_video.go *)

(** The key prefixes by aspect ratio; a missing key gives the empty
    string, as a Go map does. *)
Definition prefixes : gmap string string :=
  {[ "16:9" := "landscape"; "9:16" := "portrait"; "other" := "other" ]}.

Definition handlerUploadVideo_body (cfg : apiConfig) (r : Request)
  (x : Externals) : Handler unit :=
  videoID ← orReturn (reqVideoID r)
    (respondWithError http_StatusBadRequest "Invalid ID");
  token ← orReturn (reqToken r)
    (respondWithError http_StatusUnauthorized "Missing token");
  userID ← orReturn (reqUserID r)
    (respondWithError http_StatusUnauthorized "Invalid token");
  let maxMemory := Z.shiftl 10 30 in
  err ← r_ParseMultipartForm r maxMemory;
  whenReturn (isErr err)
    (respondWithError http_StatusBadRequest "Unable to parse form");;
  part ← r_FormFile r "video";
  header ← orReturn part
    (respondWithError http_StatusBadRequest "Unable to parse uploaded file");
  defer (DeferClose (Some "video"));;
  found ← db_GetVideo videoID;
  metadata ← orReturn found
    (respondWithError http_StatusInternalServerError
       "Unable to get video metadata");
  whenReturn (negb (bool_decide (UserID metadata = userID)))
    (respondWithError http_StatusUnauthorized
       "User does not have access to this video");;
  (* Create filepath *)
  let '(mediaType, err) := header in
  when_ (isErr err)
    (respondWithError http_StatusInternalServerError
       "Unable to parse Content-Type header");;
  when_ (negb (bool_decide (mediaType = "video/mp4")))
    (respondWithError http_StatusBadRequest "Video must be in mp4 format");;
  (* Save video to temporary file *)
  '(tmpFile, err) ← os_CreateTemp x "/tmp" "tubely-upload.mp4";
  when_ (isErr err)
    (respondWithError http_StatusInternalServerError
       "Unable to save temporary file");;
  defer (DeferRemove "/tmp/tubely-upload.mp4");;
  defer (DeferClose tmpFile);;
  (* Copy the multipart file to tmpFile *)
  err ← io_Copy x tmpFile;
  when_ (isErr err)
    (respondWithError http_StatusInternalServerError
       "Unable to write to temporary file");;
  (* Reset tmpFile's pointer to the beginning *)
  err ← file_Seek x tmpFile;
  when_ (isErr err)
    (respondWithError http_StatusInternalServerError "Unable to reset pointer");;
  (* Create random file key for storing in s3 *)
  '(key, err) ← orPanic (getFilename mediaType (xEntropy x));
  whenReturn (isErr err)
    (respondWithError http_StatusInternalServerError
       "Unable to upload video to s3");;
  (* Get aspect ratio of video (16:9, 9:16, or other) *)
  tmpName ← file_Name tmpFile;
  '(aspectRatio, err) ← call (getVideoAspectRatio tmpName x);
  whenReturn (isErr err)
    (respondWithError http_StatusInternalServerError
       "Unable to upload video to s3");;
  (* Get prefix for storing in s3 based on aspect ratio and add it to the key *)
  let prefix := default "" (prefixes !! aspectRatio) in
  let key := prefix +:+ "/" +:+ key in
  (* Add the video to the DB. The VideoURL field is of the form "bucket,key" *)
  let videoUrl := s3Bucket cfg +:+ "," +:+ key in
  let metadata := setVideoURL metadata (Some videoUrl) in
  db_UpdateVideo x metadata;;
  (* Update video with presigned URL *)
  let '(metadata, err) := dbVideoToSignedVideo x metadata in
  whenReturn (isErr err)
    (respondWithError http_StatusInternalServerError
       "Unable to upload video to s3");;
  (* Process video for a fast start with ffmpeg *)
  tmpName ← file_Name tmpFile;
  '(processedFilePath, err) ← call (processVideoForFastStart tmpName x);
  whenReturn (isErr err)
    (respondWithError http_StatusInternalServerError
       "Unable to upload video to s3");;
  '(processedFile, err) ← os_Open x processedFilePath;
  whenReturn (isErr err)
    (respondWithError http_StatusInternalServerError
       "Unable to upload video to s3");;
  defer (DeferRemove processedFilePath);;
  defer (DeferClose processedFile);;
  (* Upload video to S3 *)
  err ← s3_PutObject x (s3Bucket cfg) key processedFilePath mediaType;
  when_ (isErr err)
    (respondWithError http_StatusInternalServerError
       "Unable to upload video to S3").

Definition handlerUploadVideo (cfg : apiConfig) (r : Request) (x : Externals)
  (w : World) : result unit * World :=
  runHandler (handlerUploadVideo_body cfg r x) w.

(** ** handler_upload_thumbnail.go *)

Definition handlerUploadThumbnail_body (cfg : apiConfig) (r : Request)
  (x : Externals) : Handler unit :=
  videoID ← orReturn (reqVideoID r)
    (respondWithError http_StatusBadRequest "Invalid ID");
  token ← orReturn (reqToken r)
    (respondWithError http_StatusUnauthorized "Couldn't find JWT");
  userID ← orReturn (reqUserID r)
    (respondWithError http_StatusUnauthorized "Couldn't validate JWT");
  let maxMemory := Z.shiftl 10 20 in
  err ← r_ParseMultipartForm r maxMemory;
  whenReturn (isErr err)
    (respondWithError http_StatusBadRequest "Unable to parse form");;
  part ← r_FormFile r "thumbnail";
  header ← orReturn part
    (respondWithError http_StatusBadRequest "Unable to parse uploaded file");
  defer (DeferClose (Some "thumbnail"));;
  found ← db_GetVideo videoID;
  metadata ← orReturn found
    (respondWithError http_StatusInternalServerError
       "Unable to get video metadata");
  whenReturn (negb (bool_decide (UserID metadata = userID)))
    (respondWithError http_StatusUnauthorized
       "User does not have access to this video");;
  (* Parse and validate mime type *)
  let '(mediaType, err) := header in
  when_ (isErr err)
    (respondWithError http_StatusInternalServerError
       "Unable to parse Content-Type header");;
  when_ (negb (bool_decide (mediaType = "image/png"))
         && negb (bool_decide (mediaType = "image/jpeg")))
    (respondWithError http_StatusBadRequest
       "Thumbnail must be image/png or image/jpeg mime type");;
  (* Build filename of the form /assets/randomBase64.ext *)
  '(filePath, err) ← orPanic (getFilename mediaType (xEntropy x));
  whenReturn (isErr err)
    (respondWithError http_StatusInternalServerError "Unable to upload file");;
  (* Create file on server and copy multipart data to it *)
  '(assetFile, err) ← os_Create x filePath;
  when_ (isErr err)
    (respondWithError http_StatusInternalServerError
       "Unable to upload thumbnail");;
  io_Copy x assetFile;;
  (* Update thumbnail URL in metadata and save to DB *)
  let thumbnailUrl := "http://localhost:8091/" +:+ filePath in
  let metadata := setThumbnailURL metadata (Some thumbnailUrl) in
  db_UpdateVideo x metadata;;
  respondWithJSON http_StatusOK metadata.

Definition handlerUploadThumbnail (cfg : apiConfig) (r : Request)
  (x : Externals) (w : World) : result unit * World :=
  runHandler (handlerUploadThumbnail_body cfg r x) w.

(** ** Notions used to state the properties *)

(** Whether the byte [c] occurs in [s]. *)
Fixpoint containsByte (c : ascii) (s : string) : bool :=
  match s with
  | EmptyString => false
  | String c' rest => Ascii.eqb c' c || containsByte c rest
  end.

(** [check] holds at [lo], [lo + 1], ..., [lo + n - 1]. *)
Fixpoint forallZ (lo : Z) (n : nat) (check : Z -> bool) : bool :=
  match n with
  | O => true
  | S n' => check lo && forallZ (lo + 1) n' check
  end.

(** The class [getVideoAspectRatio] gives a first stream of the given
    dimensions. *)
Definition classify (width height : Z) : string :=
  aspectRatioOf (float64_of_int width) (float64_of_int height).

(** The calls that can write to the disk, to the object store or to the
    metadata store. *)
Definition isMutation (e : Event) : bool :=
  match e with
  | ParseMultipartForm _ | DBUpdateVideo _ | OSCreateTemp _ | OSCreate _
  | S3PutObject _ _ _ _ | IOCopy _ | Exec _ _ => true
  | _ => false
  end.

(** The ratio [width/height] lies exactly on one of the two thresholds of
    the exact rule. *)
Definition onBoundary (width height : Z) : bool :=
  let ratio := Qmake width (Z.to_pos height) in
  Qeq_bool (Qabs (ratio - (16 # 9))%Q) (1 # 10)
  || Qeq_bool (Qabs (ratio - (9 # 16))%Q) (1 # 10).

(** The real number a binary64 value stands for (0 for the values that
    are not finite). *)
Definition SF2R (f : spec_float) : R :=
  match f with
  | S754_finite s m e =>
      ((if s then -1 else 1) * IZR (Zpos m) * powerRZ 2 e)%R
  | _ => 0%R
  end.

(** A finite binary64 value with a full mantissa and a moderate
    exponent. *)
Definition normal53 (f : spec_float) : Prop :=
  match f with
  | S754_finite _ m e => 2 ^ 52 <= Zpos m < 2 ^ 53 /\ -200 <= e <= 200
  | _ => False
  end.

(** Where the number [M / P] lies between [m] and [m + 1], as the round
    bit [r] and the sticky bit [s] of the rounding procedure record it:
    on [m], below the middle, on the middle, above the middle. *)
Definition located (P M m : Z) (r s : bool) : Prop :=
  exists rem, M = m * P + rem /\ 0 <= rem < P
    /\ match r, s with
       | false, false => rem = 0
       | false, true => 0 < 2 * rem < P
       | true, false => 2 * rem = P
       | true, true => P < 2 * rem
       end.

(** What a shift register holds after the mantissa [m0] of [M / P] was
    shifted right: [Q] is two to the number of shifts made. *)
Definition shrInv (P Q M m0 : Z) (mrs : shr_record) : Prop :=
  0 <= shr_m mrs
  /\ located P M (shr_m mrs) (shr_r mrs) (shr_s mrs)
  /\ shr_m mrs * Q <= m0 < (shr_m mrs + 1) * Q.

(** [emit] under a condition: what [if cond { respondWithError(...) }]
    does to the world. *)
Definition emitWhen (cond : bool) (e : Event) (w : World) : World :=
  mkWorld (db w) (files w) (s3 w) (trace w ++ if cond then [e] else []).

(** The records passed to [UpdateVideo], in order. *)
Fixpoint updatesOf (events : list Event) : list Video :=
  match events with
  | [] => []
  | DBUpdateVideo video :: rest => video :: updatesOf rest
  | _ :: rest => updatesOf rest
  end.

(** The (bucket, key, body, content type) of the [PutObject] calls, in
    order. *)
Fixpoint putsOf (events : list Event)
  : list (string * string * string * string) :=
  match events with
  | [] => []
  | S3PutObject bucket key body contentType :: rest =>
      (bucket, key, body, contentType) :: putsOf rest
  | _ :: rest => putsOf rest
  end.

(** The calls of a request for [videoID] that the ownership check
    refuses, in a handler that reads the form with [maxMemory] and takes
    the part named [part]: the form is parsed and the part is taken before
    the record is read, and either of the two can end the request with a
    400 before the check is reached. *)
Definition refusedCalls (r : Request) (maxMemory : Z) (part videoID : string)
  : list Event :=
  ParseMultipartForm maxMemory ::
  (if reqFormParses r
   then FormFile part ::
        match reqFormFile r with
        | Some _ =>
            [DBGetVideo videoID;
             RespondWithError http_StatusUnauthorized
               "User does not have access to this video"]
        | None =>
            [RespondWithError http_StatusBadRequest
               "Unable to parse uploaded file"]
        end
   else [RespondWithError http_StatusBadRequest "Unable to parse form"]).

(** ** A concrete deployment, for the examples *)

Definition tubelyCfg : apiConfig := {| s3Bucket := "tubely-private" |}.

Definition draftVideo : Video :=
  mkVideo "4d3c2b1a-0000-4000-8000-000000000001" "alice" None None
    "Boots intro".

Definition world0 : World :=
  mkWorld {[ ID draftVideo := draftVideo ]} ∅ ∅ [].

(** A request for [draftVideo] by [user] whose part has the given parsed
    content type and fits in memory. *)
Definition uploadBy (user : string) (header : string * error) : Request :=
  {| reqVideoID := Some (ID draftVideo);
     reqToken := Some "eyJhbGciOiJIUzI1NiJ9";
     reqUserID := Some user;
     reqFormParses := true;
     reqFormSpill := fun _ => ∅;
     reqFormFile := Some header |}.

Definition entropy32 : list byte :=
  [x00; x01; x02; x03; x04; x05; x06; x07; x08; x09; x0a; x0b; x0c; x0d;
   x0e; x0f; xf0; xf1; xf2; xf3; xf4; xf5; xf6; xf7; xf8; xf9; xfa; xfb;
   xfc; xfd; xfe; xff].

Definition probeOf (width height : Z) : ProbeOutcome :=
  ProbeReports {| Streams := [ {| Width := width; Height := height |} ] |}.

Definition presignFake (bucket key : string) (seconds : Z) : string * error :=
  ("https://" +:+ bucket +:+ ".s3.amazonaws.com/" +:+ key
     +:+ "?X-Amz-Expires=3600", None).

(** Collaborators that all succeed on a 1920x1080 upload, except as the
    arguments say. *)
Definition externals (probe : ProbeOutcome) (ffmpeg : FfmpegOutcome)
  (putOK : bool) : Externals :=
  {| xTempSuffix := Some "2858167534";
     xCopyOK := true;
     xSeekOK := true;
     xEntropy := entropy32;
     xProbe := probe;
     xUpdateOK := true;
     xPresign := presignFake;
     xFfmpeg := ffmpeg;
     xOpenOK := true;
     xPutOK := putOK;
     xCreateOK := true |}.

Definition allGood : Externals :=
  externals (probeOf 1920 1080) FfmpegSucceeds true.

Definition mp4Upload : Request := uploadBy "alice" ("video/mp4", None).

(** [ffmpeg] exits with status 1. *)
Definition transcodeFails : Externals :=
  externals (probeOf 1920 1080)
    (FfmpegFails "exit status 1" "moov atom not found" false) true.

(** [PutObject] returns an error. *)
Definition publishFails : Externals :=
  externals (probeOf 1920 1080) FfmpegSucceeds false.

(** The file [os.CreateTemp] makes in the examples, the key [getFilename]
    makes from [entropy32], and the record location of a landscape upload. *)
Definition stagedName : string := "/tmp/tubely-upload.mp42858167534".

Definition randomName : string :=
  "AAECAwQFBgcICQoLDA0OD_Dx8vP09fb3-Pn6-_z9_v8".

Definition landscapeLocation : string :=
  "tubely-private,landscape/" +:+ randomName +:+ ".mp4".

(** ** Further notions, for the properties beyond the upload pipeline *)

(** How often the byte [c] occurs in [s]. *)
Fixpoint countByte (c : ascii) (s : string) : nat :=
  match s with
  | EmptyString => O
  | String c' rest =>
      ((if Ascii.eqb c' c then 1 else 0) + countByte c rest)%nat
  end.

(** [strings.Join(pieces, sep)] for a one-byte separator. *)
Fixpoint strings_Join (pieces : list string) (sep : ascii) : string :=
  match pieces with
  | [] => EmptyString
  | [piece] => piece
  | piece :: rest => piece +:+ String sep (strings_Join rest sep)
  end.

(** The probe gives no stream to classify. *)
Definition probeFails (probe : ProbeOutcome) : bool :=
  match probe with
  | ProbeReports {| Streams := _ :: _ |} => false
  | _ => true
  end.

(** The responses written during a run, in order. *)
Fixpoint responsesOf (events : list Event) : list Event :=
  match events with
  | [] => []
  | RespondWithError code msg :: rest =>
      RespondWithError code msg :: responsesOf rest
  | RespondWithJSON code payload :: rest =>
      RespondWithJSON code payload :: responsesOf rest
  | _ :: rest => responsesOf rest
  end.

(** The commands run during a run, in order. *)
Fixpoint commandsOf (events : list Event) : list string :=
  match events with
  | [] => []
  | Exec command _ :: rest => command :: commandsOf rest
  | _ :: rest => commandsOf rest
  end.

(** The calls a video upload can make: everything but a JSON response and
    [os.Create]. *)
Definition videoEvent (e : Event) : bool :=
  match e with
  | RespondWithJSON _ _ | OSCreate _ => false
  | _ => true
  end.

(** The calls a thumbnail upload can make: responses, the reading of the
    form and of its part, the metadata store, [os.Create] and [io.Copy].
    The object store, external tools, [os.CreateTemp], [os.Open], [Seek]
    and [os.Remove] are not among them; what the form reader does to store
    and open the part is inside its two calls. *)
Definition thumbnailEvent (e : Event) : bool :=
  match e with
  | RespondWithError _ _ | RespondWithJSON _ _ | ParseMultipartForm _
  | FormFile _ | DBGetVideo _ | DBUpdateVideo _ | OSCreate _ | IOCopy _ =>
      true
  | _ => false
  end.

(** ** Further requests and collaborators, for the examples *)

(** A request without bearer token. *)
Definition tokenless : Request :=
  {| reqVideoID := Some (ID draftVideo);
     reqToken := None;
     reqUserID := None;
     reqFormParses := true;
     reqFormSpill := fun _ => ∅;
     reqFormFile := Some ("image/png", None) |}.

(** A request of [alice] for a video the store does not know. *)
Definition unknownVideo : Request :=
  {| reqVideoID := Some "00000000-0000-4000-8000-00000000beef";
     reqToken := Some "eyJhbGciOiJIUzI1NiJ9";
     reqUserID := Some "alice";
     reqFormParses := true;
     reqFormSpill := fun _ => ∅;
     reqFormFile := Some ("image/png", None) |}.

(** A png of 20 MiB sent by [mallory] for the draft of [alice]: a form
    reader that keeps less than 20 MiB in memory stores the part in a
    temporary file. *)
Definition largeThumbnail : Request :=
  {| reqVideoID := Some (ID draftVideo);
     reqToken := Some "eyJhbGciOiJIUzI1NiJ9";
     reqUserID := Some "mallory";
     reqFormParses := true;
     reqFormSpill := fun maxMemory =>
       if maxMemory <? Z.shiftl 20 20 then {["/tmp/multipart-1592653589"]}
       else ∅;
     reqFormFile := Some ("image/png", None) |}.

(** A request of [mallory] for the draft of [alice] whose body is not a
    multipart form. *)
Definition brokenForm : Request :=
  {| reqVideoID := Some (ID draftVideo);
     reqToken := Some "eyJhbGciOiJIUzI1NiJ9";
     reqUserID := Some "mallory";
     reqFormParses := false;
     reqFormSpill := fun _ => ∅;
     reqFormFile := None |}.

(** Collaborators whose entropy source has only 16 bytes left. *)
Definition drained : Externals :=
  {| xTempSuffix := Some "2858167534";
     xCopyOK := true;
     xSeekOK := true;
     xEntropy := take 16 entropy32;
     xProbe := probeOf 1920 1080;
     xUpdateOK := true;
     xPresign := presignFake;
     xFfmpeg := FfmpegSucceeds;
     xOpenOK := true;
     xPutOK := true;
     xCreateOK := true |}.

(** The paths passed to [os.Remove] during a run, in order. *)
Fixpoint removalsOf (events : list Event) : list string :=
  match events with
  | [] => []
  | OSRemove name :: rest => name :: removalsOf rest
  | _ :: rest => removalsOf rest
  end.

(** Collaborators under which the processed copy cannot be opened. *)
Definition openFails : Externals :=
  {| xTempSuffix := Some "2858167534";
     xCopyOK := true;
     xSeekOK := true;
     xEntropy := entropy32;
     xProbe := probeOf 1920 1080;
     xUpdateOK := true;
     xPresign := presignFake;
     xFfmpeg := FfmpegSucceeds;
     xOpenOK := false;
     xPutOK := true;
     xCreateOK := true |}.

(** Collaborators under which [os.CreateTemp] fails. *)
Definition noTempFile : Externals :=
  {| xTempSuffix := None;
     xCopyOK := true;
     xSeekOK := true;
     xEntropy := entropy32;
     xProbe := probeOf 1920 1080;
     xUpdateOK := true;
     xPresign := presignFake;
     xFfmpeg := FfmpegSucceeds;
     xOpenOK := true;
     xPutOK := true;
     xCreateOK := true |}.

(** * Properties *)

(** ** Strings *)

Section StringFacts.

Lemma length_append (a b : string) :
  String.length (a +:+ b) = (String.length a + String.length b)%nat.
Proof. induction a as [|c a IH]; simpl; [reflexivity | now rewrite IH]. Qed.

Lemma containsByte_append (c : ascii) (a b : string) :
  containsByte c (a +:+ b) = containsByte c a || containsByte c b.
Proof.
  induction a as [|c' a IH]; simpl; [reflexivity |].
  now rewrite IH, orb_assoc.
Qed.

Lemma strings_Split_nonempty (s : string) (sep : ascii) :
  strings_Split s sep <> [].
Proof.
  destruct s as [|c s]; simpl; [discriminate |].
  destruct (Ascii.eqb c sep); [discriminate |].
  destruct (strings_Split s sep); discriminate.
Qed.

(** A string without the separator is its own single piece. *)
Lemma strings_Split_absent (s : string) (sep : ascii) :
  containsByte sep s = false -> strings_Split s sep = [s].
Proof.
  induction s as [|c s IH]; simpl; [reflexivity |].
  intros H. apply orb_false_iff in H as [Hc Hs].
  rewrite Hc, (IH Hs). reflexivity.
Qed.

(** The first piece ends at the first separator. *)
Lemma strings_Split_first (a b : string) (sep : ascii) :
  containsByte sep a = false ->
  strings_Split (a +:+ String sep b) sep = a :: strings_Split b sep.
Proof.
  induction a as [|c a IH]; simpl.
  - intros _. now rewrite Ascii.eqb_refl.
  - intros H. apply orb_false_iff in H as [Hc Ha].
    rewrite Hc, (IH Ha). reflexivity.
Qed.

Lemma strings_Split_pair (a b : string) (sep : ascii) :
  containsByte sep a = false -> containsByte sep b = false ->
  strings_Split (a +:+ String sep b) sep = [a; b].
Proof.
  intros Ha Hb.
  now rewrite (strings_Split_first _ _ _ Ha), (strings_Split_absent _ _ Hb).
Qed.

End StringFacts.

(** ** base64 *)

Section Base64Facts.

(** Induction over a byte list three bytes at a time, as the encoder
    reads it. *)
Lemma list_ind3 {A : Type} (P : list A -> Prop) :
  P [] -> (forall a, P [a]) -> (forall a b, P [a; b]) ->
  (forall a b c l, P l -> P (a :: b :: c :: l)) ->
  forall l, P l.
Proof.
  intros H0 H1 H2 H3 l.
  assert (H : P l /\ (forall a, P (a :: l)) /\ (forall a b, P (a :: b :: l))).
  { induction l as [|x l (IHa & IHb & IHc)]; [auto |].
    repeat split; auto. }
  exact (proj1 H).
Qed.

Lemma base64_length (src : list byte) :
  String.length (base64_RawURLEncoding_EncodeToString src)
  = ((4 * length src + 2) / 3)%nat.
Proof.
  induction src as [| a | a b | a b c l IH] using list_ind3;
    try reflexivity.
  cbn [base64_RawURLEncoding_EncodeToString String.length length].
  rewrite IH.
  replace (4 * S (S (S (length l))) + 2)%nat
    with ((4 * length l + 2) + 4 * 3)%nat by lia.
  rewrite Nat.div_add by discriminate. lia.
Qed.

(** 32 bytes encode to 43 characters. *)
Lemma base64_length_32 (src : list byte) :
  length src = 32%nat ->
  String.length (base64_RawURLEncoding_EncodeToString src) = 43%nat.
Proof. intros H. rewrite base64_length, H. reflexivity. Qed.

Lemma get_In (s : string) (n : nat) (c : ascii) :
  String.get n s = Some c -> In c (list_ascii_of_string s).
Proof.
  revert n; induction s as [|c' s IH]; intros n; simpl; [discriminate |].
  destruct n as [|n]; [intros [= ->]; now left | intros H; right; eauto].
Qed.

Lemma encodeURL_at_alphabet (i : Z) :
  In (encodeURL_at i) (list_ascii_of_string encodeURL).
Proof.
  unfold encodeURL_at.
  destruct (String.get (Z.to_nat i) encodeURL) as [c|] eqn:E.
  - exact (get_In _ _ _ E).
  - now left.
Qed.

(** No character of the alphabet is a comma or a slash. *)
Lemma encodeURL_at_plain (i : Z) :
  encodeURL_at i <> ","%char /\ encodeURL_at i <> "/"%char.
Proof.
  pose proof (encodeURL_at_alphabet i) as H.
  revert H. generalize (encodeURL_at i). intros c H.
  apply (proj1 (List.Forall_forall
                  (fun c => c <> ","%char /\ c <> "/"%char)
                  (list_ascii_of_string encodeURL))); [| exact H].
  repeat constructor; discriminate.
Qed.

Lemma base64_no_comma (src : list byte) :
  containsByte "," (base64_RawURLEncoding_EncodeToString src) = false.
Proof.
  induction src as [| a | a b | a b c l IH] using list_ind3;
    cbn [base64_RawURLEncoding_EncodeToString containsByte];
    rewrite ?IH;
    repeat match goal with
      | |- context [Ascii.eqb (encodeURL_at ?i) ","%char] =>
          rewrite (proj2 (Ascii.eqb_neq _ _) (proj1 (encodeURL_at_plain i)))
      end; reflexivity.
Qed.

End Base64Facts.

(** ** helpers.go: getFilename *)

Section GetFilename.

Lemma rand_Read_enough (entropy : list byte) :
  (32 <= length entropy)%nat ->
  rand_Read 32 entropy = (take 32 entropy, None)
  /\ length (take 32 entropy) = 32%nat.
Proof.
  intros H. unfold rand_Read.
  destruct (Nat.ltb_spec (length entropy) 32) as [Hlt | _]; [lia |].
  split; [reflexivity |]. rewrite length_take. lia.
Qed.

Lemma rand_Read_short (entropy : list byte) :
  (length entropy < 32)%nat ->
  exists e, rand_Read 32 entropy = (repeat x00 32, Some e).
Proof.
  intros H. unfold rand_Read.
  destruct (Nat.ltb_spec (length entropy) 32) as [_ | Hge]; [| lia].
  eexists; reflexivity.
Qed.

Lemma split_mediaType (type subtype : string) :
  containsByte "/" type = false -> containsByte "/" subtype = false ->
  strings_Split (type +:+ "/" +:+ subtype) "/" !! 1%nat = Some subtype.
Proof.
  intros Ht Hs. change ("/" +:+ subtype) with (String "/" subtype).
  now rewrite (strings_Split_pair _ _ _ Ht Hs).
Qed.

(** A media type without ["/"] has a single piece, so indexing the second
    piece panics, whatever the entropy source does. *)
Lemma getFilename_without_slash (mediaType : string) (entropy : list byte) :
  containsByte "/" mediaType = false ->
  getFilename mediaType entropy
  = Panics "runtime error: index out of range [1] with length 1".
Proof.
  intros H. unfold getFilename.
  now rewrite (strings_Split_absent _ _ H).
Qed.

(** C6: for a media type [type/subtype], [getFilename] returns the
    unpadded URL-safe base64 text of the 32 bytes read from the entropy
    source, then ["."], then the subtype; that key has the length of the
    encoded 32 bytes (43) plus 1 plus the length of the subtype; and the
    call fails exactly when reading the 32 random bytes fails (it never
    panics on such a media type). *)
Theorem getFilename_key (type subtype : string) (entropy : list byte) :
  containsByte "/" type = false ->
  containsByte "/" subtype = false ->
  let mediaType := type +:+ "/" +:+ subtype in
  let random := take 32 entropy in
  let encoded := base64_RawURLEncoding_EncodeToString random in
  ((32 <= length entropy)%nat ->
     length random = 32%nat
     /\ getFilename mediaType entropy
        = Returns (encoded +:+ "." +:+ subtype, None)
     /\ String.length encoded = 43%nat
     /\ String.length (encoded +:+ "." +:+ subtype)
        = (43 + 1 + String.length subtype)%nat)
  /\ ((length entropy < 32)%nat ->
        exists e, snd (rand_Read 32 entropy) = Some e
                  /\ getFilename mediaType entropy = Returns ("", Some e))
  /\ (forall key e,
        getFilename mediaType entropy = Returns (key, Some e) ->
        snd (rand_Read 32 entropy) = Some e)
  /\ (forall msg, getFilename mediaType entropy <> Panics msg).
Proof.
  intros Ht Hs mediaType random encoded.
  pose proof (split_mediaType type subtype Ht Hs) as Hsplit.
  subst mediaType random encoded.
  repeat split.
  - now apply rand_Read_enough.
  - unfold getFilename. rewrite Hsplit.
    now rewrite (proj1 (rand_Read_enough entropy H)).
  - apply base64_length_32. now apply rand_Read_enough.
  - rewrite !length_append.
    rewrite (base64_length_32 (take 32 entropy))
      by now apply rand_Read_enough.
    simpl. lia.
  - intros Hshort. destruct (rand_Read_short entropy Hshort) as [e He].
    exists e. unfold getFilename. rewrite Hsplit, He. now split.
  - intros key e. unfold getFilename. rewrite Hsplit.
    destruct (rand_Read 32 entropy) as [b [e'|]]; simpl; congruence.
  - intros msg. unfold getFilename. rewrite Hsplit.
    destruct (rand_Read 32 entropy) as [b [e'|]]; simpl; congruence.
Qed.

Lemma getFilename_key_witness :
  getFilename "video/mp4" entropy32
  = Returns ("AAECAwQFBgcICQoLDA0OD_Dx8vP09fb3-Pn6-_z9_v8.mp4", None).
Proof.
  pose proof (getFilename_key "video" "mp4" entropy32 eq_refl eq_refl) as H.
  destruct H as [H _].
  destruct (H ltac:(vm_compute; lia)) as (_ & Hkey & _).
  exact Hkey.
Defined.

End GetFilename.

(** ** helpers.go: dbVideoToSignedVideo *)

Section SignedVideo.

Lemma prefix_no_comma (aspectRatio : string) :
  In aspectRatio ["16:9"; "9:16"; "other"] ->
  containsByte "," (default "" (prefixes !! aspectRatio)) = false.
Proof.
  intros [<- | [<- | [<- | []]]]; vm_compute; reflexivity.
Qed.

(** C10: when neither the bucket nor the key holds a comma, splitting
    [bucket + "," + key] at [","] gives back exactly [bucket; key], so
    [dbVideoToSignedVideo] accepts the record and signs that bucket and
    that key for one hour, returning the record with the signed URL, or
    the signer's error; the keys the video pipeline builds (a prefix of
    the three, ["/"], base64url text, ["."], a comma-free subtype) hold
    no comma; and a record without video location is returned unchanged
    and without error. *)
Theorem location_round_trip (x : Externals) (video : Video)
  (bucket key : string) :
  containsByte "," bucket = false ->
  containsByte "," key = false ->
  strings_Split (bucket +:+ "," +:+ key) "," = [bucket; key]
  /\ dbVideoToSignedVideo x (setVideoURL video (Some (bucket +:+ "," +:+ key)))
     = (if isErr (snd (xPresign x bucket key time_Hour))
        then (zeroVideo, snd (xPresign x bucket key time_Hour))
        else (setVideoURL video (Some (fst (xPresign x bucket key time_Hour))),
              None))
  /\ (forall aspectRatio random subtype,
        In aspectRatio ["16:9"; "9:16"; "other"] ->
        containsByte "," subtype = false ->
        containsByte ","
          (default "" (prefixes !! aspectRatio) +:+ "/"
           +:+ (base64_RawURLEncoding_EncodeToString random
                +:+ "." +:+ subtype)) = false)
  /\ (VideoURL video = None -> dbVideoToSignedVideo x video = (video, None)).
Proof.
  intros Hb Hk.
  assert (Hsplit : strings_Split (bucket +:+ "," +:+ key) "," = [bucket; key]).
  { change ("," +:+ key) with (String "," key).
    now apply strings_Split_pair. }
  repeat split.
  - exact Hsplit.
  - unfold dbVideoToSignedVideo, generatePresignedURL.
    cbn [VideoURL setVideoURL]. rewrite Hsplit.
    destruct (xPresign x bucket key time_Hour) as [url [e|]]; reflexivity.
  - intros aspectRatio random subtype Ha Hs.
    rewrite !containsByte_append, (prefix_no_comma _ Ha), base64_no_comma, Hs.
    reflexivity.
  - intros Hnil. unfold dbVideoToSignedVideo. now rewrite Hnil.
Qed.

Lemma location_round_trip_witness :
  dbVideoToSignedVideo allGood
    (setVideoURL draftVideo
       (Some ("tubely-private" +:+ "," +:+ "landscape/AAEC.mp4")))
  = (setVideoURL draftVideo
       (Some "https://tubely-private.s3.amazonaws.com/landscape/AAEC.mp4?X-Amz-Expires=3600"),
     None).
Proof.
  exact (proj1 (proj2 (location_round_trip allGood draftVideo
                         "tubely-private" "landscape/AAEC.mp4"
                         eq_refl eq_refl))).
Defined.

End SignedVideo.

(** ** helpers.go: processVideoForFastStart *)

Section FastStart.

(** C8: [processVideoForFastStart] runs [ffmpeg] with the input path and,
    as output, exactly [filePath + ".processed"], and touches no other
    file; when the process succeeds it returns that path, which then
    exists; when running the process fails it returns the empty path with
    an error whose text ends with what the process wrote to standard
    error. *)
Theorem processVideoForFastStart_paths (filePath : string) (x : Externals)
  (w : World) :
  let outputPath := filePath +:+ ".processed" in
  let ret := fst (processVideoForFastStart filePath x w) in
  let w' := snd (processVideoForFastStart filePath x w) in
  trace w' = (trace w ++ [Exec "ffmpeg" (ffmpegArgs filePath outputPath)])%list
  /\ last (ffmpegArgs filePath outputPath) = Some outputPath
  /\ files w ⊆ files w' /\ files w' ⊆ files w ∪ {[outputPath]}
  /\ (xFfmpeg x = FfmpegSucceeds ->
        ret = (outputPath, None) /\ outputPath ∈ files w')
  /\ (forall err stderr leavesOutput,
        xFfmpeg x = FfmpegFails err stderr leavesOutput ->
        ret = ("", Some ("ffmpeg error: " +:+ err +:+ ", stderr: " +:+ stderr))).
Proof.
  unfold processVideoForFastStart. cbv zeta.
  destruct (xFfmpeg x) as [| err stderr [|]]; cbn [fst snd trace files emit setFiles];
    repeat split; try reflexivity; try congruence; try set_solver.
Qed.

Lemma processVideoForFastStart_paths_witness :
  fst (processVideoForFastStart "/tmp/tubely-upload.mp42858167534"
         (externals (probeOf 1920 1080)
            (FfmpegFails "exit status 1" "moov atom not found" false) true)
         world0)
  = ("", Some "ffmpeg error: exit status 1, stderr: moov atom not found")
  /\ fst (processVideoForFastStart "/tmp/tubely-upload.mp42858167534"
            allGood world0)
     = ("/tmp/tubely-upload.mp42858167534.processed", None).
Proof.
  split.
  - exact (proj2 (proj2 (proj2 (proj2 (proj2
      (processVideoForFastStart_paths "/tmp/tubely-upload.mp42858167534"
         (externals (probeOf 1920 1080)
            (FfmpegFails "exit status 1" "moov atom not found" false) true)
         world0))))) _ _ _ eq_refl).
  - exact (proj1 (proj1 (proj2 (proj2 (proj2 (proj2
      (processVideoForFastStart_paths "/tmp/tubely-upload.mp42858167534"
         allGood world0))))) eq_refl)).
Defined.

End FastStart.

(** ** Checks by evaluation *)

Section Evaluation.

Lemma forallZ_spec (check : Z -> bool) (n : nat) :
  forall lo, forallZ lo n check = true ->
  forall k, lo <= k < lo + Z.of_nat n -> check k = true.
Proof.
  induction n as [|n IH]; intros lo H k Hk; [lia |].
  cbn [forallZ] in H. apply andb_true_iff in H as [Hlo Hrest].
  destruct (Z.eq_dec k lo) as [-> | Hne]; [exact Hlo |].
  apply (IH (lo + 1) Hrest). lia.
Qed.

End Evaluation.

(** ** helpers.go: aspectRatioOf on a zero dimension *)

Section ZeroDimension.

Lemma aspectRatioOf_zero_height (width : float) :
  aspectRatioOf width 0 = "other".
Proof.
  unfold aspectRatioOf.
  assert (H : forall c : float,
             Prim2SF c = Prim2SF (16 / 9)%float
             \/ Prim2SF c = Prim2SF (9 / 16)%float ->
             (PrimFloat.abs (width / 0 - c) <? 1 / 10)%float = false).
  { intros c Hc.
    rewrite FloatAxioms.ltb_spec, FloatAxioms.abs_spec, FloatAxioms.sub_spec,
      FloatAxioms.div_spec.
    change (Prim2SF 0) with (S754_zero false).
    destruct Hc as [-> | ->];
      destruct (Prim2SF width) as [s | s | | s m e]; try destruct s;
      vm_compute; reflexivity. }
  rewrite (H (16 / 9)%float) by (left; reflexivity).
  rewrite (H (9 / 16)%float) by (right; reflexivity).
  reflexivity.
Qed.

Lemma aspectRatioOf_zero_width (height : float) :
  aspectRatioOf 0 height = "other".
Proof.
  unfold aspectRatioOf.
  assert (H : forall c : float,
             Prim2SF c = Prim2SF (16 / 9)%float
             \/ Prim2SF c = Prim2SF (9 / 16)%float ->
             (PrimFloat.abs (0 / height - c) <? 1 / 10)%float = false).
  { intros c Hc.
    rewrite FloatAxioms.ltb_spec, FloatAxioms.abs_spec, FloatAxioms.sub_spec,
      FloatAxioms.div_spec.
    change (Prim2SF 0) with (S754_zero false).
    destruct Hc as [-> | ->];
      destruct (Prim2SF height) as [s | s | | s m e]; try destruct s;
      vm_compute; reflexivity. }
  rewrite (H (16 / 9)%float) by (left; reflexivity).
  rewrite (H (9 / 16)%float) by (right; reflexivity).
  reflexivity.
Qed.

End ZeroDimension.

(** ** Aspect ratio: the binary64 arithmetic of [aspectRatioOf]

    [aspectRatioOf] divides, subtracts and compares in binary64.  The
    lemmas below bound the rounding error of each operation from the
    definitions of the operations ([SFdiv], [SFsub], [SFltb] and the
    rounding they share), and conclude that the class computed in
    binary64 is the class of the exact rule whenever the exact ratio is
    not on a threshold. *)

(** *** The number of binary digits of a mantissa *)

Section Digits.

Lemma digits2_pos_bounds (p : positive) :
  2 ^ (Zpos (digits2_pos p) - 1) <= Zpos p < 2 ^ Zpos (digits2_pos p).
Proof.
  induction p as [p IH | p IH |]; cbn [digits2_pos].
  - rewrite Pos2Z.inj_succ, (Pos2Z.inj_xI p).
    replace (Z.succ (Zpos (digits2_pos p)) - 1)
      with (Z.succ (Zpos (digits2_pos p) - 1)) by lia.
    rewrite !Z.pow_succ_r by lia.
    destruct IH as [IHlo IHhi]. revert IHlo IHhi.
    generalize (2 ^ (Zpos (digits2_pos p) - 1)) (2 ^ Zpos (digits2_pos p)).
    intros; lia.
  - rewrite Pos2Z.inj_succ, (Pos2Z.inj_xO p).
    replace (Z.succ (Zpos (digits2_pos p)) - 1)
      with (Z.succ (Zpos (digits2_pos p) - 1)) by lia.
    rewrite !Z.pow_succ_r by lia.
    destruct IH as [IHlo IHhi]. revert IHlo IHhi.
    generalize (2 ^ (Zpos (digits2_pos p) - 1)) (2 ^ Zpos (digits2_pos p)).
    intros; lia.
  - cbn. lia.
Qed.

Lemma digits2_pos_unique (p : positive) (k : Z) :
  2 ^ (k - 1) <= Zpos p < 2 ^ k -> Zpos (digits2_pos p) = k.
Proof.
  intros [Hlo Hhi]. pose proof (digits2_pos_bounds p) as [Dlo Dhi].
  destruct (Z.lt_trichotomy (Zpos (digits2_pos p)) k) as [Hlt | [Heq | Hgt]];
    [| exact Heq |].
  - assert (2 ^ Zpos (digits2_pos p) <= 2 ^ (k - 1))
      by (apply Z.pow_le_mono_r; lia). lia.
  - assert (0 <= k).
    { destruct (Z.le_gt_cases 0 k); [assumption |].
      rewrite (Z.pow_neg_r 2 k) in Hhi by lia. lia. }
    assert (2 ^ k <= 2 ^ (Zpos (digits2_pos p) - 1))
      by (apply Z.pow_le_mono_r; lia). lia.
Qed.

End Digits.

(** *** Shifting a mantissa right keeps track of what is lost *)

Section Shifting.

Lemma shr_1_inv (P Q M m0 : Z) (mrs : shr_record) :
  0 < P -> 0 < Q -> shrInv P Q M m0 mrs ->
  shrInv (2 * P) (2 * Q) M m0 (shr_1 mrs).
Proof.
  intros HP HQ (Hm & (rem & HM & Hrem & Hloc) & Hlo & Hhi).
  destruct mrs as [m r s]. cbn [shr_m shr_r shr_s] in *.
  unfold shrInv, located.
  destruct m as [|[p|p|]|p]; cbn [shr_1 shr_m shr_r shr_s]; try lia.
  - split; [lia |]. split; [| lia].
    exists rem. destruct r, s; cbn; lia.
  - rewrite (Pos2Z.inj_xI p) in *. split; [lia |]. split; [| nia].
    exists (rem + P). destruct r, s; cbn; nia.
  - rewrite (Pos2Z.inj_xO p) in *. split; [lia |]. split; [| nia].
    exists rem. destruct r, s; cbn; nia.
  - split; [lia |]. split; [| nia].
    exists (rem + P). destruct r, s; cbn; nia.
Qed.

Lemma iter_pos_shr_1_inv (n : positive) :
  forall (P Q M m0 : Z) (mrs : shr_record),
    0 < P -> 0 < Q -> shrInv P Q M m0 mrs ->
    shrInv (P * 2 ^ Zpos n) (Q * 2 ^ Zpos n) M m0 (SpecFloat.iter_pos shr_1 n mrs).
Proof.
  induction n as [n IH | n IH |]; intros P Q M m0 mrs HP HQ H;
    cbn [SpecFloat.iter_pos].
  - assert (Hpow : 0 < 2 ^ Zpos n) by (apply Z.pow_pos_nonneg; lia).
    rewrite (Pos2Z.inj_xI n).
    replace (2 * Zpos n + 1) with (1 + Zpos n + Zpos n) by lia.
    rewrite !Z.pow_add_r by lia. change (2 ^ 1) with 2.
    replace (P * (2 * 2 ^ Zpos n * 2 ^ Zpos n))
      with (2 * P * 2 ^ Zpos n * 2 ^ Zpos n) by ring.
    replace (Q * (2 * 2 ^ Zpos n * 2 ^ Zpos n))
      with (2 * Q * 2 ^ Zpos n * 2 ^ Zpos n) by ring.
    apply IH; [nia | nia |]. apply IH; [lia | lia |].
    now apply shr_1_inv.
  - assert (Hpow : 0 < 2 ^ Zpos n) by (apply Z.pow_pos_nonneg; lia).
    rewrite (Pos2Z.inj_xO n).
    replace (2 * Zpos n) with (Zpos n + Zpos n) by lia.
    rewrite !Z.pow_add_r by lia.
    rewrite !Z.mul_assoc.
    apply IH; [nia | nia |]. now apply IH.
  - change (2 ^ 1) with 2. rewrite (Z.mul_comm P), (Z.mul_comm Q).
    now apply shr_1_inv.
Qed.

End Shifting.

(** *** Rounding a located quotient to 53 bits, to nearest even *)

Section Rounding.

Lemma located_of_loc_exact (m : Z) : located 1 m m false false.
Proof. exists 0. lia. Qed.

Lemma Zdigits2_bounds (m : Z) :
  0 < m -> 2 ^ (Zdigits2 m - 1) <= m < 2 ^ Zdigits2 m.
Proof.
  destruct m as [|p|p]; try lia. intros _. apply digits2_pos_bounds.
Qed.

Lemma Zdigits2_unique (m k : Z) :
  0 < m -> 2 ^ (k - 1) <= m < 2 ^ k -> Zdigits2 m = k.
Proof.
  destruct m as [|p|p]; try lia. intros _. apply digits2_pos_unique.
Qed.

Lemma shr_fexp_inv (P M mx ex : Z) (lx : location) :
  0 < P -> 0 < mx ->
  located P M mx (shr_r (shr_record_of_loc mx lx))
    (shr_s (shr_record_of_loc mx lx)) ->
  53 <= Zdigits2 mx -> -1074 <= Zdigits2 mx + ex - 53 ->
  let n := Zdigits2 mx - 53 in
  snd (shr_fexp prec emax mx ex lx) = ex + n
  /\ shrInv (P * 2 ^ n) (2 ^ n) M mx (fst (shr_fexp prec emax mx ex lx)).
Proof.
  intros HP Hmx Hloc Hd Hmin n.
  assert (Hstart : shrInv P 1 M mx (shr_record_of_loc mx lx)).
  { split; [destruct lx as [|[]]; cbn; lia |].
    split; [| destruct lx as [|[]]; cbn; lia].
    destruct lx as [|[]]; exact Hloc. }
  unfold shr_fexp, fexp, emin, shr.
  change (3 - emax - prec) with (-1074). change prec with 53.
  rewrite Z.max_l by lia.
  replace (Zdigits2 mx + ex - 53 - ex) with n by (subst n; lia).
  destruct n as [|p|p] eqn:Hn; cbn [fst snd].
  - rewrite Z.mul_1_r. split; [lia | exact Hstart].
  - split; [reflexivity |].
    replace (2 ^ Zpos p) with (1 * 2 ^ Zpos p) at 2 by lia.
    apply iter_pos_shr_1_inv; [lia | lia | exact Hstart].
  - lia.
Qed.

Lemma round_nearest_even_located (P M m : Z) (r s : bool) :
  0 < P -> located P M m r s ->
  let m1 := round_nearest_even m
              (loc_of_shr_record (Build_shr_record m r s)) in
  (m1 = m \/ m1 = m + 1) /\ 2 * Z.abs (m1 * P - M) <= P.
Proof.
  intros HP (rem & -> & Hrem & Hloc). cbv zeta.
  destruct r, s; cbn [loc_of_shr_record round_nearest_even];
    try destruct (Z.even m); split; auto; nia.
Qed.

Lemma shr_fexp_exact_53 (m e : Z) :
  2 ^ 52 <= m < 2 ^ 53 ->  -1074 <= e ->
  shr_fexp prec emax m e loc_Exact
  = (Build_shr_record m false false, e).
Proof.
  intros Hm He.
  assert (Hd : Zdigits2 m = 53) by (apply Zdigits2_unique; lia).
  unfold shr_fexp, fexp, emin, shr. rewrite Hd.
  change (3 - emax - prec) with (-1074). change prec with 53.
  rewrite Z.max_l by lia.
  replace (53 + e - 53 - e) with 0 by lia. reflexivity.
Qed.

Lemma shr_fexp_exact_carry (e : Z) :
  -1074 <= e ->
  shr_fexp prec emax (2 ^ 53) e loc_Exact
  = (Build_shr_record (2 ^ 52) false false, e + 1).
Proof.
  intros He. unfold shr_fexp, fexp, emin, shr.
  change (Zdigits2 (2 ^ 53)) with 54.
  change (3 - emax - prec) with (-1074). change prec with 53.
  rewrite Z.max_l by lia.
  replace (54 + e - 53 - e) with 1 by lia. reflexivity.
Qed.

Lemma binary_round_aux_spec (sx : bool) (P M mx ex : Z) (lx : location) :
  0 < P -> 0 < mx ->
  located P M mx (shr_r (shr_record_of_loc mx lx))
    (shr_s (shr_record_of_loc mx lx)) ->
  53 <= Zdigits2 mx -> -1074 <= Zdigits2 mx + ex - 53 ->
  Zdigits2 mx + ex <= 1023 ->
  exists (m' : positive) (k : Z),
    binary_round_aux prec emax sx mx ex lx = S754_finite sx m' (ex + k)
    /\ 0 <= k /\ 2 ^ 52 <= Zpos m' < 2 ^ 53
    /\ 2 * Z.abs (Zpos m' * (2 ^ k * P) - M) <= 2 ^ k * P.
Proof.
  intros HP Hmx Hloc Hd Hmin Hmax.
  pose proof (shr_fexp_inv P M mx ex lx HP Hmx Hloc Hd Hmin) as [He Hinv].
  cbv zeta in He, Hinv.
  pose proof (Zdigits2_bounds mx Hmx) as [Hlo Hhi].
  set (n := Zdigits2 mx - 53) in *.
  assert (Hn : 0 <= n) by (subst n; lia).
  assert (HQ : 0 < 2 ^ n) by (apply Z.pow_pos_nonneg; lia).
  replace (Zdigits2 mx - 1) with (52 + n) in Hlo by (subst n; lia).
  replace (Zdigits2 mx) with (53 + n) in Hhi by (subst n; lia).
  rewrite Z.pow_add_r in Hlo, Hhi by lia.
  unfold binary_round_aux.
  destruct (shr_fexp prec emax mx ex lx) as [mrs e1].
  cbn [fst snd] in He, Hinv. subst e1.
  destruct Hinv as (Hm0 & Hlocn & Hshift).
  destruct mrs as [m r s]. cbn [shr_m shr_r shr_s] in *.
  assert (Hm : 2 ^ 52 <= m < 2 ^ 53) by nia.
  pose proof (round_nearest_even_located (P * 2 ^ n) M m r s
                ltac:(nia) Hlocn) as [Hm1 Herr].
  cbv zeta in Hm1, Herr.
  set (m1 := round_nearest_even m
               (loc_of_shr_record (Build_shr_record m r s))) in *.
  destruct (Z.eq_dec m1 (2 ^ 53)) as [Hcarry | Hnocarry].
  - rewrite Hcarry, shr_fexp_exact_carry by lia. cbn [shr_m].
    change (2 ^ 52) with (Zpos (Pos.pow 2 52)).
    replace (ex + n + 1 <=? emax - prec) with true
      by (symmetry; apply Z.leb_le; change (emax - prec) with 971;
          subst n; lia).
    exists (Pos.pow 2 52), (n + 1).
    split; [f_equal; lia |]. split; [lia |]. split; [cbn; lia |].
    rewrite Hcarry in Herr.
    rewrite Z.pow_add_r by lia. change (2 ^ 1) with 2.
    change (Zpos (2 ^ 52)) with (2 ^ 52).
    replace (2 ^ 52 * (2 ^ n * 2 * P)) with (2 ^ 53 * (P * 2 ^ n))
      by (change (2 ^ 53) with (2 ^ 52 * 2); ring).
    nia.
  - assert (Hm1r : 2 ^ 52 <= m1 < 2 ^ 53) by lia.
    rewrite shr_fexp_exact_53 by lia. cbn [shr_m].
    destruct m1 as [|p1|p1] eqn:Hp1; try lia.
    replace (ex + n <=? emax - prec) with true
      by (symmetry; apply Z.leb_le; change (emax - prec) with 971;
          subst n; lia).
    exists p1, n.
    split; [reflexivity |]. split; [lia |]. split; [lia |].
    replace (2 ^ n * P) with (P * 2 ^ n) by ring. exact Herr.
Qed.

End Rounding.

(** *** The rounding error, over the reals *)

Section RoundingR.

Lemma powerRZ_2_pos (e : Z) : (0 < powerRZ 2 e)%R.
Proof. apply powerRZ_lt. lra. Qed.

Lemma IZR_pow2 (k : Z) : 0 <= k -> IZR (2 ^ k) = powerRZ 2 k.
Proof.
  intros Hk. destruct k as [|p|p]; [reflexivity | | lia].
  cbn [powerRZ]. rewrite pow_IZR. now rewrite positive_nat_Z.
Qed.

Lemma powerRZ_2_add (a b : Z) :
  powerRZ 2 (a + b) = (powerRZ 2 a * powerRZ 2 b)%R.
Proof. apply powerRZ_add. lra. Qed.

Lemma round_error_R (m' k P M ex : Z) :
  0 < P -> 0 <= k -> 2 ^ 52 <= m' ->
  2 * Z.abs (m' * (2 ^ k * P) - M) <= 2 ^ k * P ->
  (Rabs (IZR m' * powerRZ 2 (ex + k) - IZR M / IZR P * powerRZ 2 ex)
   <= / IZR (2 ^ 53) * (IZR m' * powerRZ 2 (ex + k)))%R.
Proof.
  intros HP Hk Hm Herr.
  pose proof (powerRZ_2_pos ex) as HA.
  pose proof (powerRZ_2_pos k) as HB.
  assert (Hp : (0 < IZR P)%R) by now apply IZR_lt.
  apply IZR_le in Herr. apply IZR_le in Hm.
  rewrite !mult_IZR, abs_IZR, minus_IZR, !mult_IZR, IZR_pow2 in Herr
    by lia.
  rewrite powerRZ_2_add.
  set (A := powerRZ 2 ex) in *. set (B := powerRZ 2 k) in *.
  set (p := IZR P) in *. set (m := IZR m') in *. set (x := IZR M) in *.
  replace (m * (A * B) - x / p * A)%R
    with (A / p * (m * (B * p) - x))%R by (field; lra).
  rewrite Rabs_mult, (Rabs_pos_eq (A / p))
    by (apply Rlt_le, Rdiv_lt_0_compat; lra).
  assert (HAp : (0 < A / p)%R) by (apply Rdiv_lt_0_compat; lra).
  apply Rle_trans with (A / p * (B * p / 2))%R.
  - apply Rmult_le_compat_l; lra.
  - replace (A / p * (B * p / 2))%R with (A * B / 2)%R by (field; lra).
    assert (HAB : (0 < A * B)%R) by (apply Rmult_lt_0_compat; lra).
    change (IZR (2 ^ 53)) with 9007199254740992%R.
    change (IZR (2 ^ 52)) with 4503599627370496%R in Hm.
    assert (4503599627370496 * (A * B) <= m * (A * B))%R
      by (apply Rmult_le_compat_r; lra).
    lra.
Qed.

End RoundingR.

(** *** Rounding an integer mantissa *)

Section BinaryRound.

Lemma binary_round_aux_exact (s : bool) (m : positive) (e : Z) :
  2 ^ 52 <= Zpos m < 2 ^ 53 -> -1074 <= e <= 971 ->
  binary_round_aux prec emax s (Zpos m) e loc_Exact = S754_finite s m e.
Proof.
  intros Hm He. unfold binary_round_aux.
  rewrite shr_fexp_exact_53 by lia.
  cbn [shr_m loc_of_shr_record round_nearest_even].
  rewrite shr_fexp_exact_53 by lia. cbn [shr_m].
  replace (e <=? emax - prec) with true
    by (symmetry; apply Z.leb_le; change (emax - prec) with 971; lia).
  reflexivity.
Qed.

Lemma shift_pos_value (mx d : positive) :
  Zpos (Pos.iter xO mx d) = Zpos mx * 2 ^ Zpos d.
Proof.
  change (Pos.iter xO mx d) with (shift_pos d mx).
  rewrite shift_pos_correct, Z.mul_comm. reflexivity.
Qed.

(** A mantissa of at most 53 bits is padded, not rounded. *)
Lemma binary_round_small (s : bool) (mx : positive) (ex : Z) :
  let d := Zpos (digits2_pos mx) in
  d <= 53 -> -1074 <= d + ex - 53 -> d + ex <= 1024 ->
  exists m' : positive,
    binary_round prec emax s mx ex = S754_finite s m' (d + ex - 53)
    /\ Zpos m' = Zpos mx * 2 ^ (53 - d).
Proof.
  intros d Hd Hmin Hmax.
  pose proof (digits2_pos_bounds mx) as [Hlo Hhi]. fold d in Hlo, Hhi.
  unfold binary_round, fexp, emin, shl_align. fold d.
  change (3 - emax - prec) with (-1074). change prec with 53.
  rewrite Z.max_l by lia.
  replace (d + ex - 53 - ex) with (d - 53) by lia.
  destruct (d - 53) as [|p|p] eqn:Hp; try lia.
  - exists mx. replace (53 - d) with 0 by lia. rewrite Z.mul_1_r.
    replace (d + ex - 53) with ex by lia.
    split; [| reflexivity].
    apply binary_round_aux_exact; [| lia].
    replace d with 53 in Hlo, Hhi by lia. cbn in Hlo. lia.
  - exists (Pos.iter xO mx p).
    assert (Hv : Zpos (Pos.iter xO mx p) = Zpos mx * 2 ^ (53 - d))
      by (rewrite shift_pos_value; f_equal; f_equal; lia).
    split; [| exact Hv].
    apply binary_round_aux_exact; [| lia].
    rewrite Hv.
    assert (H52 : 2 ^ 52 = 2 ^ (d - 1) * 2 ^ (53 - d))
      by (rewrite <- Z.pow_add_r by lia; f_equal; lia).
    assert (H53 : 2 ^ 53 = 2 ^ d * 2 ^ (53 - d))
      by (rewrite <- Z.pow_add_r by lia; f_equal; lia).
    assert (0 < 2 ^ (53 - d)) by (apply Z.pow_pos_nonneg; lia).
    rewrite H52, H53. nia.
Qed.

(** A longer mantissa is rounded to 53 bits, to the nearest. *)
Lemma binary_round_large (s : bool) (mx : positive) (ex : Z) :
  let d := Zpos (digits2_pos mx) in
  53 <= d -> -1074 <= d + ex - 53 -> d + ex <= 1023 ->
  exists (m' : positive) (k : Z),
    binary_round prec emax s mx ex = S754_finite s m' (ex + k)
    /\ 0 <= k /\ 2 ^ 52 <= Zpos m' < 2 ^ 53
    /\ 2 * Z.abs (Zpos m' * (2 ^ k * 1) - Zpos mx) <= 2 ^ k * 1.
Proof.
  intros d Hd Hmin Hmax.
  unfold binary_round, fexp, emin, shl_align. fold d.
  change (3 - emax - prec) with (-1074). change prec with 53.
  rewrite Z.max_l by lia.
  replace (d + ex - 53 - ex) with (d - 53) by lia.
  assert (Hsame : (let '(mz, ez) :=
                     match d - 53 with
                     | Z.neg p => (Pos.iter xO mx p, d + ex - 53)
                     | _ => (mx, ex)
                     end in
                   binary_round_aux 53 emax s (Zpos mz) ez loc_Exact)
                  = binary_round_aux 53 emax s (Zpos mx) ex loc_Exact).
  { destruct (d - 53) as [|p|p] eqn:Hp; try reflexivity. lia. }
  rewrite Hsame.
  apply (binary_round_aux_spec s 1 (Zpos mx) (Zpos mx) ex loc_Exact);
    try lia; try exact Hd.
  - apply located_of_loc_exact.
  - exact Hmin.
  - exact Hmax.
Qed.

Lemma binary_round_R (s : bool) (mx : positive) (ex : Z) :
  let d := Zpos (digits2_pos mx) in
  -1074 <= d + ex - 53 -> d + ex <= 1023 ->
  exists (m' : positive) (e' : Z),
    binary_round prec emax s mx ex = S754_finite s m' e'
    /\ 2 ^ 52 <= Zpos m' < 2 ^ 53
    /\ (Rabs (IZR (Zpos m') * powerRZ 2 e' - IZR (Zpos mx) * powerRZ 2 ex)
        <= / IZR (2 ^ 53) * (IZR (Zpos m') * powerRZ 2 e'))%R
    /\ (d <= 53 ->
        (IZR (Zpos m') * powerRZ 2 e' = IZR (Zpos mx) * powerRZ 2 ex)%R).
Proof.
  intros d Hmin Hmax.
  destruct (Z.le_gt_cases d 53) as [Hd | Hd].
  - destruct (binary_round_small s mx ex Hd Hmin ltac:(lia))
      as (m' & Hround & Hv).
    fold d in Hround, Hv.
    pose proof (digits2_pos_bounds mx) as [Hlo Hhi]. fold d in Hlo, Hhi.
    assert (Hm : 2 ^ 52 <= Zpos m' < 2 ^ 53).
    { rewrite Hv.
      assert (H52 : 2 ^ 52 = 2 ^ (d - 1) * 2 ^ (53 - d))
        by (rewrite <- Z.pow_add_r by lia; f_equal; lia).
      assert (H53 : 2 ^ 53 = 2 ^ d * 2 ^ (53 - d))
        by (rewrite <- Z.pow_add_r by lia; f_equal; lia).
      assert (0 < 2 ^ (53 - d)) by (apply Z.pow_pos_nonneg; lia).
      rewrite H52, H53. nia. }
    assert (Heq : (IZR (Zpos m') * powerRZ 2 (d + ex - 53)
                   = IZR (Zpos mx) * powerRZ 2 ex)%R).
    { rewrite Hv, mult_IZR, IZR_pow2 by lia.
      rewrite Rmult_assoc, <- powerRZ_2_add. f_equal. f_equal. lia. }
    exists m', (d + ex - 53).
    split; [exact Hround |]. split; [exact Hm |]. split; [| now intros _].
    rewrite Heq, Rminus_diag, Rabs_R0.
    apply Rmult_le_pos.
    + apply Rlt_le, Rinv_0_lt_compat. now apply IZR_lt.
    + apply Rmult_le_pos; [apply IZR_le; lia |].
      apply Rlt_le, powerRZ_2_pos.
  - destruct (binary_round_large s mx ex ltac:(fold d; lia) Hmin Hmax)
      as (m' & k & Hround & Hk & Hm & Herr).
    exists m', (ex + k).
    split; [exact Hround |]. split; [exact Hm |]. split; [| intros; lia].
    pose proof (round_error_R (Zpos m') k 1 (Zpos mx) ex ltac:(lia) Hk
                  ltac:(lia) Herr) as H.
    replace (IZR (Zpos mx) / IZR 1)%R with (IZR (Zpos mx)) in H
      by (field; lra).
    exact H.
Qed.

End BinaryRound.

(** *** Division *)

Section Operations.

Lemma new_location_located (P q r : Z) :
  0 < P -> 0 <= r < P ->
  located P (q * P + r) q
    (shr_r (shr_record_of_loc q (new_location P r)))
    (shr_s (shr_record_of_loc q (new_location P r))).
Proof.
  intros HP Hr. exists r. split; [reflexivity |]. split; [exact Hr |].
  unfold new_location, new_location_even, new_location_odd.
  destruct (Z.even P) eqn:Heven.
  - destruct (Z.eqb_spec r 0) as [-> | Hne]; [reflexivity |].
    destruct (Z.compare_spec (2 * r) P); cbn; lia.
  - destruct (Z.eqb_spec r 0) as [-> | Hne]; [reflexivity |].
    assert (Hodd : Z.odd P = true)
      by (rewrite <- Z.negb_even, Heven; reflexivity).
    apply Z.odd_spec in Hodd as [c Hc].
    destruct (Z.compare_spec (2 * r + 1) P); cbn; lia.
Qed.

Lemma SFdiv_R (sa sb : bool) (ma mb : positive) (ea eb : Z) :
  2 ^ 52 <= Zpos ma < 2 ^ 53 -> 2 ^ 52 <= Zpos mb < 2 ^ 53 ->
  -200 <= ea <= 200 -> -200 <= eb <= 200 ->
  exists (m' : positive) (e' : Z),
    SFdiv prec emax (S754_finite sa ma ea) (S754_finite sb mb eb)
    = S754_finite (xorb sa sb) m' e'
    /\ 2 ^ 52 <= Zpos m' < 2 ^ 53
    /\ ea - eb - 53 <= e' <= ea - eb - 51
    /\ (Rabs (IZR (Zpos m') * powerRZ 2 e'
              - (IZR (Zpos ma) * powerRZ 2 ea)
                / (IZR (Zpos mb) * powerRZ 2 eb))
        <= / IZR (2 ^ 53) * (IZR (Zpos m') * powerRZ 2 e'))%R.
Proof.
  intros Hma Hmb Hea Heb.
  unfold SFdiv, SFdiv_core_binary.
  rewrite (Zdigits2_unique (Zpos ma) 53), (Zdigits2_unique (Zpos mb) 53)
    by lia.
  unfold fexp, emin. change (3 - emax - prec) with (-1074).
  change prec with 53.
  replace (53 + ea - (53 + eb)) with (ea - eb) by lia.
  rewrite Z.max_l by lia. rewrite Z.min_l by lia.
  replace (ea - eb - (ea - eb - 53)) with 53 by lia.
  rewrite Z.shiftl_mul_pow2 by lia.
  pose proof (Z_div_mod (Zpos ma * 2 ^ 53) (Zpos mb) ltac:(lia)) as Hdiv.
  destruct (Z.div_eucl (Zpos ma * 2 ^ 53) (Zpos mb)) as [q r].
  destruct Hdiv as [Hqr Hr].
  assert (Hq : 2 ^ 52 <= q < 2 ^ 54) by nia.
  assert (Hdq : 53 <= Zdigits2 q <= 54).
  { pose proof (Zdigits2_bounds q ltac:(lia)) as [Hlo Hhi].
    split.
    - destruct (Z.le_gt_cases 53 (Zdigits2 q)); [assumption |].
      assert (2 ^ Zdigits2 q <= 2 ^ 52) by (apply Z.pow_le_mono_r; lia).
      lia.
    - destruct (Z.le_gt_cases (Zdigits2 q) 54); [assumption |].
      assert (2 ^ 54 <= 2 ^ (Zdigits2 q - 1))
        by (apply Z.pow_le_mono_r; lia).
      lia. }
  destruct (binary_round_aux_spec (xorb sa sb) (Zpos mb)
              (Zpos ma * 2 ^ 53) q (ea - eb - 53)
              (new_location (Zpos mb) r))
    as (m' & k & Hround & Hk & Hm' & Herr); try lia.
  { rewrite Hqr, (Z.mul_comm (Zpos mb) q).
    apply new_location_located; lia. }
  assert (Hk2 : k <= 2).
  { destruct (Z.le_gt_cases k 2) as [|Hgt]; [assumption | exfalso].
    assert (H3 : 2 ^ 3 <= 2 ^ k) by (apply Z.pow_le_mono_r; lia).
    change (2 ^ 3) with 8 in H3. nia. }
  exists m', (ea - eb - 53 + k).
  split; [exact Hround |]. split; [exact Hm' |]. split; [lia |].
  pose proof (round_error_R (Zpos m') k (Zpos mb) (Zpos ma * 2 ^ 53)
                (ea - eb - 53) ltac:(lia) Hk ltac:(lia) Herr) as H.
  replace ((IZR (Zpos ma) * powerRZ 2 ea) / (IZR (Zpos mb) * powerRZ 2 eb))%R
    with (IZR (Zpos ma * 2 ^ 53) / IZR (Zpos mb)
          * powerRZ 2 (ea - eb - 53))%R; [exact H |].
  rewrite mult_IZR, IZR_pow2 by lia.
  assert (Hpow : (powerRZ 2 (ea - eb - 53) * (powerRZ 2 eb * powerRZ 2 53)
                  = powerRZ 2 ea)%R)
    by (rewrite <- !powerRZ_2_add; f_equal; lia).
  pose proof (powerRZ_2_pos eb). pose proof (powerRZ_2_pos 53).
  assert (0 < IZR (Zpos mb))%R by (apply IZR_lt; lia).
  rewrite <- Hpow. field. lra.
Qed.

End Operations.

(** *** Subtraction *)

Section Subtraction.

Lemma shl_align_fst (mx : positive) (ex ez : Z) :
  ez <= ex -> Zpos (fst (shl_align mx ex ez)) = Zpos mx * 2 ^ (ex - ez).
Proof.
  intros Hle. unfold shl_align.
  destruct (ez - ex) as [|p|p] eqn:Hd; cbn [fst]; try lia.
  - replace (ex - ez) with 0 by lia. lia.
  - rewrite shift_pos_value. f_equal. f_equal. lia.
Qed.

Lemma IZR_cond_Zopp (s : bool) (a : Z) :
  IZR (cond_Zopp s a) = ((if s then -1 else 1) * IZR a)%R.
Proof. destruct s; cbn [cond_Zopp]; [rewrite opp_IZR |]; lra. Qed.

Lemma aligned_value (m : positive) (e ez : Z) :
  ez <= e ->
  (IZR (Zpos m * 2 ^ (e - ez)) * powerRZ 2 ez
   = IZR (Zpos m) * powerRZ 2 e)%R.
Proof.
  intros Hle. rewrite mult_IZR, IZR_pow2 by lia.
  rewrite Rmult_assoc, <- powerRZ_2_add. f_equal. f_equal. lia.
Qed.

Lemma digits2_pos_below (p : positive) (k : Z) :
  0 <= k -> Zpos p < 2 ^ k -> Zpos (digits2_pos p) <= k.
Proof.
  intros Hk Hp. pose proof (digits2_pos_bounds p) as [Hlo _].
  destruct (Z.le_gt_cases (Zpos (digits2_pos p)) k); [assumption |].
  assert (2 ^ k <= 2 ^ (Zpos (digits2_pos p) - 1))
    by (apply Z.pow_le_mono_r; lia).
  lia.
Qed.

Lemma SFsub_R (x y : spec_float) :
  normal53 x -> normal53 y ->
  let d := SFsub prec emax x y in
  (d = S754_zero false
   \/ exists s m e, d = S754_finite s m e /\ 2 ^ 52 <= Zpos m < 2 ^ 53)
  /\ (Rabs (SF2R d - (SF2R x - SF2R y))
      <= / IZR (2 ^ 53) * Rabs (SF2R d))%R.
Proof.
  destruct x as [| | |sx mx ex]; try contradiction.
  destruct y as [| | |sy my ey]; try contradiction.
  intros [Hmx Hex] [Hmy Hey]. cbv zeta.
  unfold SFsub.
  set (ez := Z.min ex ey).
  assert (Hez : -200 <= ez <= 200) by (subst ez; lia).
  rewrite !shl_align_fst by (subst ez; lia).
  set (ax := Zpos mx * 2 ^ (ex - ez)).
  set (ay := Zpos my * 2 ^ (ey - ez)).
  set (M := cond_Zopp sx ax - cond_Zopp sy ay).
  assert (Hval : (IZR M * powerRZ 2 ez
                  = SF2R (S754_finite sx mx ex)
                    - SF2R (S754_finite sy my ey))%R).
  { unfold M, SF2R. rewrite minus_IZR, !IZR_cond_Zopp.
    rewrite Rmult_minus_distr_r, !Rmult_assoc.
    unfold ax, ay. rewrite !aligned_value by (subst ez; lia).
    reflexivity. }
  assert (Hbound : Z.abs M < 2 ^ 455).
  { assert (Hp : forall m e, 2 ^ 52 <= Zpos m < 2 ^ 53 -> ez <= e <= 200 ->
                   0 < Zpos m * 2 ^ (e - ez) < 2 ^ 454).
    { intros m e Hm He.
      assert (0 < 2 ^ (e - ez)) by (apply Z.pow_pos_nonneg; lia).
      assert (2 ^ (e - ez) <= 2 ^ 400) by (apply Z.pow_le_mono_r; lia).
      change (2 ^ 454) with (2 ^ 54 * 2 ^ 400).
      change (2 ^ 53) with 9007199254740992 in Hm.
      change (2 ^ 54) with 18014398509481984.
      generalize dependent (2 ^ (e - ez)). generalize (2 ^ 400).
      intros; nia. }
    pose proof (Hp mx ex Hmx ltac:(subst ez; lia)) as Hax.
    pose proof (Hp my ey Hmy ltac:(subst ez; lia)) as Hay.
    fold ax in Hax. fold ay in Hay.
    change (2 ^ 455) with (2 * 2 ^ 454).
    unfold M. destruct sx, sy; cbn [cond_Zopp]; lia. }
  rewrite <- Hval. clearbody M. clear Hval.
  destruct M as [|p|p]; cbn [binary_normalize]; cbn [Z.abs] in Hbound.
  - split; [now left |]. cbn [SF2R].
    rewrite Rmult_0_l, Rminus_diag, Rabs_R0. lra.
  - pose proof (digits2_pos_below p 455 ltac:(lia) ltac:(lia)) as Hd.
    destruct (binary_round_R false p ez ltac:(lia) ltac:(lia))
      as (m' & e' & -> & Hm' & Herr & _).
    split; [right; now exists false, m', e' |].
    cbn [SF2R]. rewrite !Rmult_1_l.
    assert (0 < IZR (Zpos m') * powerRZ 2 e')%R.
    { apply Rmult_lt_0_compat; [apply IZR_lt; lia | apply powerRZ_2_pos]. }
    rewrite (Rabs_pos_eq (IZR (Zpos m') * powerRZ 2 e')) by lra.
    exact Herr.
  - pose proof (digits2_pos_below p 455 ltac:(lia) ltac:(lia)) as Hd.
    destruct (binary_round_R true p ez ltac:(lia) ltac:(lia))
      as (m' & e' & -> & Hm' & Herr & _).
    split; [right; now exists true, m', e' |].
    cbn [SF2R].
    assert (0 < IZR (Zpos m') * powerRZ 2 e')%R.
    { apply Rmult_lt_0_compat; [apply IZR_lt; lia | apply powerRZ_2_pos]. }
    change (IZR (Zneg p)) with (- IZR (Zpos p))%R.
    replace (-1 * IZR (Zpos m') * powerRZ 2 e'
             - - IZR (Zpos p) * powerRZ 2 ez)%R
      with (- (IZR (Zpos m') * powerRZ 2 e'
               - IZR (Zpos p) * powerRZ 2 ez))%R by ring.
    replace (-1 * IZR (Zpos m') * powerRZ 2 e')%R
      with (- (IZR (Zpos m') * powerRZ 2 e'))%R by ring.
    rewrite !Rabs_Ropp.
    rewrite (Rabs_pos_eq (IZR (Zpos m') * powerRZ 2 e')) by lra.
    exact Herr.
Qed.

End Subtraction.

(** *** Absolute value and comparison *)

Section Comparison.

Lemma powerRZ_2_double (a b : Z) :
  a < b -> (2 * powerRZ 2 a <= powerRZ 2 b)%R.
Proof.
  intros Hlt. replace b with (a + (b - a)) by lia.
  rewrite powerRZ_2_add, <- (IZR_pow2 (b - a)) by lia.
  pose proof (powerRZ_2_pos a).
  assert (2 ^ 1 <= 2 ^ (b - a)) by (apply Z.pow_le_mono_r; lia).
  assert (2 <= IZR (2 ^ (b - a)))%R by (apply IZR_le; lia).
  nra.
Qed.

Lemma SFltb_abs_R (d : spec_float) (mt : positive) (et : Z) :
  d = S754_zero false
  \/ (exists s m e, d = S754_finite s m e /\ 2 ^ 52 <= Zpos m < 2 ^ 53) ->
  2 ^ 52 <= Zpos mt < 2 ^ 53 ->
  SFltb (SFabs d) (S754_finite false mt et) = true
  <-> (Rabs (SF2R d) < IZR (Zpos mt) * powerRZ 2 et)%R.
Proof.
  intros Hd Hmt.
  assert (Ht : (0 < IZR (Zpos mt) * powerRZ 2 et)%R).
  { apply Rmult_lt_0_compat; [apply IZR_lt; lia | apply powerRZ_2_pos]. }
  destruct Hd as [-> | (s & m & e & -> & Hm)].
  - cbn. rewrite Rabs_R0. tauto.
  - cbn [SFabs SF2R]. unfold SFltb, SFcompare.
    assert (Habs : Rabs ((if s then -1 else 1) * IZR (Zpos m) * powerRZ 2 e)
                   = (IZR (Zpos m) * powerRZ 2 e)%R).
    { assert (0 < IZR (Zpos m) * powerRZ 2 e)%R
        by (apply Rmult_lt_0_compat;
            [apply IZR_lt; lia | apply powerRZ_2_pos]).
      destruct s.
      - replace (-1 * IZR (Zpos m) * powerRZ 2 e)%R
          with (- (IZR (Zpos m) * powerRZ 2 e))%R by ring.
        rewrite Rabs_Ropp. apply Rabs_pos_eq. lra.
      - rewrite Rmult_1_l. apply Rabs_pos_eq. lra. }
    rewrite Habs.
    assert (Hm52 : (IZR (2 ^ 52) <= IZR (Zpos m) < IZR (2 ^ 53))%R)
      by (split; [apply IZR_le | apply IZR_lt]; lia).
    assert (Hmt52 : (IZR (2 ^ 52) <= IZR (Zpos mt) < IZR (2 ^ 53))%R)
      by (split; [apply IZR_le | apply IZR_lt]; lia).
    change (IZR (2 ^ 52)) with 4503599627370496%R in *.
    change (IZR (2 ^ 53)) with 9007199254740992%R in *.
    pose proof (powerRZ_2_pos e). pose proof (powerRZ_2_pos et).
    destruct (Z.compare_spec e et) as [-> | Hlt | Hgt].
    + rewrite Pos.compare_cont_spec. cbn [Pos.switch_Eq].
      destruct (Pos.compare_spec m mt) as [-> | Hl | Hg].
      * split; [discriminate | lra].
      * split; [intros _ | reflexivity].
        apply Rmult_lt_compat_r; [lra | apply IZR_lt; lia].
      * split; [discriminate |].
        intros Hc. apply Rmult_lt_reg_r in Hc; [| lra].
        apply lt_IZR in Hc. lia.
    + split; [intros _ | reflexivity].
      pose proof (powerRZ_2_double e et Hlt). nra.
    + split; [discriminate |].
      pose proof (powerRZ_2_double et e ltac:(lia)). nra.
Qed.

End Comparison.

(** *** Conversion from an integer *)

Section Conversion.

Lemma Prim2SF_of_int (a : Z) :
  0 < a < 2 ^ 53 ->
  exists (m : positive) (e : Z),
    Prim2SF (PrimFloat.of_uint63 (Uint63.of_Z a)) = S754_finite false m e
    /\ 2 ^ 52 <= Zpos m < 2 ^ 53 /\ -52 <= e <= 0
    /\ (IZR (Zpos m) * powerRZ 2 e = IZR a)%R.
Proof.
  intros Ha. rewrite of_uint63_spec, Uint63.of_Z_spec.
  rewrite Z.mod_small
    by (change wB with (2 ^ 63); change (2 ^ 53) with 9007199254740992 in Ha;
        change (2 ^ 63) with 9223372036854775808; lia).
  destruct a as [|p|p]; try lia. cbn [binary_normalize].
  pose proof (digits2_pos_bounds p) as [Hlo _].
  pose proof (digits2_pos_below p 53 ltac:(lia) ltac:(lia)) as Hd.
  assert (0 < Zpos (digits2_pos p)) by lia.
  destruct (binary_round_small false p 0 Hd ltac:(lia) ltac:(lia))
    as (m & Hround & Hv).
  exists m, (Zpos (digits2_pos p) + 0 - 53).
  split; [exact Hround |].
  assert (Hm : 2 ^ 52 <= Zpos m < 2 ^ 53).
  { rewrite Hv. set (d := Zpos (digits2_pos p)) in *.
    pose proof (digits2_pos_bounds p) as [_ Hhi]. fold d in Hhi.
    assert (H52 : 2 ^ 52 = 2 ^ (d - 1) * 2 ^ (53 - d))
      by (rewrite <- Z.pow_add_r by lia; f_equal; lia).
    assert (H53 : 2 ^ 53 = 2 ^ d * 2 ^ (53 - d))
      by (rewrite <- Z.pow_add_r by lia; f_equal; lia).
    assert (0 < 2 ^ (53 - d)) by (apply Z.pow_pos_nonneg; lia).
    rewrite H52, H53. nia. }
  split; [exact Hm |]. split; [lia |].
  rewrite Hv, mult_IZR, IZR_pow2 by lia.
  rewrite Rmult_assoc, <- powerRZ_2_add.
  replace (53 - Zpos (digits2_pos p) + (Zpos (digits2_pos p) + 0 - 53))
    with 0 by lia.
  cbn [powerRZ]. lra.
Qed.

End Conversion.

(** *** The quotient, the difference and the test of [aspectRatioOf] *)

Section Pipeline.

Lemma Prim2SF_float64_of_int (i : Z) :
  i <> 0 -> Z.abs i < 2 ^ 53 ->
  exists (m : positive) (e : Z),
    Prim2SF (float64_of_int i) = S754_finite (i <? 0) m e
    /\ 2 ^ 52 <= Zpos m < 2 ^ 53 /\ -52 <= e <= 0
    /\ SF2R (S754_finite (i <? 0) m e) = IZR i.
Proof.
  intros Hne Hlt. unfold float64_of_int.
  replace (Z.abs i <? 2 ^ 63) with true
    by (symmetry; apply Z.ltb_lt;
        change (2 ^ 53) with 9007199254740992 in Hlt;
        change (2 ^ 63) with 9223372036854775808; lia).
  destruct (Prim2SF_of_int (Z.abs i) ltac:(lia)) as (m & e & Hsf & Hm & He & Hv).
  exists m, e.
  destruct (Z.ltb_spec i 0) as [Hneg | Hpos].
  - rewrite FloatAxioms.opp_spec, Hsf. cbn [SFopp negb].
    split; [reflexivity |]. split; [exact Hm |]. split; [exact He |].
    cbn [SF2R].
    replace (-1 * IZR (Zpos m) * powerRZ 2 e)%R
      with (- (IZR (Zpos m) * powerRZ 2 e))%R by ring.
    rewrite Hv, <- opp_IZR. f_equal. lia.
  - rewrite Hsf.
    split; [reflexivity |]. split; [exact Hm |]. split; [exact He |].
    cbn [SF2R]. rewrite Rmult_1_l, Hv. f_equal. lia.
Qed.

(** The value of the quotient, of the difference with a constant, and the
    outcome of the comparison, each with its rounding error. *)
Lemma band_test (w h : Z) (c t : float) (mc mt : positive) (ec et : Z) :
  w <> 0 -> Z.abs w < 2 ^ 53 -> 0 < h < 2 ^ 53 ->
  Prim2SF c = S754_finite false mc ec ->
  2 ^ 52 <= Zpos mc < 2 ^ 53 -> -200 <= ec <= 200 ->
  Prim2SF t = S754_finite false mt et ->
  2 ^ 52 <= Zpos mt < 2 ^ 53 ->
  exists V d : R,
    (Rabs (V - IZR w / IZR h) <= / IZR (2 ^ 53) * Rabs V)%R
    /\ (Rabs (d - (V - IZR (Zpos mc) * powerRZ 2 ec))
        <= / IZR (2 ^ 53) * Rabs d)%R
    /\ ((PrimFloat.abs (float64_of_int w / float64_of_int h - c) <? t)%float
        = true
        <-> (Rabs d < IZR (Zpos mt) * powerRZ 2 et)%R).
Proof.
  intros Hw Hwb Hh Hc Hmc Hec Ht Hmt.
  destruct (Prim2SF_float64_of_int w Hw Hwb)
    as (mw & ew & Hsw & Hmw & Hew & Hvw).
  destruct (Prim2SF_float64_of_int h ltac:(lia) ltac:(lia))
    as (mh & eh & Hsh & Hmh & Heh & Hvh).
  replace (h <? 0) with false in Hsh, Hvh by (symmetry; apply Z.ltb_ge; lia).
  destruct (SFdiv_R (w <? 0) false mw mh ew eh Hmw Hmh ltac:(lia) ltac:(lia))
    as (mq & eq & Hdiv & Hmq & Heq & Herrq).
  set (ratio := (float64_of_int w / float64_of_int h)%float).
  assert (Hratio : Prim2SF ratio = S754_finite (xorb (w <? 0) false) mq eq).
  { unfold ratio. rewrite FloatAxioms.div_spec, Hsw, Hsh. exact Hdiv. }
  assert (Hsub : Prim2SF (ratio - c)%float
                 = SFsub prec emax (S754_finite (xorb (w <? 0) false) mq eq)
                     (S754_finite false mc ec)).
  { rewrite FloatAxioms.sub_spec, Hratio, Hc. reflexivity. }
  assert (Heq' : -200 <= eq <= 200) by lia.
  pose proof (SFsub_R (S754_finite (xorb (w <? 0) false) mq eq)
                (S754_finite false mc ec)
                (conj Hmq Heq') (conj Hmc Hec)) as [Hshape Herrd].
  cbv zeta in Hshape, Herrd. rewrite <- Hsub in Hshape, Herrd.
  exists (SF2R (S754_finite (xorb (w <? 0) false) mq eq)),
    (SF2R (Prim2SF (ratio - c)%float)).
  split; [| split].
  - (* the quotient *)
    assert (Hq : (0 < IZR (Zpos mq) * powerRZ 2 eq)%R).
    { apply Rmult_lt_0_compat; [apply IZR_lt; lia | apply powerRZ_2_pos]. }
    assert (Hhpos : (0 < IZR (Zpos mh) * powerRZ 2 eh)%R).
    { apply Rmult_lt_0_compat; [apply IZR_lt; lia | apply powerRZ_2_pos]. }
    cbn [SF2R] in Hvw, Hvh |- *. rewrite Rmult_1_l in Hvh.
    rewrite <- Hvw, <- Hvh. rewrite xorb_false_r.
    set (Q := (IZR (Zpos mq) * powerRZ 2 eq)%R) in *.
    set (Wv := (IZR (Zpos mw) * powerRZ 2 ew)%R) in *.
    set (Hv := (IZR (Zpos mh) * powerRZ 2 eh)%R) in *.
    destruct (w <? 0).
    + replace (-1 * IZR (Zpos mq) * powerRZ 2 eq)%R with (- Q)%R
        by (unfold Q; ring).
      replace (-1 * IZR (Zpos mw) * powerRZ 2 ew)%R with (- Wv)%R
        by (unfold Wv; ring).
      replace (- Q - - Wv / Hv)%R with (- (Q - Wv / Hv))%R by (field; lra).
      rewrite !Rabs_Ropp, (Rabs_pos_eq Q) by lra.
      exact Herrq.
    + replace (1 * IZR (Zpos mq) * powerRZ 2 eq)%R with Q
        by (unfold Q; ring).
      replace (1 * IZR (Zpos mw) * powerRZ 2 ew)%R with Wv
        by (unfold Wv; ring).
      rewrite (Rabs_pos_eq Q) by lra.
      exact Herrq.
  - (* the difference *)
    replace (IZR (Zpos mc) * powerRZ 2 ec)%R
      with (SF2R (S754_finite false mc ec)) by (cbn [SF2R]; ring).
    exact Herrd.
  - (* the comparison *)
    rewrite FloatAxioms.ltb_spec, FloatAxioms.abs_spec, Ht.
    fold ratio. apply SFltb_abs_R; assumption.
Qed.

End Pipeline.

(** *** The error budget of the two tests *)

Section Bands.

Ltac split_abs :=
  unfold Rabs in *;
  repeat match goal with
    | H : context [Rcase_abs ?x] |- _ => destruct (Rcase_abs x)
    | |- context [Rcase_abs ?x] => destruct (Rcase_abs x)
    end.

Lemma wide_numeric (V d X : R) :
  (Rabs (V - X) <= / 9007199254740992 * Rabs V)%R ->
  (Rabs (d - (V - 8006399337547548 / 4503599627370496))
   <= / 9007199254740992 * Rabs d)%R ->
  ((151 / 90 + / (90 * 17592186044416) <= X
    <= 169 / 90 - / (90 * 17592186044416) ->
    Rabs d < 7205759403792794 / 72057594037927936)
   /\ (X <= 151 / 90 - / (90 * 17592186044416)
       \/ 169 / 90 + / (90 * 17592186044416) <= X ->
       ~ Rabs d < 7205759403792794 / 72057594037927936))%R.
Proof.
  intros HV Hd. split.
  - intros [Hlo Hhi]. split_abs; lra.
  - intros [Hlo | Hhi]; split_abs; lra.
Qed.

Lemma tall_numeric (V d X : R) :
  (Rabs (V - X) <= / 9007199254740992 * Rabs V)%R ->
  (Rabs (d - (V - 5066549580791808 / 9007199254740992))
   <= / 9007199254740992 * Rabs d)%R ->
  ((37 / 80 + / (80 * 17592186044416) <= X
    <= 53 / 80 - / (80 * 17592186044416) ->
    Rabs d < 7205759403792794 / 72057594037927936)
   /\ (X <= 37 / 80 - / (80 * 17592186044416)
       \/ 53 / 80 + / (80 * 17592186044416) <= X ->
       ~ Rabs d < 7205759403792794 / 72057594037927936))%R.
Proof.
  intros HV Hd. split.
  - intros [Hlo Hhi]. split_abs; lra.
  - intros [Hlo | Hhi]; split_abs; lra.
Qed.

End Bands.

(** *** The two tests on integer dimensions *)

Section Tests.

Lemma powerRZ_2_opp (k : Z) :
  0 <= k -> powerRZ 2 (- k) = (/ IZR (2 ^ k))%R.
Proof. intros Hk. now rewrite powerRZ_neg', IZR_pow2. Qed.

(** The first comparison of [aspectRatioOf], on integer dimensions. *)
Lemma wide_test (w h : Z) :
  w <> 0 -> Z.abs w < 2 ^ 53 -> 0 < h < 2 ^ 53 ->
  let X := (IZR w / IZR h)%R in
  let wide :=
    (PrimFloat.abs (float64_of_int w / float64_of_int h - 16 / 9) <? 1 / 10)%float in
  ((151 / 90 + / (90 * 17592186044416) <= X
    <= 169 / 90 - / (90 * 17592186044416))%R -> wide = true)
  /\ ((X <= 151 / 90 - / (90 * 17592186044416)
       \/ 169 / 90 + / (90 * 17592186044416) <= X)%R -> wide = false).
Proof.
  intros Hw Hwb Hh X wide.
  destruct (band_test w h (16 / 9)%float (1 / 10)%float
              8006399337547548 7205759403792794 (-52) (-56) Hw Hwb Hh
              ltac:(vm_compute; reflexivity) ltac:(cbn; lia) ltac:(lia)
              ltac:(vm_compute; reflexivity) ltac:(cbn; lia))
    as (V & d & HV & Hd & Htest).
  fold X in HV. fold wide in Htest.
  change (-52) with (- (52)) in Hd. change (-56) with (- (56)) in Htest.
  rewrite powerRZ_2_opp in Hd, Htest by lia.
  change (IZR (2 ^ 53)) with 9007199254740992%R in HV, Hd.
  change (IZR (2 ^ 52)) with 4503599627370496%R in Hd.
  change (IZR (2 ^ 56)) with 72057594037927936%R in Htest.
  destruct (wide_numeric V d X HV Hd) as [Hin Hout].
  split.
  - intros HX. apply Htest, Hin, HX.
  - intros HX. destruct wide; [| reflexivity].
    exfalso. apply (Hout HX). now apply Htest.
Qed.

(** The second comparison. *)
Lemma tall_test (w h : Z) :
  w <> 0 -> Z.abs w < 2 ^ 53 -> 0 < h < 2 ^ 53 ->
  let X := (IZR w / IZR h)%R in
  let tall :=
    (PrimFloat.abs (float64_of_int w / float64_of_int h - 9 / 16) <? 1 / 10)%float in
  ((37 / 80 + / (80 * 17592186044416) <= X
    <= 53 / 80 - / (80 * 17592186044416))%R -> tall = true)
  /\ ((X <= 37 / 80 - / (80 * 17592186044416)
       \/ 53 / 80 + / (80 * 17592186044416) <= X)%R -> tall = false).
Proof.
  intros Hw Hwb Hh X tall.
  destruct (band_test w h (9 / 16)%float (1 / 10)%float
              5066549580791808 7205759403792794 (-53) (-56) Hw Hwb Hh
              ltac:(vm_compute; reflexivity) ltac:(cbn; lia) ltac:(lia)
              ltac:(vm_compute; reflexivity) ltac:(cbn; lia))
    as (V & d & HV & Hd & Htest).
  fold X in HV. fold tall in Htest.
  change (-53) with (- (53)) in Hd. change (-56) with (- (56)) in Htest.
  rewrite powerRZ_2_opp in Hd, Htest by lia.
  change (IZR (2 ^ 53)) with 9007199254740992%R in HV, Hd.
  change (IZR (2 ^ 56)) with 72057594037927936%R in Htest.
  destruct (tall_numeric V d X HV Hd) as [Hin Hout].
  split.
  - intros HX. apply Htest, Hin, HX.
  - intros HX. destruct tall; [| reflexivity].
    exfalso. apply (Hout HX). now apply Htest.
Qed.

End Tests.

(** *** The binary64 rule against the exact rule *)

Section ExactRule.

Lemma ratio_above (W H a b T : R) :
  (0 < H <= T -> 0 < b -> a * H + 1 <= b * W ->
   a / b + / (b * T) <= W / H)%R.
Proof.
  intros [HH HT] Hb Hle.
  apply Rle_trans with (a / b + / (b * H))%R.
  - apply Rplus_le_compat_l, Rinv_le_contravar; nra.
  - replace (a / b + / (b * H))%R with ((a * H + 1) * / (b * H))%R
      by (field; lra).
    replace (W / H)%R with ((b * W) * / (b * H))%R by (field; lra).
    apply Rmult_le_compat_r; [| exact Hle].
    apply Rlt_le, Rinv_0_lt_compat. nra.
Qed.

Lemma ratio_below (W H a b T : R) :
  (0 < H <= T -> 0 < b -> b * W <= a * H - 1 ->
   W / H <= a / b - / (b * T))%R.
Proof.
  intros [HH HT] Hb Hle.
  apply Rle_trans with (a / b - / (b * H))%R.
  - replace (W / H)%R with ((b * W) * / (b * H))%R by (field; lra).
    replace (a / b - / (b * H))%R with ((a * H - 1) * / (b * H))%R
      by (field; lra).
    apply Rmult_le_compat_r; [| exact Hle].
    apply Rlt_le, Rinv_0_lt_compat. nra.
  - apply Rplus_le_compat_l, Ropp_le_contravar, Rinv_le_contravar; nra.
Qed.

(** Off the thresholds, and for a height of at most 2^44, the binary64
    rule gives the class of the exact rule. *)
Lemma classify_exact (width height : Z) :
  - 2 ^ 53 < width < 2 ^ 53 -> 1 <= height <= 2 ^ 44 ->
  onBoundary width height = false ->
  classify width height = aspectRatioExact width height.
Proof.
  intros Hw Hh Hoff.
  destruct height as [|hp|hp]; try lia.
  revert Hoff.
  unfold aspectRatioExact, onBoundary, Qltb, Qle_bool, Qeq_bool, Qabs,
    Qminus, Qplus, Qopp.
  cbn [Qnum Qden Z.to_pos].
  rewrite !Pos2Z.inj_mul. set (h := Zpos hp) in *.
  intros Hoff. apply orb_false_iff in Hoff as [Hb1 Hb2].
  apply Z.eqb_neq in Hb1, Hb2.
  destruct (Z.eq_dec width 0) as [-> | Hne].
  { unfold classify. change (float64_of_int 0) with 0%float.
    rewrite aspectRatioOf_zero_width.
    destruct (Z.leb_spec (1 * (h * 9)) (Z.abs (0 * 9 + - (16) * h) * 10));
      [| lia].
    destruct (Z.leb_spec (1 * (h * 16)) (Z.abs (0 * 16 + - (9) * h) * 10));
      [reflexivity | lia]. }
  assert (HT : (0 < IZR h <= 17592186044416)%R).
  { split; [apply IZR_lt; lia |].
    change 17592186044416%R with (IZR (2 ^ 44)). apply IZR_le. lia. }
  assert (Hwb : Z.abs width < 2 ^ 53) by lia.
  assert (Hhb : 0 < h < 2 ^ 53)
    by (change (2 ^ 44) with 17592186044416 in Hh;
        change (2 ^ 53) with 9007199254740992; lia).
  pose proof (wide_test width h Hne Hwb Hhb) as [Hwin Hwout].
  pose proof (tall_test width h Hne Hwb Hhb) as [Htin Htout].
  cbv zeta in Hwin, Hwout, Htin, Htout.
  unfold classify, aspectRatioOf.
  destruct (Z.leb_spec (1 * (h * 9)) (Z.abs (width * 9 + - (16) * h) * 10))
    as [Hnw | Hwide]; cbn [negb].
  - (* not wide *)
    rewrite Hwout.
    2:{ destruct (Z.le_gt_cases (90 * width) (151 * h - 1)) as [Hl | Hg].
        - left. apply (ratio_below (IZR width) (IZR h) 151 90); [exact HT | lra |].
          apply IZR_le in Hl. rewrite minus_IZR, !mult_IZR in Hl. lra.
        - right. apply (ratio_above (IZR width) (IZR h) 169 90); [exact HT | lra |].
          assert (Hg' : 169 * h + 1 <= 90 * width) by lia.
          apply IZR_le in Hg'. rewrite plus_IZR, !mult_IZR in Hg'. lra. }
    destruct (Z.leb_spec (1 * (h * 16)) (Z.abs (width * 16 + - (9) * h) * 10))
      as [Hnt | Htall]; cbn [negb].
    + rewrite Htout; [reflexivity |].
      destruct (Z.le_gt_cases (80 * width) (37 * h - 1)) as [Hl | Hg].
      * left. apply (ratio_below (IZR width) (IZR h) 37 80); [exact HT | lra |].
        apply IZR_le in Hl. rewrite minus_IZR, !mult_IZR in Hl. lra.
      * right. apply (ratio_above (IZR width) (IZR h) 53 80); [exact HT | lra |].
        assert (Hg' : 53 * h + 1 <= 80 * width) by lia.
        apply IZR_le in Hg'. rewrite plus_IZR, !mult_IZR in Hg'. lra.
    + rewrite Htin; [reflexivity |]. split.
      * apply (ratio_above (IZR width) (IZR h) 37 80); [exact HT | lra |].
        assert (Hg' : 37 * h + 1 <= 80 * width) by lia.
        apply IZR_le in Hg'. rewrite plus_IZR, !mult_IZR in Hg'. lra.
      * apply (ratio_below (IZR width) (IZR h) 53 80); [exact HT | lra |].
        assert (Hl : 80 * width <= 53 * h - 1) by lia.
        apply IZR_le in Hl. rewrite minus_IZR, !mult_IZR in Hl. lra.
  - (* wide *)
    rewrite Hwin; [reflexivity |]. split.
    + apply (ratio_above (IZR width) (IZR h) 151 90); [exact HT | lra |].
      assert (Hg' : 151 * h + 1 <= 90 * width) by lia.
      apply IZR_le in Hg'. rewrite plus_IZR, !mult_IZR in Hg'. lra.
    + apply (ratio_below (IZR width) (IZR h) 169 90); [exact HT | lra |].
      assert (Hl : 90 * width <= 169 * h - 1) by lia.
      apply IZR_le in Hl. rewrite minus_IZR, !mult_IZR in Hl. lra.
Qed.

(** Dimensions in the exact ratios 16:9, 9:16 and 1:1 fall in their
    class, as long as both are below 2^53. *)
Lemma classify_multiples (k : Z) :
  1 <= k -> 16 * k < 2 ^ 53 ->
  classify (16 * k) (9 * k) = "16:9"
  /\ classify (9 * k) (16 * k) = "9:16"
  /\ classify k k = "other".
Proof.
  intros Hk Hb. change (2 ^ 53) with 9007199254740992 in Hb.
  assert (HK : (0 < IZR k)%R) by (apply IZR_lt; lia).
  assert (Hrange : forall a b, 0 < a <= 16 -> 0 < b <= 16 ->
            a * k <> 0 /\ Z.abs (a * k) < 2 ^ 53 /\ 0 < b * k < 2 ^ 53).
  { intros a b Ha Hb'. change (2 ^ 53) with 9007199254740992.
    assert (0 < a * k <= 16 * k) by nia.
    assert (0 < b * k <= 16 * k) by nia.
    lia. }
  assert (Hratio : forall a b, b <> 0 ->
            (IZR (a * k) / IZR (b * k) = IZR a / IZR b)%R).
  { intros a b Hb0. rewrite !mult_IZR.
    field; split; first [lra | apply not_0_IZR; exact Hb0]. }
  unfold classify, aspectRatioOf.
  split; [| split].
  - destruct (Hrange 16 9 ltac:(lia) ltac:(lia)) as (H0 & H1 & H2).
    pose proof (wide_test (16 * k) (9 * k) H0 H1 H2) as [Hin _].
    cbv zeta in Hin. rewrite Hin; [reflexivity |].
    rewrite (Hratio 16 9) by lia. lra.
  - destruct (Hrange 9 16 ltac:(lia) ltac:(lia)) as (H0 & H1 & H2).
    pose proof (wide_test (9 * k) (16 * k) H0 H1 H2) as [_ Hout].
    pose proof (tall_test (9 * k) (16 * k) H0 H1 H2) as [Hin _].
    cbv zeta in Hin, Hout.
    rewrite Hout by (rewrite (Hratio 9 16) by lia; lra).
    rewrite Hin; [reflexivity |].
    rewrite (Hratio 9 16) by lia. lra.
  - destruct (Hrange 1 1 ltac:(lia) ltac:(lia)) as (H0 & H1 & H2).
    rewrite !Z.mul_1_l in H0, H1, H2.
    pose proof (wide_test k k H0 H1 H2) as [_ Hwout].
    pose proof (tall_test k k H0 H1 H2) as [_ Htout].
    cbv zeta in Hwout, Htout.
    assert (Hone : (IZR k / IZR k = 1)%R) by (field; lra).
    rewrite Hwout by (rewrite Hone; lra).
    rewrite Htout by (rewrite Hone; lra).
    reflexivity.
Qed.

End ExactRule.

(** ** C5: the aspect-ratio class *)

Section AspectRatio.

(** C5, as the code has it: the class is a total function of the first
    stream's width and height.  With [ratio] the binary64 quotient of the
    two dimensions converted to [float64], and the subtraction, the
    absolute value and the comparison with 0.1 done in binary64, the
    class is "16:9" iff |ratio - 16/9| < 0.1, "9:16" iff that fails and
    |ratio - 9/16| < 0.1, and "other" iff both fail.  All dimensions
    16k x 9k are wide, 9k x 16k tall and k x k other (16k below 2^53),
    and for every width below 2^53 in absolute value and every height
    from 1 to 2^44 the class is the one the exact ratio gives, unless
    the exact ratio lies on a threshold (at distance exactly 1/10 from
    16/9 or from 9/16), where the rounding of the binary64 operations
    decides. *)
Theorem aspect_classification (filepath : string) (x : Externals) (w : World)
  (first : Stream) (rest : list Stream) :
  xProbe x = ProbeReports {| Streams := first :: rest |} ->
  let ratio :=
    (float64_of_int (Width first) / float64_of_int (Height first))%float in
  let wide := (PrimFloat.abs (ratio - 16 / 9) <? 1 / 10)%float in
  let tall := (PrimFloat.abs (ratio - 9 / 16) <? 1 / 10)%float in
  let class := fst (fst (getVideoAspectRatio filepath x w)) in
  snd (fst (getVideoAspectRatio filepath x w)) = None
  /\ class = classify (Width first) (Height first)
  /\ In class ["16:9"; "9:16"; "other"]
  /\ (class = "16:9" <-> wide = true)
  /\ (class = "9:16" <-> wide = false /\ tall = true)
  /\ (class = "other" <-> wide = false /\ tall = false)
  /\ (forall k, 1 <= k -> 16 * k < 2 ^ 53 ->
        classify (16 * k) (9 * k) = "16:9"
        /\ classify (9 * k) (16 * k) = "9:16"
        /\ classify k k = "other")
  /\ (forall width height,
        - 2 ^ 53 < width < 2 ^ 53 -> 1 <= height <= 2 ^ 44 ->
        onBoundary width height = false ->
        classify width height = aspectRatioExact width height).
Proof.
  intros Hprobe ratio wide tall class.
  subst class. unfold getVideoAspectRatio. rewrite Hprobe.
  cbn [Streams fst snd]. unfold classify at 1 2 3 4 5, aspectRatioOf.
  fold ratio. fold wide. fold tall.
  split; [reflexivity |]. split; [reflexivity |].
  split; [destruct wide, tall; simpl; tauto |].
  split; [destruct wide, tall; split; (discriminate || reflexivity) |].
  split; [destruct wide, tall; split;
          (discriminate || (intros [? ?]; discriminate) || tauto) |].
  split; [destruct wide, tall; split;
          (discriminate || (intros [? ?]; discriminate) || tauto) |].
  split.
  - intros k Hk Hbound. now apply classify_multiples.
  - intros width height Hw Hh Hoff. now apply classify_exact.
Qed.

Lemma aspect_classification_witness :
  fst (fst (getVideoAspectRatio "/tmp/tubely-upload.mp42858167534"
              allGood world0)) = "16:9"
  /\ classify 1920 1080 = aspectRatioExact 1920 1080
  /\ classify 3840 2160 = "16:9".
Proof.
  pose proof (aspect_classification "/tmp/tubely-upload.mp42858167534"
                allGood world0 {| Width := 1920; Height := 1080 |} []
                eq_refl) as H.
  cbv zeta in H. destruct H as (_ & _ & _ & Hwide & _ & _ & Hmult & Hexact).
  split; [apply (proj2 Hwide); vm_compute; reflexivity |].
  split.
  - apply Hexact; [lia | lia | vm_compute; reflexivity].
  - apply (Hmult 240); lia.
Defined.

(** C5 as stated, read over the exact ratio, fails in two ways.  A first
    stream of 151 x 90 has |151/90 - 16/9| = 1/10, which is not below
    1/10, and is classified "16:9" all the same: on a threshold the
    rounding decides.  And a first stream of 174203873525852 x
    92771293593649 (a height between 2^46 and 2^47) has a ratio that is
    not on a threshold and is less than 1/10 away from 16/9, and is
    classified "other": the ratio is closer to the threshold 169/90 than
    the rounding error of the quotient, so the bound on the height cannot
    be dropped. *)
Lemma aspect_exact_rule_counterexamples :
  let classOf := fun width height =>
    fst (fst (getVideoAspectRatio "/tmp/tubely-upload.mp42858167534"
                (externals (probeOf width height) FfmpegSucceeds true)
                world0)) in
  (classOf 151 90 = "16:9"
   /\ ~ (Qabs ((151 # 90) - (16 # 9)) < 1 # 10)%Q
   /\ aspectRatioExact 151 90 = "other")
  /\ (classOf 174203873525852 92771293593649 = "other"
      /\ (Qabs ((174203873525852 # 92771293593649) - (16 # 9)) < 1 # 10)%Q
      /\ aspectRatioExact 174203873525852 92771293593649 = "16:9"
      /\ onBoundary 174203873525852 92771293593649 = false
      /\ 2 ^ 46 < 92771293593649 < 2 ^ 47).
Proof.
  cbv zeta. split.
  - split; [vm_compute; reflexivity |].
    split; [| vm_compute; reflexivity].
    intros H. vm_compute in H. discriminate.
  - split; [vm_compute; reflexivity |].
    split; [vm_compute; reflexivity |].
    split; [vm_compute; reflexivity |].
    split; [vm_compute; reflexivity | lia].
Qed.

End AspectRatio.

(** ** Handlers: symbolic execution *)

Section Stepping.

Lemma when_respond (cond : bool) (code : Z) (msg : string) (w : World)
  (ds : list Deferred) :
  when_ cond (respondWithError code msg) (mkFrame w ds)
  = (Continue tt, mkFrame (emitWhen cond (RespondWithError code msg) w) ds).
Proof.
  destruct cond; unfold when_, emitWhen; cbn; [reflexivity |].
  rewrite app_nil_r. now destruct w.
Qed.

Lemma updatesOf_app (a b : list Event) :
  updatesOf (a ++ b) = (updatesOf a ++ updatesOf b)%list.
Proof. induction a as [|[] a IH]; cbn; congruence. Qed.

Lemma putsOf_app (a b : list Event) :
  putsOf (a ++ b) = (putsOf a ++ putsOf b)%list.
Proof. induction a as [|[] a IH]; cbn; congruence. Qed.

Lemma updatesOf_when (cond : bool) (code : Z) (msg : string) :
  updatesOf (if cond then [RespondWithError code msg] else []) = [].
Proof. now destruct cond. Qed.

Lemma putsOf_when (cond : bool) (code : Z) (msg : string) :
  putsOf (if cond then [RespondWithError code msg] else []) = [].
Proof. now destruct cond. Qed.

Lemma append_neq_self (a b : string) : b <> "" -> a +:+ b <> a.
Proof.
  intros Hb Heq. apply (f_equal String.length) in Heq.
  rewrite length_append in Heq.
  destruct b; [congruence | simpl in Heq; lia].
Qed.

End Stepping.

Ltac unfold_body :=
  unfold handlerUploadVideo, handlerUploadThumbnail, runHandler,
    handlerUploadVideo_body, handlerUploadThumbnail_body,
    orReturn, whenReturn, orPanic, file_Name,
    r_ParseMultipartForm, r_FormFile,
    db_GetVideo, db_UpdateVideo, os_CreateTemp, os_Create, os_Open, io_Copy,
    file_Seek, s3_PutObject, respondWithJSON,
    defer, return_, mbind, mret, Handler_bind, Handler_ret.

Ltac run1 :=
  cbn -[lookup insert union difference singleton elem_of bool_decide
        String.append strings_Split base64_RawURLEncoding_EncodeToString
        getFilename getVideoAspectRatio processVideoForFastStart
        dbVideoToSignedVideo prefixes when_ classify aspectRatioOf
        float64_of_int].

Ltac steps := repeat first [rewrite when_respond | progress run1].

(** One case per way the rest of the video pipeline can go. *)
Ltac split_paths x :=
  try match goal with
    | |- context [getVideoAspectRatio] =>
        unfold getVideoAspectRatio at 1;
        destruct (xProbe x) as [? | ? | [[|? ?]]]; steps
    end;
  try match goal with
    | |- context [xUpdateOK x] => destruct (xUpdateOK x); steps
    end;
  try match goal with
    | |- context [dbVideoToSignedVideo x ?v] =>
        destruct (dbVideoToSignedVideo x v) as [? [?|]]; steps
    end;
  try match goal with
    | |- context [processVideoForFastStart] =>
        unfold processVideoForFastStart at 1;
        destruct (xFfmpeg x) as [|? ? [|]]; steps
    end;
  try match goal with
    | |- context [xOpenOK x] =>
        unfold call at 1; steps; destruct (_ && xOpenOK x); steps
    end;
  try match goal with
    | |- context [xPutOK x] =>
        unfold call at 1; steps; destruct (xPutOK x); steps
    end.

Ltac final_world :=
  intros [= <- <-];
  cbn [trace db s3 files emit emitWhen setDB setFiles setS3].

Ltac summarize :=
  rewrite ?updatesOf_app, ?putsOf_app, ?updatesOf_when, ?putsOf_when;
  cbn [updatesOf putsOf app].

(** ** Both handlers: the ownership check *)

Section OwnerCheck.

Context (cfg : apiConfig) (r : Request) (x : Externals) (w : World).
Context (videoID userID : string) (metadata : Video).
Hypothesis Hid : reqVideoID r = Some videoID.
Hypothesis Htoken : reqToken r <> None.
Hypothesis Huser : reqUserID r = Some userID.
Hypothesis Hrecord : db w !! videoID = Some metadata.
Hypothesis Howner : UserID metadata <> userID.

Ltac owner_mismatch :=
  unfold refusedCalls; unfold_body; rewrite Hid, Huser;
  destruct (reqToken r) as [token|]; [clear Htoken | congruence];
  destruct (reqFormParses r), (reqFormFile r) as [header|]; steps;
  rewrite ?Hrecord; steps;
  rewrite ?(bool_decide_eq_false_2 _ Howner); steps;
  unfold emit, setFiles; cbn [db files s3 trace];
  rewrite <- ?app_assoc; reflexivity.

Lemma video_owner_mismatch :
  handlerUploadVideo cfg r x w
  = (Returns tt,
     mkWorld (db w) (files w ∪ reqFormSpill r (Z.shiftl 10 30)) (s3 w)
       (trace w ++ refusedCalls r (Z.shiftl 10 30) "video" videoID)).
Proof. owner_mismatch. Qed.

Lemma thumbnail_owner_mismatch :
  handlerUploadThumbnail cfg r x w
  = (Returns tt,
     mkWorld (db w) (files w ∪ reqFormSpill r (Z.shiftl 10 20)) (s3 w)
       (trace w ++ refusedCalls r (Z.shiftl 10 20) "thumbnail" videoID)).
Proof. owner_mismatch. Qed.

Lemma refusedCalls_harmless (maxMemory : Z) (part : string) :
  let calls := refusedCalls r maxMemory part videoID in
  updatesOf calls = [] /\ putsOf calls = []
  /\ Forall (fun e => isMutation e = true -> e = ParseMultipartForm maxMemory)
       calls
  /\ (last calls
      = Some (RespondWithError http_StatusUnauthorized
                "User does not have access to this video")
      <-> reqFormParses r = true /\ reqFormFile r <> None).
Proof.
  unfold refusedCalls.
  destruct (reqFormParses r), (reqFormFile r) as [header|]; cbn;
    (split; [reflexivity |]); (split; [reflexivity |]);
    (split; [repeat constructor; discriminate |]);
    (split; [try discriminate; intros _ | intros [? ?]; congruence]);
    split; congruence.
Qed.

End OwnerCheck.

(** C2, as the code has it: when the record's owner is not the
    authenticated caller, a video upload and a thumbnail upload make no
    object-storage call and change no record; [UpdateVideo] and [PutObject]
    are never called and the handler stages, creates and copies no file.
    The multipart form is read before the ownership check, so the one call
    that can write is [r.ParseMultipartForm], and the disk holds exactly
    the temporary files in which it stored what did not fit in memory.
    The request ends with the 401 response "User does not have access to
    this video" right after the record was read, unless the form or the
    part could not be read, which has ended it with a 400 before. *)
Theorem owner_mismatch_stops_after_form (cfg : apiConfig) (r : Request)
  (x : Externals) (w : World) (videoID userID : string) (metadata : Video) :
  reqVideoID r = Some videoID ->
  reqToken r <> None ->
  reqUserID r = Some userID ->
  db w !! videoID = Some metadata ->
  UserID metadata <> userID ->
  forall handler maxMemory part,
    In (handler, maxMemory, part)
      [(handlerUploadVideo, Z.shiftl 10 30, "video");
       (handlerUploadThumbnail, Z.shiftl 10 20, "thumbnail")] ->
    let calls := refusedCalls r maxMemory part videoID in
    handler cfg r x w
    = (Returns tt,
       mkWorld (db w) (files w ∪ reqFormSpill r maxMemory) (s3 w)
         (trace w ++ calls))
    /\ updatesOf calls = [] /\ putsOf calls = []
    /\ Forall (fun e => isMutation e = true -> e = ParseMultipartForm maxMemory)
         calls
    /\ (last calls
        = Some (RespondWithError http_StatusUnauthorized
                  "User does not have access to this video")
        <-> reqFormParses r = true /\ reqFormFile r <> None).
Proof.
  intros Hid Htoken Huser Hrecord Howner handler maxMemory part
    [[= <- <- <-] | [[= <- <- <-] | []]];
    (split; [| apply refusedCalls_harmless]).
  - exact (video_owner_mismatch cfg r x w videoID userID metadata
             Hid Htoken Huser Hrecord Howner).
  - exact (thumbnail_owner_mismatch cfg r x w videoID userID metadata
             Hid Htoken Huser Hrecord Howner).
Qed.

Lemma owner_mismatch_stops_after_form_witness :
  handlerUploadVideo tubelyCfg (uploadBy "mallory" ("video/mp4", None))
    allGood world0
  = (Returns tt,
     mkWorld (db world0) (files world0 ∪ ∅) (s3 world0)
       [ParseMultipartForm (Z.shiftl 10 30); FormFile "video";
        DBGetVideo (ID draftVideo);
        RespondWithError http_StatusUnauthorized
          "User does not have access to this video"]).
Proof.
  refine (proj1 (owner_mismatch_stops_after_form tubelyCfg
                   (uploadBy "mallory" ("video/mp4", None)) allGood world0
                   (ID draftVideo) "mallory" draftVideo eq_refl _ eq_refl
                   eq_refl _ handlerUploadVideo (Z.shiftl 10 30) "video"
                   (or_introl eq_refl)));
    discriminate.
Defined.

(** C2 as stated fails on two requests of a caller who is not the owner.
    A png of 20 MiB is above the 10 MiB that the thumbnail handler lets the
    form reader keep in memory: when the handler returns its 401, a
    temporary file that did not exist before holds the part.  And a body
    that is not a multipart form is answered 400, not with the
    authorization error: the record is not even read. *)
Lemma owner_mismatch_large_part :
  let spilled :=
    handlerUploadThumbnail tubelyCfg largeThumbnail allGood world0 in
  let broken := handlerUploadVideo tubelyCfg brokenForm allGood world0 in
  db world0 !! ID draftVideo = Some draftVideo
  /\ reqUserID largeThumbnail = Some "mallory"
  /\ reqUserID brokenForm = Some "mallory"
  /\ UserID draftVideo <> "mallory"
  /\ files world0 = ∅
  /\ files (snd spilled) = {["/tmp/multipart-1592653589"]}
  /\ trace (snd spilled)
     = [ParseMultipartForm (Z.shiftl 10 20); FormFile "thumbnail";
        DBGetVideo (ID draftVideo);
        RespondWithError http_StatusUnauthorized
          "User does not have access to this video"]
  /\ trace (snd broken)
     = [ParseMultipartForm (Z.shiftl 10 30);
        RespondWithError http_StatusBadRequest "Unable to parse form"].
Proof.
  cbv zeta.
  split; [reflexivity |]. split; [reflexivity |]. split; [reflexivity |].
  split; [discriminate |]. split; [reflexivity |].
  split; [| split; vm_compute; reflexivity].
  vm_compute files. reflexivity.
Qed.

(** ** handlerUploadVideo: from the record step on *)

Section RecordStep.

Context (cfg : apiConfig) (r : Request) (x : Externals) (w : World).
Context (videoID token userID mediaType suffix key : string).
Context (headerErr : error) (metadata : Video).
Context (first : Stream) (rest : list Stream).
Hypothesis Hid : reqVideoID r = Some videoID.
Hypothesis Htoken : reqToken r = Some token.
Hypothesis Huser : reqUserID r = Some userID.
Hypothesis Hform : reqFormParses r = true.
Hypothesis Hfile : reqFormFile r = Some (mediaType, headerErr).
Hypothesis Hrecord : db w !! videoID = Some metadata.
Hypothesis Howner : UserID metadata = userID.
Hypothesis Htemp : xTempSuffix x = Some suffix.
Hypothesis Hkey : getFilename mediaType (xEntropy x) = Returns (key, None).
Hypothesis Hprobe : xProbe x = ProbeReports {| Streams := first :: rest |}.

Let aspectRatio := classify (Width first) (Height first).
Let storageKey := default "" (prefixes !! aspectRatio) +:+ "/" +:+ key.
Let updated :=
  setVideoURL metadata (Some (s3Bucket cfg +:+ "," +:+ storageKey)).
Let processed := ("/tmp/tubely-upload.mp4" +:+ suffix) +:+ ".processed".

(** Once the key is generated and the probe has reported a stream, every
    run updates the record exactly once, with bucket and prefixed key,
    and puts at most one object, under that key; the update is in the
    store whatever happens afterwards, and nothing is in the object store
    when [ffmpeg] or [PutObject] fails. *)
Lemma video_record_step (res : result unit) (w' : World) :
  handlerUploadVideo cfg r x w = (res, w') ->
  exists events,
    trace w' = (trace w ++ events)%list
    /\ updatesOf events = [updated]
    /\ (putsOf events = []
        \/ putsOf events
           = [(s3Bucket cfg, storageKey, processed, mediaType)])
    /\ db w' = (if xUpdateOK x then <[ID metadata := updated]> (db w)
                else db w)
    /\ (xFfmpeg x <> FfmpegSucceeds \/ xPutOK x = false -> s3 w' = s3 w).
Proof.
  unfold_body. rewrite Hid, Htoken, Huser, Hform, Hfile. steps.
  rewrite Hrecord. steps.
  rewrite (bool_decide_eq_true_2 _ Howner). steps.
  rewrite Htemp. steps.
  rewrite Hkey. steps.
  unfold getVideoAspectRatio at 1. rewrite Hprobe. steps.
  split_paths x.
  all: final_world.
  all: eexists; (split; [rewrite <- ?app_assoc; reflexivity |]).
  all: summarize.
  all: repeat split; try reflexivity; auto; try (intros [? | ?]; congruence).
Qed.

End RecordStep.



(** Whatever happens after the record step, the update stays: with the
    update accepted by the store and [ffmpeg] or [PutObject] failing, the
    record holds the new location and the object store holds nothing new. *)
Lemma record_update_survives_failure (cfg : apiConfig) (r : Request)
  (x : Externals) (w : World)
  (videoID token userID mediaType suffix key : string)
  (headerErr : error) (metadata : Video) (first : Stream)
  (rest : list Stream) :
  reqVideoID r = Some videoID ->
  reqToken r = Some token ->
  reqUserID r = Some userID ->
  reqFormParses r = true ->
  reqFormFile r = Some (mediaType, headerErr) ->
  db w !! videoID = Some metadata ->
  ID metadata = videoID ->
  UserID metadata = userID ->
  xTempSuffix x = Some suffix ->
  getFilename mediaType (xEntropy x) = Returns (key, None) ->
  xProbe x = ProbeReports {| Streams := first :: rest |} ->
  xUpdateOK x = true ->
  xFfmpeg x <> FfmpegSucceeds \/ xPutOK x = false ->
  let w' := snd (handlerUploadVideo cfg r x w) in
  db w' !! videoID
  = Some (setVideoURL metadata
            (Some (s3Bucket cfg +:+ ","
                   +:+ default ""
                         (prefixes !! classify (Width first) (Height first))
                   +:+ "/" +:+ key)))
  /\ s3 w' = s3 w.
Proof.
  intros Hid Htoken Huser Hform Hfile Hrecord Hkeyed Howner Htemp Hkey Hprobe
    Hok Hfails w'.
  destruct (video_record_step cfg r x w videoID token userID mediaType suffix
              key headerErr metadata first rest Hid Htoken Huser Hform Hfile
              Hrecord Howner Htemp Hkey Hprobe
              (fst (handlerUploadVideo cfg r x w)) w')
    as (events & _ & _ & _ & Hdb & Hs3).
  { subst w'. now destruct (handlerUploadVideo cfg r x w). }
  split; [| exact (Hs3 Hfails)].
  rewrite Hdb, Hok, Hkeyed. apply lookup_insert_eq.
Qed.

(** C1, at the failing inputs: an mp4 upload by the owner for which
    [ffmpeg] exits with status 1, and one for which [PutObject] fails.  In
    both runs [UpdateVideo] is called before [ffmpeg] is started, the
    request ends with a 500 response, the metadata store holds the new
    video location and the object store is empty. *)
Theorem record_written_before_publish :
  let w1 := snd (handlerUploadVideo tubelyCfg mp4Upload transcodeFails world0) in
  let w2 := snd (handlerUploadVideo tubelyCfg mp4Upload publishFails world0) in
  let updated := setVideoURL draftVideo (Some landscapeLocation) in
  trace w1
  = [ParseMultipartForm (Z.shiftl 10 30);
     FormFile "video";
     DBGetVideo (ID draftVideo);
     OSCreateTemp (Some stagedName);
     IOCopy (Some stagedName);
     FileSeek (Some stagedName);
     Exec "ffprobe" (ffprobeArgs stagedName);
     DBUpdateVideo updated;
     Exec "ffmpeg" (ffmpegArgs stagedName (stagedName +:+ ".processed"));
     RespondWithError 500 "Unable to upload video to s3";
     OSRemove "/tmp/tubely-upload.mp4"]
  /\ db w1 !! ID draftVideo = Some updated
  /\ s3 w1 = ∅
  /\ trace w2
     = [ParseMultipartForm (Z.shiftl 10 30);
        FormFile "video";
        DBGetVideo (ID draftVideo);
        OSCreateTemp (Some stagedName);
        IOCopy (Some stagedName);
        FileSeek (Some stagedName);
        Exec "ffprobe" (ffprobeArgs stagedName);
        DBUpdateVideo updated;
        Exec "ffmpeg" (ffmpegArgs stagedName (stagedName +:+ ".processed"));
        OSOpen (stagedName +:+ ".processed");
        S3PutObject "tubely-private" ("landscape/" +:+ randomName +:+ ".mp4")
          (stagedName +:+ ".processed") "video/mp4";
        RespondWithError 500 "Unable to upload video to S3";
        OSRemove (stagedName +:+ ".processed");
        OSRemove "/tmp/tubely-upload.mp4"]
  /\ db w2 !! ID draftVideo = Some updated
  /\ s3 w2 = ∅.
Proof. vm_compute. repeat split; reflexivity. Qed.

(** ** handlerUploadVideo: from the media type check on *)

Section AllPaths.

Context (cfg : apiConfig) (r : Request) (x : Externals) (w : World).
Context (videoID token userID mediaType : string).
Context (headerErr : error) (metadata : Video).
Hypothesis Hid : reqVideoID r = Some videoID.
Hypothesis Htoken : reqToken r = Some token.
Hypothesis Huser : reqUserID r = Some userID.
Hypothesis Hform : reqFormParses r = true.
Hypothesis Hfile : reqFormFile r = Some (mediaType, headerErr).
Hypothesis Hrecord : db w !! videoID = Some metadata.
Hypothesis Howner : UserID metadata = userID.

Let staged :=
  option_map (fun suffix => "/tmp/tubely-upload.mp4" +:+ suffix)
    (xTempSuffix x).

(** For every request of the owner, whatever the collaborators answer:
    the temporary file is requested right after the media type check,
    whether or not that check has answered 400; a temporary file that was
    created still exists when the handler is over; and a media type
    without ["/"] makes the handler panic in [getFilename]. *)
Lemma video_staging_paths (res : result unit) (w' : World) :
  handlerUploadVideo cfg r x w = (res, w') ->
  (exists post,
     trace w'
     = (trace w
        ++ [ParseMultipartForm (Z.shiftl 10 30); FormFile "video";
            DBGetVideo videoID]
        ++ (if isErr headerErr
            then [RespondWithError http_StatusInternalServerError
                    "Unable to parse Content-Type header"]
            else [])
        ++ (if negb (bool_decide (mediaType = "video/mp4"))
            then [RespondWithError http_StatusBadRequest
                    "Video must be in mp4 format"]
            else [])
        ++ [OSCreateTemp staged] ++ post)%list)
  /\ (forall suffix, xTempSuffix x = Some suffix -> suffix <> "" ->
        "/tmp/tubely-upload.mp4" +:+ suffix ∈ files w')
  /\ (containsByte "/" mediaType = false ->
        res = Panics "runtime error: index out of range [1] with length 1").
Proof.
  unfold_body. rewrite Hid, Htoken, Huser, Hform, Hfile. steps.
  rewrite Hrecord. steps.
  rewrite (bool_decide_eq_true_2 _ Howner). steps.
  subst staged.
  destruct (xTempSuffix x) as [suffix|]; steps.
  all: destruct (getFilename mediaType (xEntropy x))
         as [[key [e|]] | msg] eqn:Hkey; steps.
  all: split_paths x.
  all: final_world.
  all: (split; [eexists; rewrite <- ?app_assoc; cbn [app]; reflexivity |]).
  all: split;
    [| intros Hns; rewrite (getFilename_without_slash _ _ Hns) in Hkey;
       congruence].
  all: try (intros ? [=]; fail).
  all: intros ? [= <-] Hne.
  all: change ("/tmp" +:+ "/" +:+ "tubely-upload.mp4" +:+ suffix)
         with ("/tmp/tubely-upload.mp4" +:+ suffix).
  all: pose proof (append_neq_self "/tmp/tubely-upload.mp4" suffix Hne).
  all: pose proof (append_neq_self ("/tmp/tubely-upload.mp4" +:+ suffix)
                     ".processed" ltac:(discriminate)).
  all: set_solver.
Qed.

End AllPaths.

(** C3, at the failing input: an upload by the owner whose part is declared
    "video/avi".  The handler answers 400 "Video must be in mp4 format" and
    goes on: it creates the temporary file, copies the upload, runs
    [ffprobe] and [ffmpeg], updates the record and puts the object, under a
    key ending in ".avi". *)
Theorem avi_upload_runs_whole_pipeline :
  let run := handlerUploadVideo tubelyCfg (uploadBy "alice" ("video/avi", None))
               allGood world0 in
  let key := "landscape/" +:+ randomName +:+ ".avi" in
  let updated :=
    setVideoURL draftVideo (Some ("tubely-private," +:+ key)) in
  fst run = Returns tt
  /\ trace (snd run)
     = [ParseMultipartForm (Z.shiftl 10 30);
        FormFile "video";
        DBGetVideo (ID draftVideo);
        RespondWithError 400 "Video must be in mp4 format";
        OSCreateTemp (Some stagedName);
        IOCopy (Some stagedName);
        FileSeek (Some stagedName);
        Exec "ffprobe" (ffprobeArgs stagedName);
        DBUpdateVideo updated;
        Exec "ffmpeg" (ffmpegArgs stagedName (stagedName +:+ ".processed"));
        OSOpen (stagedName +:+ ".processed");
        S3PutObject "tubely-private" key (stagedName +:+ ".processed")
          "video/avi";
        OSRemove (stagedName +:+ ".processed");
        OSRemove "/tmp/tubely-upload.mp4"]
  /\ db (snd run) !! ID draftVideo = Some updated
  /\ s3 (snd run) !! ("tubely-private", key)
     = Some {| Body := stagedName +:+ ".processed"; ContentType := "video/avi" |}.
Proof. vm_compute. repeat split; reflexivity. Qed.

(** C4, at the failing inputs: a successful mp4 upload, and one for which
    [ffmpeg] fails.  [os.CreateTemp] names the staged file
    "/tmp/tubely-upload.mp4" followed by random text; the deferred
    [os.Remove] names "/tmp/tubely-upload.mp4"; so when the handler is over
    the staged file is still on the disk, after success and after
    failure. *)
Theorem staged_file_left_behind :
  let ok := snd (handlerUploadVideo tubelyCfg mp4Upload allGood world0) in
  let failed :=
    snd (handlerUploadVideo tubelyCfg mp4Upload transcodeFails world0) in
  trace ok
  = [ParseMultipartForm (Z.shiftl 10 30);
     FormFile "video";
     DBGetVideo (ID draftVideo);
     OSCreateTemp (Some stagedName);
     IOCopy (Some stagedName);
     FileSeek (Some stagedName);
     Exec "ffprobe" (ffprobeArgs stagedName);
     DBUpdateVideo (setVideoURL draftVideo (Some landscapeLocation));
     Exec "ffmpeg" (ffmpegArgs stagedName (stagedName +:+ ".processed"));
     OSOpen (stagedName +:+ ".processed");
     S3PutObject "tubely-private" ("landscape/" +:+ randomName +:+ ".mp4")
       (stagedName +:+ ".processed") "video/mp4";
     OSRemove (stagedName +:+ ".processed");
     OSRemove "/tmp/tubely-upload.mp4"]
  /\ files ok = {[ stagedName ]}
  /\ stagedName <> "/tmp/tubely-upload.mp4"
  /\ last (trace failed) = Some (OSRemove "/tmp/tubely-upload.mp4")
  /\ files failed = {[ stagedName ]}.
Proof.
  split; [vm_compute; reflexivity |].
  split; [vm_compute; reflexivity |].
  split; [intros H; apply (f_equal String.length) in H; discriminate |].
  split; vm_compute; reflexivity.
Qed.

(** C9, at the failing input: an upload by the owner whose part has no
    Content-Type header, for which [mime.ParseMediaType] returns the empty
    media type with an error.  Both handlers answer 500 and 400 and go on to
    [getFilename], which panics on the missing second piece; the video
    handler has staged the upload by then. *)
Theorem unvalidated_media_type_panics :
  let r := uploadBy "alice" ("", Some "mime: no media type") in
  let video := handlerUploadVideo tubelyCfg r allGood world0 in
  let thumbnail := handlerUploadThumbnail tubelyCfg r allGood world0 in
  fst video = Panics "runtime error: index out of range [1] with length 1"
  /\ trace (snd video)
     = [ParseMultipartForm (Z.shiftl 10 30);
        FormFile "video";
        DBGetVideo (ID draftVideo);
        RespondWithError 500 "Unable to parse Content-Type header";
        RespondWithError 400 "Video must be in mp4 format";
        OSCreateTemp (Some stagedName);
        IOCopy (Some stagedName);
        FileSeek (Some stagedName);
        OSRemove "/tmp/tubely-upload.mp4"]
  /\ fst thumbnail
     = Panics "runtime error: index out of range [1] with length 1"
  /\ trace (snd thumbnail)
     = [ParseMultipartForm (Z.shiftl 10 20);
        FormFile "thumbnail";
        DBGetVideo (ID draftVideo);
        RespondWithError 500 "Unable to parse Content-Type header";
        RespondWithError 400
          "Thumbnail must be image/png or image/jpeg mime type"].
Proof. vm_compute. repeat split; reflexivity. Qed.

(** * Further properties *)

(** ** strings.Split *)

Section SplitFacts.

Lemma strings_Split_length (s : string) (sep : ascii) :
  length (strings_Split s sep) = S (countByte sep s).
Proof.
  induction s as [|c s IH]; [reflexivity |].
  cbn [strings_Split countByte].
  destruct (Ascii.eqb c sep); cbn [length]; [now rewrite IH |].
  destruct (strings_Split s sep) as [|p ps]; [discriminate IH |].
  cbn [length] in *. lia.
Qed.

(** No piece holds the separator. *)
Lemma strings_Split_pieces (s : string) (sep : ascii) :
  Forall (fun piece => containsByte sep piece = false) (strings_Split s sep).
Proof.
  induction s as [|c s IH]; cbn [strings_Split].
  - repeat constructor.
  - destruct (Ascii.eqb c sep) eqn:E.
    + constructor; [reflexivity | exact IH].
    + destruct (strings_Split s sep) as [|p ps];
        [repeat constructor; cbn; now rewrite E |].
      inversion IH as [|? ? Hp Hps]; subst.
      constructor; [cbn; now rewrite E, Hp | exact Hps].
Qed.

Lemma strings_Join_cons (piece : string) (rest : list string) (sep : ascii) :
  rest <> [] ->
  strings_Join (piece :: rest) sep
  = piece +:+ String sep (strings_Join rest sep).
Proof. destruct rest; [congruence | reflexivity]. Qed.

(** Joining the pieces with the separator gives the string back. *)
Lemma strings_Join_Split (s : string) (sep : ascii) :
  strings_Join (strings_Split s sep) sep = s.
Proof.
  induction s as [|c s IH]; [reflexivity |].
  cbn [strings_Split].
  pose proof (strings_Split_nonempty s sep) as Hn.
  destruct (Ascii.eqb_spec c sep) as [-> | Hne].
  - rewrite (strings_Join_cons _ _ _ Hn), IH. reflexivity.
  - destruct (strings_Split s sep) as [|p ps]; [congruence |].
    destruct ps as [|q qs]; [cbn in *; congruence |].
    rewrite strings_Join_cons by discriminate.
    rewrite strings_Join_cons in IH by discriminate.
    rewrite <- IH. reflexivity.
Qed.

Lemma append_inj_length (a b c d : string) :
  String.length a = String.length b -> a +:+ c = b +:+ d -> a = b /\ c = d.
Proof.
  revert b; induction a as [|x a IH]; intros [|y b]; cbn; try discriminate.
  - auto.
  - intros [= Hlen] [= -> H]. destruct (IH b Hlen H) as [-> ->]. auto.
Qed.

Lemma base64_no_slash (src : list byte) :
  containsByte "/" (base64_RawURLEncoding_EncodeToString src) = false.
Proof.
  induction src as [| a | a b | a b c l IH] using list_ind3;
    cbn [base64_RawURLEncoding_EncodeToString containsByte];
    rewrite ?IH;
    repeat match goal with
      | |- context [Ascii.eqb (encodeURL_at ?i) "/"%char] =>
          rewrite (proj2 (Ascii.eqb_neq _ _) (proj2 (encodeURL_at_plain i)))
      end; reflexivity.
Qed.

End SplitFacts.

(** ** base64: the encoding loses nothing *)

Section Base64Injective.

Lemma byteZ_range (b : byte) : 0 <= byteZ b < 256.
Proof. unfold byteZ. pose proof (Byte.to_N_bounded b). lia. Qed.

Lemma byteZ_inj (a b : byte) : byteZ a = byteZ b -> a = b.
Proof.
  unfold byteZ. intros H. apply N2Z.inj in H.
  pose proof (Byte.of_to_N a) as Ha. rewrite H, Byte.of_to_N in Ha.
  congruence.
Qed.

Lemma lor_shiftl_add (a b n : Z) :
  0 <= n -> 0 <= b < 2 ^ n -> Z.lor (Z.shiftl a n) b = a * 2 ^ n + b.
Proof.
  intros Hn Hb. rewrite <- Z.shiftl_mul_pow2 by lia.
  symmetry. apply Z.add_nocarry_lor.
  apply Z.bits_inj'. intros m Hm.
  rewrite Z.land_spec, Z.bits_0.
  destruct (Z.lt_ge_cases m n) as [Hlt | Hge].
  - now rewrite Z.shiftl_spec_low.
  - rewrite <- (Z.mod_small b (2 ^ n)) by lia.
    rewrite Z.mod_pow2_bits_high by lia. apply andb_false_r.
Qed.

(** The 24-bit value the encoder builds from three bytes. *)
Lemma group_value (a b c : Z) :
  0 <= a < 256 -> 0 <= b < 256 -> 0 <= c < 256 ->
  Z.lor (Z.lor (Z.shiftl a 16) (Z.shiftl b 8)) c = a * 65536 + b * 256 + c.
Proof.
  intros Ha Hb Hc.
  assert (E : Z.lor (Z.shiftl a 16) (Z.shiftl b 8) = Z.shiftl (a * 256 + b) 8).
  { rewrite (Z.shiftl_mul_pow2 b 8), (Z.shiftl_mul_pow2 (a * 256 + b) 8) by lia.
    rewrite lor_shiftl_add by lia. lia. }
  rewrite E, lor_shiftl_add by lia. lia.
Qed.

Lemma sextet (val k : Z) :
  0 <= k -> Z.land (Z.shiftr val k) 63 = (val / 2 ^ k) mod 64.
Proof.
  intros Hk. rewrite Z.shiftr_div_pow2 by lia.
  change 63 with (Z.ones 6). now rewrite Z.land_ones by lia.
Qed.

Lemma sextet_range (val k : Z) : 0 <= Z.land (Z.shiftr val k) 63 < 64.
Proof.
  change 63 with (Z.ones 6). rewrite Z.land_ones by lia.
  apply Z.mod_pos_bound. lia.
Qed.

Lemma encodeURL_at_inj_check :
  forallZ 0 64 (fun i => forallZ 0 64 (fun j =>
     implb (Ascii.eqb (encodeURL_at i) (encodeURL_at j)) (i =? j))) = true.
Proof. vm_compute. reflexivity. Qed.

(** The 64 characters of the alphabet are distinct. *)
Lemma encodeURL_at_inj (i j : Z) :
  0 <= i < 64 -> 0 <= j < 64 -> encodeURL_at i = encodeURL_at j -> i = j.
Proof.
  intros Hi Hj H.
  pose proof (forallZ_spec _ _ _ encodeURL_at_inj_check i ltac:(cbn; lia))
    as H1.
  pose proof (forallZ_spec _ _ _ H1 j ltac:(cbn; lia)) as H2.
  cbv beta in H2. rewrite H, Ascii.eqb_refl in H2. cbn in H2. lia.
Qed.

Lemma sextet_inj (va vb k : Z) :
  0 <= k ->
  encodeURL_at (Z.land (Z.shiftr va k) 63)
  = encodeURL_at (Z.land (Z.shiftr vb k) 63) ->
  (va / 2 ^ k) mod 64 = (vb / 2 ^ k) mod 64.
Proof.
  intros Hk H. rewrite <- !sextet by lia.
  apply encodeURL_at_inj; auto using sextet_range.
Qed.

Lemma group_inj (a0 a1 a2 b0 b1 b2 : Z) :
  0 <= a0 < 256 -> 0 <= a1 < 256 -> 0 <= a2 < 256 ->
  0 <= b0 < 256 -> 0 <= b1 < 256 -> 0 <= b2 < 256 ->
  let va := a0 * 65536 + a1 * 256 + a2 in
  let vb := b0 * 65536 + b1 * 256 + b2 in
  (va / 2 ^ 18) mod 64 = (vb / 2 ^ 18) mod 64 ->
  (va / 2 ^ 12) mod 64 = (vb / 2 ^ 12) mod 64 ->
  (va / 2 ^ 6) mod 64 = (vb / 2 ^ 6) mod 64 ->
  (a2 = 0 /\ b2 = 0) \/ (va / 2 ^ 0) mod 64 = (vb / 2 ^ 0) mod 64 ->
  a0 = b0 /\ a1 = b1 /\ a2 = b2.
Proof.
  intros ? ? ? ? ? ? va vb. subst va vb.
  change (2 ^ 18) with 262144. change (2 ^ 12) with 4096.
  change (2 ^ 6) with 64. change (2 ^ 0) with 1.
  intros. Z.to_euclidean_division_equations. lia.
Qed.

End Base64Injective.

Section Base64Lists.

Lemma group1_inj (a0 b0 : Z) :
  0 <= a0 < 256 -> 0 <= b0 < 256 ->
  ((a0 * 65536) / 2 ^ 18) mod 64 = ((b0 * 65536) / 2 ^ 18) mod 64 ->
  ((a0 * 65536) / 2 ^ 12) mod 64 = ((b0 * 65536) / 2 ^ 12) mod 64 ->
  a0 = b0.
Proof.
  change (2 ^ 18) with 262144. change (2 ^ 12) with 4096.
  intros. Z.to_euclidean_division_equations. lia.
Qed.

(** Byte lists of the same length with the same encoding are equal. *)
Lemma base64_inj (src : list byte) :
  forall src', length src = length src' ->
  base64_RawURLEncoding_EncodeToString src
  = base64_RawURLEncoding_EncodeToString src' ->
  src = src'.
Proof.
  induction src as [| a | a b | a b c l IH] using list_ind3;
    intros src' Hlen Henc.
  - destruct src'; [reflexivity | discriminate].
  - destruct src' as [|a' [|? ?]]; try discriminate.
    cbn [base64_RawURLEncoding_EncodeToString] in Henc.
    injection Henc as H18 H12.
    apply sextet_inj in H18; [| lia]. apply sextet_inj in H12; [| lia].
    rewrite !Z.shiftl_mul_pow2 in H18, H12 by lia.
    change (2 ^ 16) with 65536 in *.
    f_equal. apply byteZ_inj.
    apply (group1_inj _ _ (byteZ_range a) (byteZ_range a') H18 H12).
  - destruct src' as [|a' [|b' [|? ?]]]; try discriminate.
    cbn [base64_RawURLEncoding_EncodeToString] in Henc.
    injection Henc as H18 H12 H6.
    apply sextet_inj in H18; [| lia]. apply sextet_inj in H12; [| lia].
    apply sextet_inj in H6; [| lia].
    pose proof (byteZ_range a). pose proof (byteZ_range a').
    pose proof (byteZ_range b). pose proof (byteZ_range b').
    assert (E : forall p q, 0 <= p < 256 -> 0 <= q < 256 ->
                Z.lor (Z.shiftl p 16) (Z.shiftl q 8)
                = p * 65536 + q * 256 + 0).
    { intros p q Hp Hq. rewrite <- (group_value p q 0) by lia.
      now rewrite Z.lor_0_r. }
    rewrite !E in H18, H12, H6 by assumption.
    destruct (group_inj (byteZ a) (byteZ b) 0 (byteZ a') (byteZ b') 0
                ltac:(assumption) ltac:(assumption) ltac:(lia)
                ltac:(assumption) ltac:(assumption) ltac:(lia)
                H18 H12 H6 ltac:(left; split; reflexivity))
      as (Ha & Hb & _).
    apply byteZ_inj in Ha, Hb. now subst.
  - destruct src' as [|a' [|b' [|c' l']]]; try discriminate.
    cbn [base64_RawURLEncoding_EncodeToString] in Henc.
    injection Henc as H18 H12 H6 H0 Hrest.
    apply sextet_inj in H18; [| lia]. apply sextet_inj in H12; [| lia].
    apply sextet_inj in H6; [| lia].
    rewrite <- (Z.shiftr_0_r (Z.lor _ (byteZ c))) in H0.
    rewrite <- (Z.shiftr_0_r (Z.lor _ (byteZ c'))) in H0.
    apply sextet_inj in H0; [| lia].
    pose proof (byteZ_range a). pose proof (byteZ_range a').
    pose proof (byteZ_range b). pose proof (byteZ_range b').
    pose proof (byteZ_range c). pose proof (byteZ_range c').
    rewrite !group_value in H18, H12, H6, H0 by assumption.
    destruct (group_inj (byteZ a) (byteZ b) (byteZ c)
                (byteZ a') (byteZ b') (byteZ c')
                ltac:(assumption) ltac:(assumption) ltac:(assumption)
                ltac:(assumption) ltac:(assumption) ltac:(assumption)
                H18 H12 H6 (or_intror H0))
      as (Ha & Hb & Hc).
    apply byteZ_inj in Ha, Hb, Hc. subst.
    f_equal. f_equal. f_equal. apply IH; [cbn in Hlen; lia | exact Hrest].
Qed.

End Base64Lists.

(** ** helpers.go: getFilename, whatever the media type *)

Section GetFilenameAll.

(** What a successful call has done. *)
Lemma getFilename_inv (mediaType : string) (entropy : list byte)
  (key : string) :
  getFilename mediaType entropy = Returns (key, None) ->
  exists subtype,
    strings_Split mediaType "/" !! 1%nat = Some subtype
    /\ (32 <= length entropy)%nat
    /\ key = base64_RawURLEncoding_EncodeToString (take 32 entropy)
             +:+ "." +:+ subtype.
Proof.
  unfold getFilename.
  destruct (strings_Split mediaType "/" !! 1%nat) as [subtype|];
    [| discriminate].
  unfold rand_Read.
  destruct (Nat.ltb_spec (length entropy) 32) as [Hlt | Hge]; cbn.
  - discriminate.
  - intros [= <-]. exists subtype. auto.
Qed.

(** The key is one path component: it holds no ["/"], whatever the media
    type; its extension is the second piece of the media type and nothing
    after it. *)
Theorem getFilename_single_component (mediaType : string)
  (entropy : list byte) (key : string) :
  getFilename mediaType entropy = Returns (key, None) ->
  containsByte "/" key = false
  /\ exists subtype,
       strings_Split mediaType "/" !! 1%nat = Some subtype
       /\ containsByte "/" subtype = false
       /\ key = base64_RawURLEncoding_EncodeToString (take 32 entropy)
                +:+ "." +:+ subtype.
Proof.
  intros H. destruct (getFilename_inv _ _ _ H) as (subtype & Hsub & _ & ->).
  assert (Hplain : containsByte "/" subtype = false).
  { pose proof (strings_Split_pieces mediaType "/") as Hall.
    rewrite List.Forall_forall in Hall. apply Hall.
    apply list_elem_of_In. eapply list_elem_of_lookup_2. exact Hsub. }
  split; [| exists subtype; auto].
  rewrite !containsByte_append, base64_no_slash, Hplain. reflexivity.
Qed.

Lemma getFilename_single_component_witness :
  containsByte "/" "AAECAwQFBgcICQoLDA0OD_Dx8vP09fb3-Pn6-_z9_v8.svg+xml" = false.
Proof.
  exact (proj1 (getFilename_single_component "image/svg+xml/../x" entropy32
                  "AAECAwQFBgcICQoLDA0OD_Dx8vP09fb3-Pn6-_z9_v8.svg+xml"
                  ltac:(vm_compute; reflexivity))).
Defined.

(** Two successful calls return the same key only when they read the same
    32 random bytes (and the media types had the same second piece): the
    key loses nothing of the randomness. *)
Theorem getFilename_injective (mediaType mediaType' : string)
  (entropy entropy' : list byte) (key : string) :
  getFilename mediaType entropy = Returns (key, None) ->
  getFilename mediaType' entropy' = Returns (key, None) ->
  take 32 entropy = take 32 entropy'
  /\ strings_Split mediaType "/" !! 1%nat
     = strings_Split mediaType' "/" !! 1%nat.
Proof.
  intros H H'.
  destruct (getFilename_inv _ _ _ H) as (sub & Hsub & Hlen & Hkey).
  destruct (getFilename_inv _ _ _ H') as (sub' & Hsub' & Hlen' & Hkey').
  rewrite Hkey in Hkey'.
  assert (L : forall e : list byte, (32 <= length e)%nat ->
              length (take 32 e) = 32%nat).
  { intros e He. rewrite length_take. lia. }
  apply append_inj_length in Hkey' as [Henc Hext].
  - split.
    + apply base64_inj; [now rewrite !L | exact Henc].
    + apply (append_inj_length "." "." sub sub' eq_refl) in Hext as [_ Hs].
      rewrite Hsub, Hsub'. congruence.
  - now rewrite !base64_length_32 by now apply L.
Qed.

Lemma getFilename_injective_witness :
  take 32 entropy32 = take 32 (entropy32 ++ [x2a; x2b])%list.
Proof.
  exact (proj1 (getFilename_injective "video/mp4" "audio/mp4" entropy32
                  (entropy32 ++ [x2a; x2b])%list
                  "AAECAwQFBgcICQoLDA0OD_Dx8vP09fb3-Pn6-_z9_v8.mp4"
                  ltac:(vm_compute; reflexivity)
                  ltac:(vm_compute; reflexivity))).
Defined.

End GetFilenameAll.

(** ** helpers.go: dbVideoToSignedVideo, every location string *)

Section SignedVideoAll.

Lemma strings_Split_two (s a b : string) (sep : ascii) :
  strings_Split s sep = [a; b] ->
  s = a +:+ String sep b
  /\ containsByte sep a = false /\ containsByte sep b = false.
Proof.
  intros H. pose proof (strings_Join_Split s sep) as Hjoin.
  pose proof (strings_Split_pieces s sep) as Hall.
  rewrite H in Hjoin, Hall. cbn [strings_Join] in Hjoin.
  inversion Hall as [|? ? Ha Hrest].
  inversion Hrest as [|? ? Hb _].
  auto.
Qed.

(** A stored location is accepted exactly when it holds one comma: then
    it is [bucket + "," + key] for the comma-free bucket and key that are
    signed; any other location, with no comma or with several, gives the
    zero record and the error that quotes it. *)
Theorem dbVideoToSignedVideo_format (x : Externals) (video : Video)
  (url : string) :
  VideoURL video = Some url ->
  (countByte "," url <> 1%nat ->
   dbVideoToSignedVideo x video
   = (zeroVideo,
      Some ("invalid video URL format: expected bucket,key got " +:+ url)))
  /\ (countByte "," url = 1%nat ->
      exists bucket key,
        url = bucket +:+ "," +:+ key
        /\ containsByte "," bucket = false
        /\ containsByte "," key = false
        /\ dbVideoToSignedVideo x video
           = (if isErr (snd (xPresign x bucket key time_Hour))
              then (zeroVideo, snd (xPresign x bucket key time_Hour))
              else (setVideoURL video
                      (Some (fst (xPresign x bucket key time_Hour))),
                    None))).
Proof.
  intros Hurl.
  pose proof (strings_Split_length url ",") as Hlen.
  unfold dbVideoToSignedVideo, generatePresignedURL. rewrite Hurl.
  destruct (strings_Split url ",") as [|a [|b [|c rest]]] eqn:Hsplit;
    cbn [length] in Hlen.
  - discriminate.
  - split; [reflexivity | intros H1; rewrite H1 in Hlen; discriminate].
  - split; [intros Hne; exfalso; apply Hne; lia |].
    intros _. exists a, b.
    destruct (strings_Split_two _ _ _ _ Hsplit) as (-> & Ha & Hb).
    repeat split; auto.
    destruct (xPresign x a b time_Hour) as [signed [e|]]; reflexivity.
  - split; [reflexivity | intros H1; rewrite H1 in Hlen; discriminate].
Qed.

Lemma dbVideoToSignedVideo_format_witness :
  dbVideoToSignedVideo allGood
    (setVideoURL draftVideo
       (Some "https://tubely-public.s3.us-east-2.amazonaws.com/AAEC.mp4"))
  = (zeroVideo,
     Some ("invalid video URL format: expected bucket,key got "
           +:+ "https://tubely-public.s3.us-east-2.amazonaws.com/AAEC.mp4")).
Proof.
  refine (proj1 (dbVideoToSignedVideo_format allGood
                   (setVideoURL draftVideo
                      (Some "https://tubely-public.s3.us-east-2.amazonaws.com/AAEC.mp4"))
                   "https://tubely-public.s3.us-east-2.amazonaws.com/AAEC.mp4"
                   eq_refl) _).
  vm_compute. discriminate.
Defined.

(** Signing changes the video location and nothing else: on success the
    identifier, the owner, the thumbnail location and the title are those
    of the argument and a location is present exactly when one was; on
    error the result is the zero record, and only a record with a location
    can give an error. *)
Theorem dbVideoToSignedVideo_fields (x : Externals) (video video' : Video)
  (err : error) :
  dbVideoToSignedVideo x video = (video', err) ->
  (err = None ->
   ID video' = ID video /\ UserID video' = UserID video
   /\ ThumbnailURL video' = ThumbnailURL video /\ Title video' = Title video
   /\ (VideoURL video' = None <-> VideoURL video = None))
  /\ (err <> None -> video' = zeroVideo /\ VideoURL video <> None).
Proof.
  unfold dbVideoToSignedVideo, generatePresignedURL.
  destruct (VideoURL video) as [url|] eqn:Hurl.
  - destruct (strings_Split url ",") as [|a [|b [|c rest]]];
      try (intros [= <- <-]; split; [discriminate | intros _; split;
                                     [reflexivity | discriminate]]).
    destruct (xPresign x a b time_Hour) as [signed [e|]]; cbn;
      intros [= <- <-].
    + split; [discriminate | intros _; split; [reflexivity | discriminate]].
    + split; [| congruence]. intros _. cbn. repeat split; discriminate.
  - intros [= <- <-]. split; [| congruence].
    intros _. rewrite Hurl. tauto.
Qed.

Lemma dbVideoToSignedVideo_fields_witness :
  Title (fst (dbVideoToSignedVideo allGood
                (setVideoURL draftVideo (Some landscapeLocation))))
  = "Boots intro".
Proof.
  pose proof (dbVideoToSignedVideo_fields allGood
                (setVideoURL draftVideo (Some landscapeLocation))
                (fst (dbVideoToSignedVideo allGood
                        (setVideoURL draftVideo (Some landscapeLocation))))
                None ltac:(vm_compute; reflexivity)) as [H _].
  destruct (H eq_refl) as (_ & _ & _ & Htitle & _). exact Htitle.
Defined.

End SignedVideoAll.

(** ** helpers.go: getVideoAspectRatio, failures and missing dimensions *)

Section ProbeEdges.

(** The call runs [ffprobe] once, on the given path, and changes nothing
    else; it fails exactly when the probe gives no stream to classify, with
    the probe's own error or, for an empty stream list, with "no streams
    found in video file", and then returns the empty class; when it
    succeeds the class is one of the three and is that of the first
    stream alone. *)
Theorem getVideoAspectRatio_failures (filepath : string) (x : Externals)
  (w : World) :
  let ret := fst (getVideoAspectRatio filepath x w) in
  snd (getVideoAspectRatio filepath x w)
  = emit (Exec "ffprobe" (ffprobeArgs filepath)) w
  /\ last (ffprobeArgs filepath) = Some filepath
  /\ (probeFails (xProbe x) = true <-> snd ret <> None)
  /\ (snd ret <> None -> fst ret = "")
  /\ (xProbe x = ProbeReports {| Streams := [] |} ->
      ret = ("", Some "no streams found in video file"))
  /\ (forall e, xProbe x = ProbeRunFails e \/ xProbe x = ProbeUnparseable e ->
      ret = ("", Some e))
  /\ (forall first rest,
        xProbe x = ProbeReports {| Streams := first :: rest |} ->
        ret = (classify (Width first) (Height first), None)
        /\ In (fst ret) ["16:9"; "9:16"; "other"]).
Proof.
  unfold getVideoAspectRatio.
  destruct (xProbe x) as [e | e | [[|first rest]]]; cbn [fst snd probeFails];
    (split; [reflexivity |]); (split; [reflexivity |]).
  - repeat split; try congruence; try discriminate.
    intros ? [H | H]; congruence.
  - repeat split; try congruence; try discriminate.
    intros ? [H | H]; congruence.
  - repeat split; try congruence; try discriminate.
    intros ? [H | H]; congruence.
  - split; [split; [discriminate | intros H; now elim H] |].
    split; [intros H; now elim H |]. split; [discriminate |].
    split; [intros ? [H | H]; discriminate |].
    intros ? ? [= <- <-]. split; [reflexivity |].
    cbn [Streams fst snd]. unfold aspectRatioOf.
    repeat match goal with
      | |- context [if ?c then _ else _] => destruct c
      end; cbn [In]; auto.
Qed.

Lemma getVideoAspectRatio_failures_witness :
  fst (getVideoAspectRatio stagedName
         (externals (ProbeReports {| Streams := [] |}) FfmpegSucceeds true)
         world0)
  = ("", Some "no streams found in video file").
Proof.
  exact (proj1 (proj2 (proj2 (proj2 (proj2
    (getVideoAspectRatio_failures stagedName
       (externals (ProbeReports {| Streams := [] |}) FfmpegSucceeds true)
       world0))))) eq_refl).
Defined.

(** A first stream without width or without height (an audio stream, for
    which the probe reports neither) is classified "other", whatever the
    other dimension is and whatever streams follow: the division by zero
    gives an infinity or a NaN, which is in no band. *)
Theorem missing_dimension_is_other (filepath : string) (x : Externals)
  (w : World) (first : Stream) (rest : list Stream) :
  xProbe x = ProbeReports {| Streams := first :: rest |} ->
  Width first = 0 \/ Height first = 0 ->
  fst (getVideoAspectRatio filepath x w) = ("other", None).
Proof.
  intros Hprobe Hzero. unfold getVideoAspectRatio. rewrite Hprobe.
  cbn [Streams fst]. f_equal.
  destruct Hzero as [-> | ->].
  - change (float64_of_int 0) with 0%float. apply aspectRatioOf_zero_width.
  - change (float64_of_int 0) with 0%float. apply aspectRatioOf_zero_height.
Qed.

Lemma missing_dimension_is_other_witness :
  fst (getVideoAspectRatio stagedName
         (externals
            (ProbeReports
               {| Streams := [ {| Width := 0; Height := 0 |};
                               {| Width := 1920; Height := 1080 |} ] |})
            FfmpegSucceeds true) world0)
  = ("other", None).
Proof.
  exact (missing_dimension_is_other stagedName
           (externals
              (ProbeReports
                 {| Streams := [ {| Width := 0; Height := 0 |};
                                 {| Width := 1920; Height := 1080 |} ] |})
              FfmpegSucceeds true)
           world0 {| Width := 0; Height := 0 |}
           [ {| Width := 1920; Height := 1080 |} ] eq_refl
           (or_introl eq_refl)).
Defined.

End ProbeEdges.

(** ** Both handlers: what happens before the ownership check *)

(** A request is checked in the order path identifier, bearer token, JWT,
    multipart form, file part, record.  The first check that fails ends
    the request with a single response, whatever the later checks would
    have said: 400 "Invalid ID", 401 for the token and for the JWT (each
    with the handler's own message), 400 "Unable to parse form", 400
    "Unable to parse uploaded file", 500 "Unable to get video metadata".
    A request refused for its identifier, token or JWT has caused no other
    call.  From the form on, the form has been read with the handler's
    [maxMemory] and the disk holds the temporary files of the parts that
    did not fit; the part is taken only from a form that was read and the
    metadata store is read only once the part is there.  The stores are
    unchanged in every case. *)
Theorem rejected_before_ownership (cfg : apiConfig) (r : Request)
  (x : Externals) (w : World) :
  forall handler tokenMsg jwtMsg maxMemory part,
    In (handler, tokenMsg, jwtMsg, maxMemory, part)
      [(handlerUploadVideo, "Missing token", "Invalid token",
        Z.shiftl 10 30, "video");
       (handlerUploadThumbnail, "Couldn't find JWT", "Couldn't validate JWT",
        Z.shiftl 10 20, "thumbnail")] ->
    let refused := fun code msg =>
      (Returns tt, emit (RespondWithError code msg) w) in
    let stopped := fun calls =>
      (Returns tt,
       mkWorld (db w) (files w ∪ reqFormSpill r maxMemory) (s3 w)
         (trace w ++ ParseMultipartForm maxMemory :: calls)) in
    (reqVideoID r = None ->
     handler cfg r x w = refused http_StatusBadRequest "Invalid ID")
    /\ (reqVideoID r <> None -> reqToken r = None ->
        handler cfg r x w = refused http_StatusUnauthorized tokenMsg)
    /\ (reqVideoID r <> None -> reqToken r <> None -> reqUserID r = None ->
        handler cfg r x w = refused http_StatusUnauthorized jwtMsg)
    /\ (reqVideoID r <> None -> reqToken r <> None -> reqUserID r <> None ->
        (reqFormParses r = false ->
         handler cfg r x w
         = stopped [RespondWithError http_StatusBadRequest
                      "Unable to parse form"])
        /\ (reqFormParses r = true -> reqFormFile r = None ->
            handler cfg r x w
            = stopped [FormFile part;
                       RespondWithError http_StatusBadRequest
                         "Unable to parse uploaded file"])
        /\ (forall videoID,
              reqFormParses r = true -> reqFormFile r <> None ->
              reqVideoID r = Some videoID -> db w !! videoID = None ->
              handler cfg r x w
              = stopped [FormFile part; DBGetVideo videoID;
                         RespondWithError http_StatusInternalServerError
                           "Unable to get video metadata"])).
Proof.
  intros handler tokenMsg jwtMsg maxMemory part
    [[= <- <- <- <- <-] | [[= <- <- <- <- <-] | []]]; cbv zeta.
  all: unfold_body.
  all: destruct (reqVideoID r) as [videoID|]; steps;
    [| repeat split; (reflexivity || congruence)].
  all: destruct (reqToken r) as [token|]; steps;
    [| repeat split; (reflexivity || congruence)].
  all: destruct (reqUserID r) as [userID|]; steps;
    [| repeat split; (reflexivity || congruence)].
  all: (split; [congruence |]); (split; [congruence |]);
    (split; [congruence |]); intros _ _ _.
  all: destruct (reqFormParses r); steps.
  all: try (split; [intros _ | split; [discriminate |
                                       intros ? ?; discriminate]];
            unfold emit, setFiles; cbn [db files s3 trace];
            rewrite <- ?app_assoc; reflexivity).
  all: (split; [discriminate |]).
  all: destruct (reqFormFile r) as [header|]; steps.
  all: try (split; [intros _ _ | intros ? _ ?; congruence];
            unfold emit, setFiles; cbn [db files s3 trace];
            rewrite <- ?app_assoc; reflexivity).
  all: (split; [discriminate |]).
  all: intros ? _ _ [= <-] Hnone; rewrite Hnone; steps.
  all: unfold emit, setFiles; cbn [db files s3 trace];
    rewrite <- ?app_assoc; reflexivity.
Qed.

Lemma rejected_before_ownership_witness :
  handlerUploadVideo tubelyCfg tokenless allGood world0
  = (Returns tt, emit (RespondWithError 401 "Missing token") world0)
  /\ handlerUploadThumbnail tubelyCfg unknownVideo allGood world0
     = (Returns tt,
        mkWorld (db world0) (files world0 ∪ ∅) (s3 world0)
          [ParseMultipartForm (Z.shiftl 10 20); FormFile "thumbnail";
           DBGetVideo "00000000-0000-4000-8000-00000000beef";
           RespondWithError 500 "Unable to get video metadata"]).
Proof.
  split.
  - refine (proj1 (proj2 (rejected_before_ownership tubelyCfg tokenless
                            allGood world0 handlerUploadVideo _ _ _ _
                            (or_introl eq_refl))) _ eq_refl).
    discriminate.
  - refine (proj2 (proj2 (proj2 (proj2 (proj2
              (rejected_before_ownership tubelyCfg unknownVideo allGood
                 world0 handlerUploadThumbnail _ _ _ _
                 (or_intror (or_introl eq_refl))))) _ _ _))
              "00000000-0000-4000-8000-00000000beef" eq_refl _ eq_refl
              eq_refl); discriminate.
Defined.

(** ** handlerUploadThumbnail: after the ownership check *)

Section ThumbnailRun.

Context (cfg : apiConfig) (r : Request) (x : Externals) (w : World).
Context (videoID token userID mediaType : string).
Context (headerErr : error) (metadata : Video).
Hypothesis Hid : reqVideoID r = Some videoID.
Hypothesis Htoken : reqToken r = Some token.
Hypothesis Huser : reqUserID r = Some userID.
Hypothesis Hform : reqFormParses r = true.
Hypothesis Hfile : reqFormFile r = Some (mediaType, headerErr).
Hypothesis Hrecord : db w !! videoID = Some metadata.
Hypothesis Howner : UserID metadata = userID.

Let rejected :=
  negb (bool_decide (mediaType = "image/png"))
  && negb (bool_decide (mediaType = "image/jpeg")).

(** The whole run of an owner's request for which a file name could be
    generated. *)
Lemma thumbnail_named (key : string) :
  getFilename mediaType (xEntropy x) = Returns (key, None) ->
  let updated :=
    setThumbnailURL metadata (Some ("http://localhost:8091/" +:+ key)) in
  let run := handlerUploadThumbnail cfg r x w in
  fst run = Returns tt
  /\ trace (snd run)
     = (trace w
        ++ [ParseMultipartForm (Z.shiftl 10 20); FormFile "thumbnail";
            DBGetVideo videoID]
        ++ (if isErr headerErr
            then [RespondWithError http_StatusInternalServerError
                    "Unable to parse Content-Type header"]
            else [])
        ++ (if rejected
            then [RespondWithError http_StatusBadRequest
                    "Thumbnail must be image/png or image/jpeg mime type"]
            else [])
        ++ [OSCreate key]
        ++ (if xCreateOK x then []
            else [RespondWithError http_StatusInternalServerError
                    "Unable to upload thumbnail"])
        ++ [IOCopy (if xCreateOK x then Some key else None);
            DBUpdateVideo updated;
            RespondWithJSON http_StatusOK updated])%list
  /\ db (snd run)
     = (if xUpdateOK x then <[ID metadata := updated]> (db w) else db w)
  /\ files (snd run)
     = (if xCreateOK x then files w ∪ reqFormSpill r (Z.shiftl 10 20) ∪ {[key]}
        else files w ∪ reqFormSpill r (Z.shiftl 10 20))
  /\ s3 (snd run) = s3 w.
Proof.
  intros Hkey updated run. subst run updated rejected.
  destruct (handlerUploadThumbnail cfg r x w) as [res w'] eqn:Hrun.
  revert Hrun.
  unfold_body. rewrite Hid, Htoken, Huser, Hform, Hfile. steps.
  rewrite Hrecord. steps.
  rewrite (bool_decide_eq_true_2 _ Howner). steps.
  rewrite Hkey. steps.
  unfold call at 1. steps.
  destruct (xCreateOK x); steps.
  all: unfold call at 1; steps.
  all: destruct (xUpdateOK x); steps.
  all: intros [= <- <-];
    cbn [fst snd trace db s3 files emit emitWhen setDB setFiles setS3].
  all: rewrite <- ?app_assoc; cbn [app]; repeat split; reflexivity.
Qed.

(** The run of an owner's request for which the random bytes could not be
    read. *)
Lemma thumbnail_unnamed (key e : string) :
  getFilename mediaType (xEntropy x) = Returns (key, Some e) ->
  let run := handlerUploadThumbnail cfg r x w in
  fst run = Returns tt
  /\ trace (snd run)
     = (trace w
        ++ [ParseMultipartForm (Z.shiftl 10 20); FormFile "thumbnail";
            DBGetVideo videoID]
        ++ (if isErr headerErr
            then [RespondWithError http_StatusInternalServerError
                    "Unable to parse Content-Type header"]
            else [])
        ++ (if rejected
            then [RespondWithError http_StatusBadRequest
                    "Thumbnail must be image/png or image/jpeg mime type"]
            else [])
        ++ [RespondWithError http_StatusInternalServerError
              "Unable to upload file"])%list
  /\ db (snd run) = db w
  /\ files (snd run) = files w ∪ reqFormSpill r (Z.shiftl 10 20)
  /\ s3 (snd run) = s3 w.
Proof.
  intros Hkey run. subst run rejected.
  destruct (handlerUploadThumbnail cfg r x w) as [res w'] eqn:Hrun.
  revert Hrun.
  unfold_body. rewrite Hid, Htoken, Huser, Hform, Hfile. steps.
  rewrite Hrecord. steps.
  rewrite (bool_decide_eq_true_2 _ Howner). steps.
  rewrite Hkey. steps.
  intros [= <- <-];
    cbn [fst snd trace db s3 files emit emitWhen setDB setFiles setS3].
  rewrite <- ?app_assoc; cbn [app]; repeat split; reflexivity.
Qed.

End ThumbnailRun.

(** A png or jpeg thumbnail uploaded by the owner, with the file created
    and the record stored: after the form and the part are read, the run
    is lookup, [os.Create], copy, update and one response, 200 with the
    updated record; the file exists under the generated key, which is 43
    characters and the extension of the media type, beside the temporary
    files of the form; the record in the store has the thumbnail location
    "http://localhost:8091/" + key and its video location untouched; the
    object store is not involved. *)
Theorem thumbnail_upload_success (cfg : apiConfig) (r : Request)
  (x : Externals) (w : World) (videoID token userID mediaType key : string)
  (metadata : Video) :
  reqVideoID r = Some videoID ->
  reqToken r = Some token ->
  reqUserID r = Some userID ->
  reqFormParses r = true ->
  reqFormFile r = Some (mediaType, None) ->
  mediaType = "image/png" \/ mediaType = "image/jpeg" ->
  db w !! videoID = Some metadata ->
  ID metadata = videoID ->
  UserID metadata = userID ->
  getFilename mediaType (xEntropy x) = Returns (key, None) ->
  xCreateOK x = true ->
  xUpdateOK x = true ->
  let updated :=
    setThumbnailURL metadata (Some ("http://localhost:8091/" +:+ key)) in
  let run := handlerUploadThumbnail cfg r x w in
  fst run = Returns tt
  /\ trace (snd run)
     = (trace w ++ [ParseMultipartForm (Z.shiftl 10 20);
                    FormFile "thumbnail";
                    DBGetVideo videoID; OSCreate key; IOCopy (Some key);
                    DBUpdateVideo updated;
                    RespondWithJSON http_StatusOK updated])%list
  /\ db (snd run) !! videoID = Some updated
  /\ VideoURL updated = VideoURL metadata
  /\ files (snd run) = files w ∪ reqFormSpill r (Z.shiftl 10 20) ∪ {[key]}
  /\ s3 (snd run) = s3 w
  /\ (exists name,
        String.length name = 43%nat
        /\ key = name +:+ (if bool_decide (mediaType = "image/png")
                           then ".png" else ".jpeg")).
Proof.
  intros Hid Htoken Huser Hform Hfile Htype Hrecord Hkeyed Howner Hkey
    Hcreate Hupdate updated run.
  destruct (thumbnail_named cfg r x w videoID token userID mediaType None
              metadata Hid Htoken Huser Hform Hfile Hrecord Howner key Hkey)
    as (Hres & Htrace & Hdb & Hfiles & Hs3).
  fold updated in Htrace, Hdb. fold run in Hres, Htrace, Hdb, Hfiles, Hs3.
  rewrite Hupdate in Hdb. rewrite Hcreate in Htrace, Hfiles.
  split; [exact Hres |]. split.
  { rewrite Htrace. destruct Htype as [-> | ->]; reflexivity. }
  split; [rewrite Hdb, Hkeyed; apply lookup_insert_eq |].
  split; [reflexivity |]. split; [exact Hfiles |]. split; [exact Hs3 |].
  destruct (getFilename_inv _ _ _ Hkey) as (subtype & Hsub & Hlen & ->).
  exists (base64_RawURLEncoding_EncodeToString (take 32 (xEntropy x))).
  split.
  - apply base64_length_32. rewrite length_take. lia.
  - destruct Htype as [-> | ->]; cbn in Hsub; injection Hsub as <-;
      reflexivity.
Qed.

Lemma thumbnail_upload_success_witness :
  db (snd (handlerUploadThumbnail tubelyCfg
             (uploadBy "alice" ("image/png", None)) allGood world0))
    !! ID draftVideo
  = Some (setThumbnailURL draftVideo
            (Some ("http://localhost:8091/" +:+ randomName +:+ ".png"))).
Proof.
  pose proof (thumbnail_upload_success tubelyCfg
                (uploadBy "alice" ("image/png", None)) allGood world0
                (ID draftVideo) "eyJhbGciOiJIUzI1NiJ9" "alice" "image/png"
                (randomName +:+ ".png") draftVideo
                eq_refl eq_refl eq_refl eq_refl eq_refl (or_introl eq_refl)
                eq_refl eq_refl eq_refl ltac:(vm_compute; reflexivity)
                eq_refl eq_refl) as H.
  cbv zeta in H. destruct H as (_ & _ & Hdb & _). exact Hdb.
Defined.

(** Neither a media type that is not png or jpeg, nor an error from
    parsing the Content-Type header, nor a failing [os.Create] stops a
    thumbnail upload whose file name could be generated: after the error
    responses the handler still updates the record and answers 200 with
    it.  When [os.Create] failed, the handler has created no file: the
    disk holds what it held and the temporary files of the form, so no
    file exists under the stored location unless one did before. *)
Theorem thumbnail_goes_on_after_errors (cfg : apiConfig) (r : Request)
  (x : Externals) (w : World) (videoID token userID mediaType key : string)
  (headerErr : error) (metadata : Video) :
  reqVideoID r = Some videoID ->
  reqToken r = Some token ->
  reqUserID r = Some userID ->
  reqFormParses r = true ->
  reqFormFile r = Some (mediaType, headerErr) ->
  db w !! videoID = Some metadata ->
  ID metadata = videoID ->
  UserID metadata = userID ->
  getFilename mediaType (xEntropy x) = Returns (key, None) ->
  let updated :=
    setThumbnailURL metadata (Some ("http://localhost:8091/" +:+ key)) in
  let run := handlerUploadThumbnail cfg r x w in
  fst run = Returns tt
  /\ (exists before,
        trace (snd run)
        = (trace w ++ before
           ++ [DBUpdateVideo updated; RespondWithJSON http_StatusOK updated])%list
        /\ (headerErr <> None ->
            In (RespondWithError http_StatusInternalServerError
                  "Unable to parse Content-Type header") before)
        /\ (mediaType <> "image/png" -> mediaType <> "image/jpeg" ->
            In (RespondWithError http_StatusBadRequest
                  "Thumbnail must be image/png or image/jpeg mime type")
              before)
        /\ (xCreateOK x = false ->
            In (RespondWithError http_StatusInternalServerError
                  "Unable to upload thumbnail") before))
  /\ (xCreateOK x = false ->
      files (snd run) = files w ∪ reqFormSpill r (Z.shiftl 10 20))
  /\ (xUpdateOK x = true -> db (snd run) !! videoID = Some updated).
Proof.
  intros Hid Htoken Huser Hform Hfile Hrecord Hkeyed Howner Hkey updated run.
  destruct (thumbnail_named cfg r x w videoID token userID mediaType
              headerErr metadata Hid Htoken Huser Hform Hfile Hrecord Howner
              key Hkey)
    as (Hres & Htrace & Hdb & Hfiles & Hs3).
  fold updated in Htrace, Hdb. fold run in Hres, Htrace, Hdb, Hfiles, Hs3.
  split; [exact Hres |]. split.
  - exists ([ParseMultipartForm (Z.shiftl 10 20); FormFile "thumbnail";
             DBGetVideo videoID]
            ++ (if isErr headerErr
                then [RespondWithError http_StatusInternalServerError
                        "Unable to parse Content-Type header"]
                else [])
            ++ (if negb (bool_decide (mediaType = "image/png"))
                   && negb (bool_decide (mediaType = "image/jpeg"))
                then [RespondWithError http_StatusBadRequest
                        "Thumbnail must be image/png or image/jpeg mime type"]
                else [])
            ++ [OSCreate key]
            ++ (if xCreateOK x then []
                else [RespondWithError http_StatusInternalServerError
                        "Unable to upload thumbnail"])
            ++ [IOCopy (if xCreateOK x then Some key else None)])%list.
    split.
    + rewrite Htrace. rewrite <- !app_assoc. reflexivity.
    + repeat split.
      * intros He. destruct headerErr; [| congruence].
        rewrite !in_app_iff. cbn. tauto.
      * intros Hpng Hjpeg.
        rewrite (bool_decide_eq_false_2 _ Hpng),
          (bool_decide_eq_false_2 _ Hjpeg).
        rewrite !in_app_iff. cbn. tauto.
      * intros ->. rewrite !in_app_iff. cbn. tauto.
  - split.
    + intros Hc. now rewrite Hfiles, Hc.
    + intros Hu. rewrite Hdb, Hu, Hkeyed. apply lookup_insert_eq.
Qed.

Lemma thumbnail_goes_on_after_errors_witness :
  db (snd (handlerUploadThumbnail tubelyCfg
             (uploadBy "alice" ("text/plain", None)) allGood world0))
    !! ID draftVideo
  = Some (setThumbnailURL draftVideo
            (Some ("http://localhost:8091/" +:+ randomName +:+ ".plain"))).
Proof.
  pose proof (thumbnail_goes_on_after_errors tubelyCfg
                (uploadBy "alice" ("text/plain", None)) allGood world0
                (ID draftVideo) "eyJhbGciOiJIUzI1NiJ9" "alice" "text/plain"
                (randomName +:+ ".plain") None draftVideo
                eq_refl eq_refl eq_refl eq_refl eq_refl eq_refl eq_refl
                eq_refl ltac:(vm_compute; reflexivity)) as H.
  cbv zeta in H. destruct H as (_ & _ & _ & Hdb). exact (Hdb eq_refl).
Defined.

(** When the 32 random bytes cannot be read, a thumbnail upload ends with
    the response 500 "Unable to upload file": once the form, the part and
    the record have been read the handler only writes responses, and
    calls neither [os.Create] nor [io.Copy] nor [UpdateVideo].  The stores
    are unchanged, and the disk differs only by the temporary files in
    which the form reader stored what did not fit in memory. *)
Theorem thumbnail_without_entropy (cfg : apiConfig) (r : Request)
  (x : Externals) (w : World) (videoID token userID mediaType key e : string)
  (headerErr : error) (metadata : Video) :
  reqVideoID r = Some videoID ->
  reqToken r = Some token ->
  reqUserID r = Some userID ->
  reqFormParses r = true ->
  reqFormFile r = Some (mediaType, headerErr) ->
  db w !! videoID = Some metadata ->
  UserID metadata = userID ->
  getFilename mediaType (xEntropy x) = Returns (key, Some e) ->
  let run := handlerUploadThumbnail cfg r x w in
  fst run = Returns tt
  /\ trace (snd run)
     = (trace w
        ++ [ParseMultipartForm (Z.shiftl 10 20); FormFile "thumbnail";
            DBGetVideo videoID]
        ++ (if isErr headerErr
            then [RespondWithError http_StatusInternalServerError
                    "Unable to parse Content-Type header"]
            else [])
        ++ (if negb (bool_decide (mediaType = "image/png"))
               && negb (bool_decide (mediaType = "image/jpeg"))
            then [RespondWithError http_StatusBadRequest
                    "Thumbnail must be image/png or image/jpeg mime type"]
            else [])
        ++ [RespondWithError http_StatusInternalServerError
              "Unable to upload file"])%list
  /\ db (snd run) = db w
  /\ files (snd run) = files w ∪ reqFormSpill r (Z.shiftl 10 20)
  /\ s3 (snd run) = s3 w.
Proof.
  intros Hid Htoken Huser Hform Hfile Hrecord Howner Hkey run.
  exact (thumbnail_unnamed cfg r x w videoID token userID mediaType
           headerErr metadata Hid Htoken Huser Hform Hfile Hrecord Howner
           key e Hkey).
Qed.

Lemma thumbnail_without_entropy_witness :
  db (snd (handlerUploadThumbnail tubelyCfg
             (uploadBy "alice" ("image/png", None)) drained world0))
  = db world0.
Proof.
  pose proof (thumbnail_without_entropy tubelyCfg
                (uploadBy "alice" ("image/png", None)) drained world0
                (ID draftVideo) "eyJhbGciOiJIUzI1NiJ9" "alice" "image/png"
                "" "crypto/rand: entropy source unavailable" None draftVideo
                eq_refl eq_refl eq_refl eq_refl eq_refl eq_refl eq_refl
                ltac:(vm_compute; reflexivity)) as H.
  cbv zeta in H. destruct H as (_ & _ & Hdb & _). exact Hdb.
Defined.

(** ** handlerUploadVideo: the successful upload *)

Section VideoSuccess.

Context (cfg : apiConfig) (r : Request) (x : Externals) (w : World).
Context (videoID token userID suffix key : string).
Context (metadata signed : Video).
Context (first : Stream) (rest : list Stream).
Hypothesis Hid : reqVideoID r = Some videoID.
Hypothesis Htoken : reqToken r = Some token.
Hypothesis Huser : reqUserID r = Some userID.
Hypothesis Hform : reqFormParses r = true.
Hypothesis Hfile : reqFormFile r = Some ("video/mp4", None).
Hypothesis Hrecord : db w !! videoID = Some metadata.
Hypothesis Howner : UserID metadata = userID.
Hypothesis Htemp : xTempSuffix x = Some suffix.
Hypothesis Hcopy : xCopyOK x = true.
Hypothesis Hseek : xSeekOK x = true.
Hypothesis Hkey : getFilename "video/mp4" (xEntropy x) = Returns (key, None).
Hypothesis Hprobe : xProbe x = ProbeReports {| Streams := first :: rest |}.
Hypothesis Hupdate : xUpdateOK x = true.
Hypothesis Hffmpeg : xFfmpeg x = FfmpegSucceeds.
Hypothesis Hopen : xOpenOK x = true.
Hypothesis Hput : xPutOK x = true.

Let staged := "/tmp/tubely-upload.mp4" +:+ suffix.
Let processed := staged +:+ ".processed".
Let storageKey :=
  default "" (prefixes !! classify (Width first) (Height first))
  +:+ "/" +:+ key.
Let updated :=
  setVideoURL metadata (Some (s3Bucket cfg +:+ "," +:+ storageKey)).
Hypothesis Hsigned : dbVideoToSignedVideo x updated = (signed, None).

Lemma video_success :
  let run := handlerUploadVideo cfg r x w in
  fst run = Returns tt
  /\ trace (snd run)
     = (trace w ++
        [ParseMultipartForm (Z.shiftl 10 30);
         FormFile "video";
         DBGetVideo videoID;
         OSCreateTemp (Some staged);
         IOCopy (Some staged);
         FileSeek (Some staged);
         Exec "ffprobe" (ffprobeArgs staged);
         DBUpdateVideo updated;
         Exec "ffmpeg" (ffmpegArgs staged processed);
         OSOpen processed;
         S3PutObject (s3Bucket cfg) storageKey processed "video/mp4";
         OSRemove processed;
         OSRemove "/tmp/tubely-upload.mp4"])%list
  /\ db (snd run) = <[ID metadata := updated]> (db w)
  /\ s3 (snd run)
     = <[(s3Bucket cfg, storageKey) :=
           {| Body := processed; ContentType := "video/mp4" |}]> (s3 w)
  /\ files (snd run)
     = (files w ∪ reqFormSpill r (Z.shiftl 10 30) ∪ {[staged]}
        ∪ {[processed]}) ∖ {[processed]} ∖ {["/tmp/tubely-upload.mp4"]}.
Proof.
  intros run. subst run.
  destruct (handlerUploadVideo cfg r x w) as [res w'] eqn:Hrun.
  revert Hrun.
  unfold_body. rewrite Hid, Htoken, Huser, Hform, Hfile. steps.
  rewrite Hrecord. steps.
  rewrite (bool_decide_eq_true_2 _ Howner). steps.
  rewrite Htemp. steps. rewrite Hcopy, Hseek. steps.
  rewrite Hkey. steps.
  unfold getVideoAspectRatio at 1. rewrite Hprobe. steps.
  rewrite Hupdate. steps.
  match goal with
  | |- context [dbVideoToSignedVideo x ?v] => change v with updated
  end.
  rewrite Hsigned. steps.
  unfold processVideoForFastStart at 1. rewrite Hffmpeg. steps.
  unfold call at 1. steps.
  match goal with
  | |- context [bool_decide (?p ∈ ?s)] =>
      rewrite (bool_decide_eq_true_2 (p ∈ s))
        by (apply elem_of_union_r; now apply elem_of_singleton)
  end.
  rewrite Hopen. steps.
  unfold call at 1. steps. rewrite Hput. steps.
  intros [= <- <-];
    cbn [fst snd trace db s3 files emit emitWhen setDB setFiles setS3].
  rewrite <- ?app_assoc; cbn [app]. repeat split; reflexivity.
Qed.

End VideoSuccess.

Section StoredLocation.

Lemma classes (width height : float) :
  In (aspectRatioOf width height) ["16:9"; "9:16"; "other"].
Proof.
  unfold aspectRatioOf.
  repeat match goal with
    | |- context [if ?c then _ else _] => destruct c
    end; cbn [In]; auto.
Qed.

(** The location the video handler writes for an mp4 splits back into the
    bucket and the prefixed key. *)
Lemma mp4_location_splits (bucket key : string) (entropy : list byte)
  (width height : Z) :
  containsByte "," bucket = false ->
  getFilename "video/mp4" entropy = Returns (key, None) ->
  let storageKey :=
    default "" (prefixes !! classify width height) +:+ "/" +:+ key in
  strings_Split (bucket +:+ "," +:+ storageKey) "," = [bucket; storageKey].
Proof.
  intros Hb Hkey storageKey.
  destruct (getFilename_inv _ _ _ Hkey) as (subtype & Hsub & _ & ->).
  cbn in Hsub. injection Hsub as <-.
  change ("," +:+ storageKey) with (String "," storageKey).
  apply strings_Split_pair; [exact Hb |].
  subst storageKey. unfold classify.
  rewrite !containsByte_append, (prefix_no_comma _ (classes _ _)),
    base64_no_comma.
  reflexivity.
Qed.

End StoredLocation.

(** An mp4 uploaded by the owner, with every collaborator succeeding: the
    handler writes no response at all; it reads the form and the part,
    stages the upload, probes it, updates the record, runs [ffmpeg], opens
    and puts the processed copy and removes that copy.  Afterwards the
    store holds the record with location [bucket + "," + prefix/key], the
    object store holds, under that bucket and key, the processed copy with
    content type video/mp4, and signing the stored record asks for exactly
    that bucket and key. *)
Theorem video_upload_success (cfg : apiConfig) (r : Request) (x : Externals)
  (w : World) (videoID token userID suffix key : string) (metadata : Video)
  (first : Stream) (rest : list Stream) :
  reqVideoID r = Some videoID ->
  reqToken r = Some token ->
  reqUserID r = Some userID ->
  reqFormParses r = true ->
  reqFormFile r = Some ("video/mp4", None) ->
  db w !! videoID = Some metadata ->
  ID metadata = videoID ->
  UserID metadata = userID ->
  containsByte "," (s3Bucket cfg) = false ->
  xTempSuffix x = Some suffix ->
  xCopyOK x = true ->
  xSeekOK x = true ->
  getFilename "video/mp4" (xEntropy x) = Returns (key, None) ->
  xProbe x = ProbeReports {| Streams := first :: rest |} ->
  xUpdateOK x = true ->
  xFfmpeg x = FfmpegSucceeds ->
  xOpenOK x = true ->
  xPutOK x = true ->
  let staged := "/tmp/tubely-upload.mp4" +:+ suffix in
  let processed := staged +:+ ".processed" in
  let storageKey :=
    default "" (prefixes !! classify (Width first) (Height first))
    +:+ "/" +:+ key in
  let updated :=
    setVideoURL metadata (Some (s3Bucket cfg +:+ "," +:+ storageKey)) in
  let run := handlerUploadVideo cfg r x w in
  snd (xPresign x (s3Bucket cfg) storageKey time_Hour) = None ->
  fst run = Returns tt
  /\ trace (snd run)
     = (trace w ++
        [ParseMultipartForm (Z.shiftl 10 30);
         FormFile "video";
         DBGetVideo videoID;
         OSCreateTemp (Some staged);
         IOCopy (Some staged);
         FileSeek (Some staged);
         Exec "ffprobe" (ffprobeArgs staged);
         DBUpdateVideo updated;
         Exec "ffmpeg" (ffmpegArgs staged processed);
         OSOpen processed;
         S3PutObject (s3Bucket cfg) storageKey processed "video/mp4";
         OSRemove processed;
         OSRemove "/tmp/tubely-upload.mp4"])%list
  /\ db (snd run) !! videoID = Some updated
  /\ ThumbnailURL updated = ThumbnailURL metadata
  /\ s3 (snd run) !! (s3Bucket cfg, storageKey)
     = Some {| Body := processed; ContentType := "video/mp4" |}
  /\ (processed ∉ files (snd run))
  /\ dbVideoToSignedVideo x updated
     = (setVideoURL metadata
          (Some (fst (xPresign x (s3Bucket cfg) storageKey time_Hour))),
        None).
Proof.
  intros Hid Htoken Huser Hform Hfile Hrecord Hkeyed Howner Hbucket Htemp
    Hcopy Hseek Hkey Hprobe Hupdate Hffmpeg Hopen Hput
    staged processed storageKey updated run Hpresign.
  assert (Hsigned :
            dbVideoToSignedVideo x updated
            = (setVideoURL metadata
                 (Some (fst (xPresign x (s3Bucket cfg) storageKey time_Hour))),
               None)).
  { unfold dbVideoToSignedVideo, generatePresignedURL, updated.
    cbn [VideoURL setVideoURL].
    unfold storageKey.
    rewrite (mp4_location_splits _ _ _ _ _ Hbucket Hkey).
    fold storageKey.
    destruct (xPresign x (s3Bucket cfg) storageKey time_Hour) as [url [e|]];
      [discriminate Hpresign | reflexivity]. }
  destruct (video_success cfg r x w videoID token userID suffix key metadata
              _ first rest Hid Htoken Huser Hform Hfile Hrecord Howner Htemp
              Hcopy Hseek Hkey Hprobe Hupdate Hffmpeg Hopen Hput Hsigned)
    as (Hres & Htrace & Hdb & Hs3 & Hfiles).
  fold staged processed storageKey updated run
    in Hres, Htrace, Hdb, Hs3, Hfiles.
  split; [exact Hres |]. split; [exact Htrace |].
  split; [rewrite Hdb, Hkeyed; apply lookup_insert_eq |].
  split; [reflexivity |].
  split; [rewrite Hs3; apply lookup_insert_eq |].
  split; [| exact Hsigned].
  rewrite Hfiles. intros Hin.
  apply elem_of_difference in Hin as [Hin _].
  apply elem_of_difference in Hin as [_ Hn].
  apply Hn. now apply elem_of_singleton.
Qed.

Lemma video_upload_success_witness :
  s3 (snd (handlerUploadVideo tubelyCfg mp4Upload allGood world0))
    !! ("tubely-private", "landscape/" +:+ randomName +:+ ".mp4")
  = Some {| Body := stagedName +:+ ".processed"; ContentType := "video/mp4" |}.
Proof.
  pose proof (video_upload_success tubelyCfg mp4Upload allGood world0
                (ID draftVideo) "eyJhbGciOiJIUzI1NiJ9" "alice" "2858167534"
                (randomName +:+ ".mp4") draftVideo
                {| Width := 1920; Height := 1080 |} []
                eq_refl eq_refl eq_refl eq_refl eq_refl eq_refl eq_refl
                eq_refl eq_refl eq_refl eq_refl eq_refl
                ltac:(vm_compute; reflexivity) eq_refl eq_refl eq_refl
                eq_refl eq_refl) as H.
  cbv zeta in H. destruct (H eq_refl) as (_ & _ & _ & _ & Hs3 & _).
  exact Hs3.
Defined.

(** ** handlerUploadVideo: the normalized copy *)

Section ProcessedCopy.

Context (cfg : apiConfig) (r : Request) (x : Externals) (w : World).
Context (videoID token userID mediaType suffix key : string).
Context (headerErr : error) (metadata : Video).
Context (first : Stream) (rest : list Stream).
Hypothesis Hid : reqVideoID r = Some videoID.
Hypothesis Htoken : reqToken r = Some token.
Hypothesis Huser : reqUserID r = Some userID.
Hypothesis Hform : reqFormParses r = true.
Hypothesis Hfile : reqFormFile r = Some (mediaType, headerErr).
Hypothesis Hrecord : db w !! videoID = Some metadata.
Hypothesis Howner : UserID metadata = userID.
Hypothesis Htemp : xTempSuffix x = Some suffix.
Hypothesis Hkey : getFilename mediaType (xEntropy x) = Returns (key, None).
Hypothesis Hprobe : xProbe x = ProbeReports {| Streams := first :: rest |}.

Let processed := ("/tmp/tubely-upload.mp4" +:+ suffix) +:+ ".processed".
Let updated :=
  setVideoURL metadata
    (Some (s3Bucket cfg +:+ ","
           +:+ default "" (prefixes !! classify (Width first) (Height first))
           +:+ "/" +:+ key)).
Hypothesis Hsigned : snd (dbVideoToSignedVideo x updated) = None.

Lemma processed_not_pattern : processed <> "/tmp/tubely-upload.mp4".
Proof.
  intros H. apply (f_equal String.length) in H.
  unfold processed in H. rewrite !length_append in H. cbn in H. lia.
Qed.

Lemma removalsOf_app (a b : list Event) :
  removalsOf (a ++ b) = (removalsOf a ++ removalsOf b)%list.
Proof. induction a as [|[] a IH]; cbn; congruence. Qed.

Lemma removalsOf_when (cond : bool) (code : Z) (msg : string) :
  removalsOf (if cond then [RespondWithError code msg] else []) = [].
Proof. now destruct cond. Qed.

(** The processed copy is removed exactly when it was opened: the deferred
    removal is registered after [os.Open] has succeeded. *)
Lemma video_processed_copy (res : result unit) (w' : World) :
  handlerUploadVideo cfg r x w = (res, w') ->
  exists events,
    trace w' = (trace w ++ events)%list
    /\ (xFfmpeg x = FfmpegSucceeds -> xOpenOK x = true ->
        (processed ∉ files w')
        /\ removalsOf events = [processed; "/tmp/tubely-upload.mp4"])
    /\ (xFfmpeg x = FfmpegSucceeds -> xOpenOK x = false ->
        processed ∈ files w' /\ s3 w' = s3 w
        /\ removalsOf events = ["/tmp/tubely-upload.mp4"])
    /\ (forall err stderr, xFfmpeg x = FfmpegFails err stderr true ->
        processed ∈ files w' /\ s3 w' = s3 w
        /\ removalsOf events = ["/tmp/tubely-upload.mp4"]).
Proof.
  pose proof processed_not_pattern as Hpattern.
  revert Hsigned. subst processed updated.
  unfold_body. rewrite Hid, Htoken, Huser, Hform, Hfile. steps.
  rewrite Hrecord. steps.
  rewrite (bool_decide_eq_true_2 _ Howner). steps.
  rewrite Htemp. steps.
  rewrite Hkey. steps.
  unfold getVideoAspectRatio at 1. rewrite Hprobe. steps.
  unfold classify.
  destruct (xUpdateOK x); steps.
  all: destruct (dbVideoToSignedVideo x _) as [signed [e|]]; steps;
    [intros [=] |]; intros _.
  all: unfold processVideoForFastStart at 1;
    destruct (xFfmpeg x) as [|err stderr [|]]; steps.
  all: try match goal with
         | |- context [xOpenOK x] =>
             unfold call at 1; steps;
             match goal with
             | |- context [bool_decide (?p ∈ ?s)] =>
                 rewrite (bool_decide_eq_true_2 (p ∈ s))
                   by (apply elem_of_union_r; now apply elem_of_singleton)
             end;
             destruct (xOpenOK x); steps
         end.
  all: try match goal with
         | |- context [xPutOK x] =>
             unfold call at 1; steps; destruct (xPutOK x); steps
         end.
  all: intros [= <- <-];
    cbn [fst snd trace db s3 files emit emitWhen setDB setFiles setS3].
  all: change ("/tmp" +:+ "/" +:+ "tubely-upload.mp4" +:+ suffix)
         with ("/tmp/tubely-upload.mp4" +:+ suffix) in *.
  all: eexists; (split; [rewrite <- ?app_assoc; reflexivity |]).
  all: rewrite ?removalsOf_app, ?removalsOf_when;
    cbn [removalsOf app].
  all: (split; [intros Hf Ho
               | split; [intros Hf Ho | intros err' stderr' Hf]]);
    try discriminate.
  all: first
    [ split; [| reflexivity];
      intros [[_ Hn]%elem_of_difference _]%elem_of_difference;
      apply Hn; now apply elem_of_singleton
    | split; [| split; reflexivity];
      apply elem_of_difference; split;
      [ apply elem_of_union_r; now apply elem_of_singleton
      | rewrite elem_of_singleton; exact Hpattern ] ].
Qed.

End ProcessedCopy.

(** The processed copy that [ffmpeg] writes is removed exactly when
    [os.Open] succeeded on it: its removal is deferred only after the open
    has been checked.  When the open fails, or when [ffmpeg] fails after
    writing its output, the copy stays in the temporary directory, nothing
    is put to the object store, and the only path removed is the pattern
    of the staged file. *)
Theorem processed_copy_cleanup (cfg : apiConfig) (r : Request) (x : Externals)
  (w : World) (videoID token userID mediaType suffix key : string)
  (headerErr : error) (metadata : Video) (first : Stream)
  (rest : list Stream) :
  reqVideoID r = Some videoID ->
  reqToken r = Some token ->
  reqUserID r = Some userID ->
  reqFormParses r = true ->
  reqFormFile r = Some (mediaType, headerErr) ->
  db w !! videoID = Some metadata ->
  UserID metadata = userID ->
  xTempSuffix x = Some suffix ->
  getFilename mediaType (xEntropy x) = Returns (key, None) ->
  xProbe x = ProbeReports {| Streams := first :: rest |} ->
  let processed := ("/tmp/tubely-upload.mp4" +:+ suffix) +:+ ".processed" in
  let updated :=
    setVideoURL metadata
      (Some (s3Bucket cfg +:+ ","
             +:+ default "" (prefixes !! classify (Width first) (Height first))
             +:+ "/" +:+ key)) in
  let run := handlerUploadVideo cfg r x w in
  snd (dbVideoToSignedVideo x updated) = None ->
  exists events,
    trace (snd run) = (trace w ++ events)%list
    /\ (xFfmpeg x = FfmpegSucceeds -> xOpenOK x = true ->
        (processed ∉ files (snd run))
        /\ removalsOf events = [processed; "/tmp/tubely-upload.mp4"])
    /\ (xFfmpeg x = FfmpegSucceeds -> xOpenOK x = false ->
        processed ∈ files (snd run) /\ s3 (snd run) = s3 w
        /\ removalsOf events = ["/tmp/tubely-upload.mp4"])
    /\ (forall err stderr, xFfmpeg x = FfmpegFails err stderr true ->
        processed ∈ files (snd run) /\ s3 (snd run) = s3 w
        /\ removalsOf events = ["/tmp/tubely-upload.mp4"]).
Proof.
  intros Hid Htoken Huser Hform Hfile Hrecord Howner Htemp Hkey Hprobe
    processed updated run Hsigned.
  subst run. destruct (handlerUploadVideo cfg r x w) as [res w'] eqn:Hrun.
  exact (video_processed_copy cfg r x w videoID token userID mediaType
           suffix key headerErr metadata first rest Hid Htoken Huser Hform
           Hfile Hrecord Howner Htemp Hkey Hprobe Hsigned res w' Hrun).
Qed.

Lemma processed_copy_cleanup_witness :
  stagedName +:+ ".processed"
  ∈ files (snd (handlerUploadVideo tubelyCfg mp4Upload openFails world0)).
Proof.
  pose proof (processed_copy_cleanup tubelyCfg mp4Upload openFails world0
                (ID draftVideo) "eyJhbGciOiJIUzI1NiJ9" "alice" "video/mp4"
                "2858167534" (randomName +:+ ".mp4") None draftVideo
                {| Width := 1920; Height := 1080 |} []
                eq_refl eq_refl eq_refl eq_refl eq_refl eq_refl eq_refl
                eq_refl ltac:(vm_compute; reflexivity) eq_refl) as H.
  cbv zeta in H.
  destruct (H ltac:(vm_compute; reflexivity)) as (events & _ & _ & Hopen & _).
  exact (proj1 (Hopen eq_refl eq_refl)).
Defined.

(** ** handlerUploadVideo: failures before the record is written *)

Lemma responsesOf_app (a b : list Event) :
  responsesOf (a ++ b) = (responsesOf a ++ responsesOf b)%list.
Proof. induction a as [|[] a IH]; cbn; congruence. Qed.

Lemma commandsOf_app (a b : list Event) :
  commandsOf (a ++ b) = (commandsOf a ++ commandsOf b)%list.
Proof. induction a as [|[] a IH]; cbn; congruence. Qed.

Lemma commandsOf_when (cond : bool) (code : Z) (msg : string) :
  commandsOf (if cond then [RespondWithError code msg] else []) = [].
Proof. now destruct cond. Qed.

Lemma responsesOf_when (cond : bool) (code : Z) (msg : string) :
  responsesOf (if cond then [RespondWithError code msg] else [])
  = if cond then [RespondWithError code msg] else [].
Proof. now destruct cond. Qed.

Lemma last_app_some {A : Type} (l1 l2 : list A) (x : A) :
  last l2 = Some x -> last (l1 ++ l2) = Some x.
Proof.
  intros H. destruct l2 as [|y l2]; [discriminate |].
  rewrite last_app_cons. exact H.
Qed.

Ltac tally :=
  repeat first
    [ progress rewrite ?updatesOf_app, ?putsOf_app, ?updatesOf_when,
        ?putsOf_when, ?commandsOf_app, ?commandsOf_when, ?responsesOf_app,
        ?responsesOf_when, ?removalsOf_app, ?removalsOf_when
    | progress cbn [updatesOf putsOf commandsOf responsesOf removalsOf app] ].

Section EarlyStop.

Context (cfg : apiConfig) (r : Request) (x : Externals) (w : World).
Context (videoID token userID mediaType key : string).
Context (headerErr : error) (metadata : Video).
Hypothesis Hid : reqVideoID r = Some videoID.
Hypothesis Htoken : reqToken r = Some token.
Hypothesis Huser : reqUserID r = Some userID.
Hypothesis Hform : reqFormParses r = true.
Hypothesis Hfile : reqFormFile r = Some (mediaType, headerErr).
Hypothesis Hrecord : db w !! videoID = Some metadata.
Hypothesis Howner : UserID metadata = userID.

Lemma video_early_stop (res : result unit) (w' : World) (e : error) :
  handlerUploadVideo cfg r x w = (res, w') ->
  getFilename mediaType (xEntropy x) = Returns (key, e) ->
  isErr e = true
  \/ (xTempSuffix x <> None /\ probeFails (xProbe x) = true) ->
  res = Returns tt /\ db w' = db w /\ s3 w' = s3 w
  /\ exists events,
       trace w' = (trace w ++ events)%list
       /\ updatesOf events = [] /\ putsOf events = []
       /\ commandsOf events = (if isErr e then [] else ["ffprobe"])
       /\ last (responsesOf events)
          = Some (RespondWithError http_StatusInternalServerError
                    "Unable to upload video to s3").
Proof.
  intros Hrun Hkey Hfails. revert Hrun.
  unfold_body. rewrite Hid, Htoken, Huser, Hform, Hfile. steps.
  rewrite Hrecord. steps.
  rewrite (bool_decide_eq_true_2 _ Howner). steps.
  destruct (xTempSuffix x) as [suffix|]; steps.
  all: rewrite Hkey; steps.
  all: destruct e as [e|]; steps.
  all: try (destruct Hfails as [Hf | [Hf _]];
            [discriminate Hf | now elim Hf]).
  1, 3: final_world; repeat (split; [reflexivity |]);
    eexists; (split; [rewrite <- ?app_assoc; reflexivity |]);
    tally; repeat (split; [reflexivity |]);
    repeat match goal with
      | |- last (_ ++ _) = _ => apply last_app_some
      end; reflexivity.
  destruct Hfails as [Hf | [_ Hfails]]; [discriminate Hf |].
  unfold getVideoAspectRatio at 1.
  destruct (xProbe x) as [err | err | [[|first rest]]];
    try discriminate Hfails; steps.
  all: final_world; repeat (split; [reflexivity |]).
  all: eexists; (split; [rewrite <- ?app_assoc; reflexivity |]).
  all: tally; repeat (split; [reflexivity |]).
  all: repeat match goal with
      | |- last (_ ++ _) = _ => apply last_app_some
      end; reflexivity.
Qed.

End EarlyStop.

(** An upload by the owner, the form, the part and the record read.  When
    [getFilename] returns an error (whether or not [os.CreateTemp] has
    succeeded), or [os.CreateTemp] has succeeded, [getFilename] has
    returned a name and the probe gives no stream to classify, the handler
    returns with the response 500 "Unable to upload video to s3" as its
    last response: the record is not written, nothing is put to the object
    store, [ffmpeg] is never run, and [ffprobe] is run only when
    [getFilename] returned a name. *)
Theorem video_fails_before_record (cfg : apiConfig) (r : Request)
  (x : Externals) (w : World)
  (videoID token userID mediaType key : string)
  (headerErr e : error) (metadata : Video) :
  reqVideoID r = Some videoID ->
  reqToken r = Some token ->
  reqUserID r = Some userID ->
  reqFormParses r = true ->
  reqFormFile r = Some (mediaType, headerErr) ->
  db w !! videoID = Some metadata ->
  UserID metadata = userID ->
  getFilename mediaType (xEntropy x) = Returns (key, e) ->
  isErr e = true
  \/ (xTempSuffix x <> None /\ probeFails (xProbe x) = true) ->
  let run := handlerUploadVideo cfg r x w in
  fst run = Returns tt /\ db (snd run) = db w /\ s3 (snd run) = s3 w
  /\ exists events,
       trace (snd run) = (trace w ++ events)%list
       /\ updatesOf events = [] /\ putsOf events = []
       /\ commandsOf events = (if isErr e then [] else ["ffprobe"])
       /\ last (responsesOf events)
          = Some (RespondWithError http_StatusInternalServerError
                    "Unable to upload video to s3").
Proof.
  intros Hid Htoken Huser Hform Hfile Hrecord Howner Hkey Hfails run.
  subst run. destruct (handlerUploadVideo cfg r x w) as [res w'] eqn:Hrun.
  exact (video_early_stop cfg r x w videoID token userID mediaType
           key headerErr metadata Hid Htoken Huser Hform Hfile Hrecord
           Howner res w' e Hrun Hkey Hfails).
Qed.

Lemma video_fails_before_record_witness :
  db (snd (handlerUploadVideo tubelyCfg mp4Upload
             (externals (ProbeReports {| Streams := [] |}) FfmpegSucceeds
                true) world0))
  = db world0
  /\ db (snd (handlerUploadVideo tubelyCfg mp4Upload drained world0))
     = db world0.
Proof.
  split.
  - refine (proj1 (proj2
      (video_fails_before_record tubelyCfg mp4Upload
         (externals (ProbeReports {| Streams := [] |}) FfmpegSucceeds true)
         world0 (ID draftVideo) "eyJhbGciOiJIUzI1NiJ9" "alice" "video/mp4"
         (randomName +:+ ".mp4") None None draftVideo
         eq_refl eq_refl eq_refl eq_refl eq_refl eq_refl eq_refl _ _))).
    + vm_compute. reflexivity.
    + right. split; [discriminate | reflexivity].
  - refine (proj1 (proj2
      (video_fails_before_record tubelyCfg mp4Upload drained world0
         (ID draftVideo) "eyJhbGciOiJIUzI1NiJ9" "alice" "video/mp4"
         "" None (Some "crypto/rand: entropy source unavailable") draftVideo
         eq_refl eq_refl eq_refl eq_refl eq_refl eq_refl eq_refl _ _))).
    + vm_compute. reflexivity.
    + left. reflexivity.
Defined.

(** ** handlerUploadVideo: no temporary file *)

Section NoTempFile.

Context (cfg : apiConfig) (r : Request) (x : Externals) (w : World).
Context (videoID token userID mediaType : string).
Context (headerErr : error) (metadata : Video).
Hypothesis Hid : reqVideoID r = Some videoID.
Hypothesis Htoken : reqToken r = Some token.
Hypothesis Huser : reqUserID r = Some userID.
Hypothesis Hform : reqFormParses r = true.
Hypothesis Hfile : reqFormFile r = Some (mediaType, headerErr).
Hypothesis Hrecord : db w !! videoID = Some metadata.
Hypothesis Howner : UserID metadata = userID.
Hypothesis Htemp : xTempSuffix x = None.

Lemma video_no_temp_file (res : result unit) (w' : World) :
  handlerUploadVideo cfg r x w = (res, w') ->
  let named := getFilename mediaType (xEntropy x) in
  res = match named with
        | Panics msg => Panics msg
        | Returns (_, Some _) => Returns tt
        | Returns (_, None) =>
            Panics "runtime error: invalid memory address or nil pointer dereference"
        end
  /\ db w' = db w /\ s3 w' = s3 w
  /\ files w'
     = (files w ∪ reqFormSpill r (Z.shiftl 10 30))
       ∖ {["/tmp/tubely-upload.mp4"]}
  /\ exists events,
       trace w' = (trace w ++ events)%list
       /\ responsesOf events
          = ((if isErr headerErr
              then [RespondWithError http_StatusInternalServerError
                      "Unable to parse Content-Type header"]
              else []) ++
             (if negb (bool_decide (mediaType = "video/mp4"))
              then [RespondWithError http_StatusBadRequest
                      "Video must be in mp4 format"]
              else []) ++
             [RespondWithError http_StatusInternalServerError
                "Unable to save temporary file";
              RespondWithError http_StatusInternalServerError
                "Unable to write to temporary file";
              RespondWithError http_StatusInternalServerError
                "Unable to reset pointer"] ++
             match named with
             | Returns (_, Some _) =>
                 [RespondWithError http_StatusInternalServerError
                    "Unable to upload video to s3"]
             | _ => []
             end)%list
       /\ commandsOf events = [] /\ updatesOf events = []
       /\ putsOf events = []
       /\ removalsOf events = ["/tmp/tubely-upload.mp4"].
Proof.
  cbv zeta.
  unfold_body. rewrite Hid, Htoken, Huser, Hform, Hfile. steps.
  rewrite Hrecord. steps.
  rewrite (bool_decide_eq_true_2 _ Howner). steps.
  rewrite Htemp. steps.
  destruct (getFilename mediaType (xEntropy x)) as [[key [e|]] | msg]; steps.
  all: final_world; repeat (split; [reflexivity |]).
  all: eexists; (split; [rewrite <- ?app_assoc; reflexivity |]).
  all: tally; rewrite <- ?app_assoc, ?app_nil_r; cbn [app].
  all: repeat (split; [reflexivity |]); reflexivity.
Qed.

End NoTempFile.

(** When [os.CreateTemp] fails, an upload by the owner does not stop: the
    handler answers 500 three times, for the temporary file, for the copy
    and for the seek on the nil file, and calls [getFilename].  If that
    panics (a media type without ["/"]) the request panics there; if it
    returns an error the handler answers 500 "Unable to upload video to
    s3" and returns; otherwise the handler panics with a nil pointer
    dereference at [tmpFile.Name()].  In every case no tool is run, no
    record is written and nothing is put to the object store; the deferred
    removal of the pattern path still runs. *)
Theorem missing_temp_file_panics (cfg : apiConfig) (r : Request)
  (x : Externals) (w : World) (videoID token userID mediaType : string)
  (headerErr : error) (metadata : Video) :
  reqVideoID r = Some videoID ->
  reqToken r = Some token ->
  reqUserID r = Some userID ->
  reqFormParses r = true ->
  reqFormFile r = Some (mediaType, headerErr) ->
  db w !! videoID = Some metadata ->
  UserID metadata = userID ->
  xTempSuffix x = None ->
  let run := handlerUploadVideo cfg r x w in
  let named := getFilename mediaType (xEntropy x) in
  fst run
  = match named with
    | Panics msg => Panics msg
    | Returns (_, Some _) => Returns tt
    | Returns (_, None) =>
        Panics "runtime error: invalid memory address or nil pointer dereference"
    end
  /\ db (snd run) = db w /\ s3 (snd run) = s3 w
  /\ files (snd run)
     = (files w ∪ reqFormSpill r (Z.shiftl 10 30))
       ∖ {["/tmp/tubely-upload.mp4"]}
  /\ exists events,
       trace (snd run) = (trace w ++ events)%list
       /\ responsesOf events
          = ((if isErr headerErr
              then [RespondWithError http_StatusInternalServerError
                      "Unable to parse Content-Type header"]
              else []) ++
             (if negb (bool_decide (mediaType = "video/mp4"))
              then [RespondWithError http_StatusBadRequest
                      "Video must be in mp4 format"]
              else []) ++
             [RespondWithError http_StatusInternalServerError
                "Unable to save temporary file";
              RespondWithError http_StatusInternalServerError
                "Unable to write to temporary file";
              RespondWithError http_StatusInternalServerError
                "Unable to reset pointer"] ++
             match named with
             | Returns (_, Some _) =>
                 [RespondWithError http_StatusInternalServerError
                    "Unable to upload video to s3"]
             | _ => []
             end)%list
       /\ commandsOf events = [] /\ updatesOf events = []
       /\ putsOf events = []
       /\ removalsOf events = ["/tmp/tubely-upload.mp4"].
Proof.
  intros Hid Htoken Huser Hform Hfile Hrecord Howner Htemp run.
  subst run. destruct (handlerUploadVideo cfg r x w) as [res w'] eqn:Hrun.
  exact (video_no_temp_file cfg r x w videoID token userID mediaType
           headerErr metadata Hid Htoken Huser Hform Hfile Hrecord Howner
           Htemp res w' Hrun).
Qed.

Lemma missing_temp_file_panics_witness :
  fst (handlerUploadVideo tubelyCfg mp4Upload noTempFile world0)
  = Panics "runtime error: invalid memory address or nil pointer dereference".
Proof.
  exact (proj1 (missing_temp_file_panics tubelyCfg mp4Upload noTempFile
                  world0 (ID draftVideo) "eyJhbGciOiJIUzI1NiJ9" "alice"
                  "video/mp4" None draftVideo
                  eq_refl eq_refl eq_refl eq_refl eq_refl eq_refl eq_refl
                  eq_refl)).
Defined.

(** ** Both handlers: the calls they can make *)

Lemma forallb_when (p : Event -> bool) (cond : bool) (e : Event) :
  p e = true -> forallb p (if cond then [e] else []) = true.
Proof. intros H. destruct cond; cbn; [now rewrite H | reflexivity]. Qed.

Ltac allowed :=
  eexists; split; [rewrite <- ?app_assoc; reflexivity |];
  rewrite ?forallb_app, ?forallb_when by reflexivity; reflexivity.

(** Whatever the request and whatever the collaborators answer, a video
    upload never writes a JSON response and never calls [os.Create]: on
    every path, the successful one included, the only responses are
    errors. *)
Theorem video_upload_calls (cfg : apiConfig) (r : Request) (x : Externals)
  (w : World) :
  exists events,
    trace (snd (handlerUploadVideo cfg r x w)) = (trace w ++ events)%list
    /\ forallb videoEvent events = true.
Proof.
  destruct (handlerUploadVideo cfg r x w) as [res w'] eqn:Hrun.
  revert Hrun. unfold_body.
  destruct (reqVideoID r) as [videoID|]; steps;
    [| intros [= <- <-]; cbn; allowed].
  destruct (reqToken r) as [token|]; steps;
    [| intros [= <- <-]; cbn; allowed].
  destruct (reqUserID r) as [userID|]; steps;
    [| intros [= <- <-]; cbn; allowed].
  destruct (reqFormParses r); steps;
    [| intros [= <- <-]; cbn; allowed].
  destruct (reqFormFile r) as [[mediaType headerErr]|]; steps;
    [| intros [= <- <-]; cbn; allowed].
  destruct (db w !! videoID) as [metadata|]; steps;
    [| intros [= <- <-]; cbn; allowed].
  destruct (bool_decide (UserID metadata = userID)); steps;
    [| intros [= <- <-]; cbn; allowed].
  destruct (xTempSuffix x) as [suffix|]; steps.
  all: destruct (getFilename mediaType (xEntropy x))
         as [[key [e|]] | msg]; steps.
  all: split_paths x.
  all: final_world; cbn [snd trace].
  all: allowed.
Qed.

(** Whatever the request and whatever the collaborators answer, the
    calls of a thumbnail upload are responses, [r.ParseMultipartForm],
    [r.FormFile], [GetVideo], [UpdateVideo], [os.Create] and [io.Copy]:
    the handler never touches the object store, runs no external tool and
    itself calls neither [os.CreateTemp] nor [os.Open] nor [Seek] nor
    [os.Remove].  A temporary file can only come from the form reader. *)
Theorem thumbnail_upload_calls (cfg : apiConfig) (r : Request)
  (x : Externals) (w : World) :
  exists events,
    trace (snd (handlerUploadThumbnail cfg r x w)) = (trace w ++ events)%list
    /\ forallb thumbnailEvent events = true.
Proof.
  destruct (handlerUploadThumbnail cfg r x w) as [res w'] eqn:Hrun.
  revert Hrun. unfold_body.
  destruct (reqVideoID r) as [videoID|]; steps;
    [| intros [= <- <-]; cbn; allowed].
  destruct (reqToken r) as [token|]; steps;
    [| intros [= <- <-]; cbn; allowed].
  destruct (reqUserID r) as [userID|]; steps;
    [| intros [= <- <-]; cbn; allowed].
  destruct (reqFormParses r); steps;
    [| intros [= <- <-]; cbn; allowed].
  destruct (reqFormFile r) as [[mediaType headerErr]|]; steps;
    [| intros [= <- <-]; cbn; allowed].
  destruct (db w !! videoID) as [metadata|]; steps;
    [| intros [= <- <-]; cbn; allowed].
  destruct (bool_decide (UserID metadata = userID)); steps;
    [| intros [= <- <-]; cbn; allowed].
  destruct (getFilename mediaType (xEntropy x))
    as [[key [e|]] | msg]; steps.
  all: try (destruct (xCreateOK x); steps).
  all: try (destruct (xUpdateOK x); steps).
  all: final_world; cbn [snd trace].
  all: allowed.
Qed.
